(** * littleline: a shallow embedding of [src/littleline.c]

    The editor keeps one global [struct ll_context cl]; every command is a
    C function [int f(void)] that reads and writes that record.  Here the
    record is passed explicitly.  A command that touches neither the
    keyboard nor the terminal is a function
    [ll_context -> option (Z * ll_context)]: the returned [int] and the new
    record, [None] when the C code reads outside a string or calls a buffer
    operation outside the range the buffer interface describes.  Commands
    that read the keyboard, write to the terminal or leave the process live
    in the small monad [M] below.

    The [int] and [size_t] counters (cursor, focus, columns, lengths) are
    integers of [Z]; where the C code subtracts two of them into a
    [size_t] the model asks for a non-negative difference, and it does not
    follow lines long enough to overflow an [int].

    [buffer.h], [history.h] and the key-sequence recognizer declared in
    [littleline.h] are not part of the sources at hand; what the editor
    needs of them is modelled from the specification and marked as such. *)

From Stdlib Require Import Strings.Byte String.
From Stdlib Require Import ZArith List Bool Lia.
Import ListNotations.
Open Scope Z_scope.

(** ** Bytes and C strings *)

(** [unsigned char] value of a byte. *)
Definition byte_val (b : byte) : Z := Z.of_N (Byte.to_N b).

(** Conversion of an [int] to [unsigned char]: reduction modulo 256. *)
Definition byte_of_Z (z : Z) : byte :=
  match Byte.of_N (Z.to_N (z mod 256)) with
  | Some b => b
  | None => x00
  end.

(** Whether plain [char] is a signed type is left to the C implementation
    (signed on x86 System V, unsigned on ARM EABI).  Reading a [char] and
    promoting it to [int] gives [char_val]. *)
Class Target := { plain_char_signed : bool }.

Definition char_val {tgt : Target} (b : byte) : Z :=
  if plain_char_signed && (128 <=? byte_val b)
  then byte_val b - 256
  else byte_val b.

(** A C string is stored as the bytes in front of its terminating NUL.
    The stored bytes of an edit buffer are its [len] bytes, which may
    themselves hold a NUL; the string a [char *] reader sees then stops
    there. *)
Definition c_at (s : list byte) (i : Z) : option byte :=
  if i <? 0 then None
  else match nth_error s (Z.to_nat i) with
       | Some b => Some b
       | None => if i =? Z.of_nat (length s) then Some x00 else None
       end.

Fixpoint strlen (s : list byte) : Z :=
  match s with
  | [] => 0
  | b :: rest => if Byte.eqb b x00 then 0 else 1 + strlen rest
  end.

(** The [n] bytes at [p + off], for a caller that passes a pointer and a
    length ([off] and [n] are [size_t]: a negative difference does not
    denote a range). *)
Definition c_slice (s : list byte) (off n : Z) : option (list byte) :=
  if (0 <=? off) && (0 <=? n) && (off + n <=? Z.of_nat (length s))
  then Some (firstn (Z.to_nat n) (skipn (Z.to_nat off) s))
  else None.

(** [isalnum] of <ctype.h> in the C locale.  The callers pass a plain
    [char]; a byte outside ASCII is not alphanumeric whichever way it is
    promoted, so the unsigned value is passed here. *)
Definition isalnum (c : Z) : bool :=
  ((48 <=? c) && (c <=? 57)) || ((65 <=? c) && (c <=? 90))
  || ((97 <=? c) && (c <=? 122)).

(** [(c & 0xC0) == 0x80]: a UTF-8 continuation byte.  The mask keeps the
    low eight bits, so the signedness of [char] plays no part. *)
Definition is_cont (b : byte) : bool := Z.land (byte_val b) 0xC0 =? 0x80.

Definition bytes (s : string) : list byte := list_byte_of_string s.

(** Option monad for the partial operations. *)
Definition obind {A B} (m : option A) (f : A -> option B) : option B :=
  match m with
  | Some a => f a
  | None => None
  end.

Notation "x <- m ;; k" := (obind m (fun x => k))
  (at level 61, m at next level, right associativity).
Notation "' pat <- m ;; k" :=
  (obind m (fun x => match x with pat => k end))
  (at level 61, pat pattern, m at next level, right associativity).

(** ** The edit buffer *)

(** Modelled from the spec: [struct ll_buf] and the [ll_buf_*] functions of
    [buffer.h] are missing.  The spec (sections 3 and 4.1) describes a
    growable byte sequence, null-terminated with the length tracked
    separately, with assign, insert, insert-char, erase, append and prepend
    at byte offsets.  It says nothing about offsets outside the sequence,
    so those calls have no result here. *)
Definition ll_buf := list byte.

Definition buf_len (b : ll_buf) : Z := Z.of_nat (length b).

Definition ll_buf_init : ll_buf := [].

Definition ll_buf_assign (src : list byte) : ll_buf := src.

Definition ll_buf_insert (b : ll_buf) (off : Z) (src : list byte)
  : option ll_buf :=
  if (0 <=? off) && (off <=? buf_len b)
  then Some (firstn (Z.to_nat off) b ++ src ++ skipn (Z.to_nat off) b)
  else None.

Definition ll_buf_insert_char (b : ll_buf) (off : Z) (c : byte)
  : option ll_buf :=
  ll_buf_insert b off [c].

Definition ll_buf_erase (b : ll_buf) (off count : Z) : option ll_buf :=
  if (0 <=? off) && (0 <=? count) && (off + count <=? buf_len b)
  then Some (firstn (Z.to_nat off) b ++ skipn (Z.to_nat (off + count)) b)
  else None.

Definition ll_buf_append (b : ll_buf) (src : list byte) : ll_buf := b ++ src.

Definition ll_buf_prepend (b : ll_buf) (src : list byte) : ll_buf := src ++ b.

(** ** The history store *)

(** Modelled from the spec: [struct ll_history] and the [ll_history_*]
    functions of [history.h] are missing.  Spec sections 3 and 4.3: a
    bounded sequence of lines, oldest first; [push] appends unless the line
    equals the most recent entry and drops the oldest entry when the
    capacity is exceeded; [index i] is defined for [0 <= i < size]. *)
Record ll_history := mk_history {
  max_lines : Z;
  lines : list (list byte)
}.

Definition history_size (h : ll_history) : Z := Z.of_nat (length (lines h)).

Definition ll_history_init (max : Z) : ll_history :=
  {| max_lines := max; lines := [] |}.

Definition bytes_eqb (a b : list byte) : bool :=
  if list_eq_dec Byte.byte_eq_dec a b then true else false.

(** Append [line] and drop the oldest lines beyond the capacity. *)
Definition history_append (h : ll_history) (line : list byte) : ll_history :=
  let ls := lines h ++ [line] in
  mk_history (max_lines h)
    (skipn (Z.to_nat (Z.of_nat (length ls) - max_lines h)) ls).

Definition ll_history_push (h : ll_history) (line : list byte) : ll_history :=
  match rev (lines h) with
  | recent :: _ => if bytes_eqb recent line then h else history_append h line
  | [] => history_append h line
  end.

Definition ll_history_index (h : ll_history) (i : Z) : option nat :=
  if (0 <=? i) && (i <? history_size h) then Some (Z.to_nat i) else None.

(** ** Command identifiers *)

(** A pointer to a function [int f(void)]: the address of one of the
    editor's commands.
    [cl.last_command] and the bindings hold such addresses; comparing two of
    them compares the commands. *)
Module Fn.
Inductive t :=
| ll_backward_char | ll_forward_char | ll_backward_word | ll_forward_word
| ll_beginning_of_line | ll_end_of_line
| ll_previous_history | ll_next_history
| ll_beginning_of_history | ll_end_of_history
| ll_end_of_file | ll_delete_char | ll_backward_delete_char
| ll_forward_kill_line | ll_backward_kill_line
| ll_forward_kill_word | ll_backward_kill_word
| ll_yank | ll_verbatim | ll_accept_line | ll_terminate.

Definition eq_dec (a b : t) : {a = b} + {a <> b}.
Proof. decide equality. Defined.
End Fn.

(** ** The key-sequence recognizer *)

(** Modelled from the spec: [struct ll_fsm], [ll_fsm_init] and
    [ll_fsm_feed] are missing.  Spec section 4.2: a trie of nodes, each
    with an optional command and a map from the next byte to a child,
    built from the list of bindings (a later binding overrides an earlier
    one); [feed] walks one edge from the current node: a terminal child
    gives FINAL with its command and resets to the root, a child with
    children gives INNER, no edge gives NONE and resets to the root.  The
    same section also has a terminal node with children wait as INNER; the
    two rules differ only on a binding that is a proper prefix of another,
    and the default bindings have none. *)
#[local] Unset Elimination Schemes.
Inductive node := Node (cmd : option Fn.t) (next : list (byte * node)).
#[local] Set Elimination Schemes.

Fixpoint find_edge (b : byte) (next : list (byte * node)) : option node :=
  match next with
  | [] => None
  | (k, n) :: rest => if Byte.eqb k b then Some n else find_edge b rest
  end.

Fixpoint set_edge (b : byte) (n : node) (next : list (byte * node))
  : list (byte * node) :=
  match next with
  | [] => [(b, n)]
  | (k, m) :: rest =>
      if Byte.eqb k b then (k, n) :: rest else (k, m) :: set_edge b n rest
  end.

Fixpoint node_bind (seq : list byte) (f : Fn.t) (n : node) : node :=
  match seq, n with
  | [], Node _ next => Node (Some f) next
  | b :: seq', Node cmd next =>
      let child :=
        match find_edge b next with
        | Some c => c
        | None => Node None []
        end in
      Node cmd (set_edge b (node_bind seq' f child) next)
  end.

Record ll_binding := mk_binding { seq : list byte; func : Fn.t }.

Record ll_fsm := mk_fsm { fsm_root : node; fsm_state : node }.

Definition ll_fsm_init (bindings : list ll_binding) : ll_fsm :=
  let root :=
    fold_left (fun n b => node_bind (seq b) (func b) n) bindings
              (Node None []) in
  mk_fsm root root.

Inductive fsm_result :=
| LL_FSM_INNER_STATE
| LL_FSM_FINAL_STATE (f : Fn.t)
| LL_FSM_NONE.

Definition ll_fsm_feed (m : ll_fsm) (b : byte) : ll_fsm * fsm_result :=
  match fsm_state m with
  | Node _ next =>
      match find_edge b next with
      | Some (Node (Some f) _) =>
          (mk_fsm (fsm_root m) (fsm_root m), LL_FSM_FINAL_STATE f)
      | Some (Node None (e :: es) as child) =>
          (mk_fsm (fsm_root m) child, LL_FSM_INNER_STATE)
      | Some (Node None []) | None =>
          (mk_fsm (fsm_root m) (fsm_root m), LL_FSM_NONE)
      end
  end.

(** ** The editor state *)

(** What [cl.current] points at: the bytes of the edit buffer
    ([cl.buffer.str]) or a line of the history.  The code compares
    [cl.current] with [cl.buffer.str] as addresses. *)
Inductive line_ptr := PtrBuffer | PtrHistory (i : nat).

(** [struct ll_context]; the two [termios] copies play no part in the
    editing functions and are left out. *)
Record ll_context := mk_context {
  initialized : bool;
  bindings : ll_fsm;
  last_command : option Fn.t;
  history : ll_history;
  history_file : option (list byte);
  focus : Z;
  cursor : Z;
  fmt_cursor : Z;
  fmt_len : Z;
  current : line_ptr;
  buffer : ll_buf;
  clipboard : ll_buf
}.

Definition set_initialized (cl : ll_context) (v : bool) : ll_context :=
  mk_context v (bindings cl) (last_command cl) (history cl)
    (history_file cl) (focus cl) (cursor cl) (fmt_cursor cl) (fmt_len cl)
    (current cl) (buffer cl) (clipboard cl).

Definition set_bindings (cl : ll_context) (v : ll_fsm) : ll_context :=
  mk_context (initialized cl) v (last_command cl) (history cl)
    (history_file cl) (focus cl) (cursor cl) (fmt_cursor cl) (fmt_len cl)
    (current cl) (buffer cl) (clipboard cl).

Definition set_last_command (cl : ll_context) (v : option Fn.t)
  : ll_context :=
  mk_context (initialized cl) (bindings cl) v (history cl)
    (history_file cl) (focus cl) (cursor cl) (fmt_cursor cl) (fmt_len cl)
    (current cl) (buffer cl) (clipboard cl).

Definition set_history (cl : ll_context) (v : ll_history) : ll_context :=
  mk_context (initialized cl) (bindings cl) (last_command cl) v
    (history_file cl) (focus cl) (cursor cl) (fmt_cursor cl) (fmt_len cl)
    (current cl) (buffer cl) (clipboard cl).

Definition set_history_file (cl : ll_context) (v : option (list byte))
  : ll_context :=
  mk_context (initialized cl) (bindings cl) (last_command cl) (history cl)
    v (focus cl) (cursor cl) (fmt_cursor cl) (fmt_len cl)
    (current cl) (buffer cl) (clipboard cl).

Definition set_focus (cl : ll_context) (v : Z) : ll_context :=
  mk_context (initialized cl) (bindings cl) (last_command cl) (history cl)
    (history_file cl) v (cursor cl) (fmt_cursor cl) (fmt_len cl)
    (current cl) (buffer cl) (clipboard cl).

Definition set_cursor (cl : ll_context) (v : Z) : ll_context :=
  mk_context (initialized cl) (bindings cl) (last_command cl) (history cl)
    (history_file cl) (focus cl) v (fmt_cursor cl) (fmt_len cl)
    (current cl) (buffer cl) (clipboard cl).

Definition set_fmt_cursor (cl : ll_context) (v : Z) : ll_context :=
  mk_context (initialized cl) (bindings cl) (last_command cl) (history cl)
    (history_file cl) (focus cl) (cursor cl) v (fmt_len cl)
    (current cl) (buffer cl) (clipboard cl).

Definition set_fmt_len (cl : ll_context) (v : Z) : ll_context :=
  mk_context (initialized cl) (bindings cl) (last_command cl) (history cl)
    (history_file cl) (focus cl) (cursor cl) (fmt_cursor cl) v
    (current cl) (buffer cl) (clipboard cl).

Definition set_current (cl : ll_context) (v : line_ptr) : ll_context :=
  mk_context (initialized cl) (bindings cl) (last_command cl) (history cl)
    (history_file cl) (focus cl) (cursor cl) (fmt_cursor cl) (fmt_len cl)
    v (buffer cl) (clipboard cl).

Definition set_buffer (cl : ll_context) (v : ll_buf) : ll_context :=
  mk_context (initialized cl) (bindings cl) (last_command cl) (history cl)
    (history_file cl) (focus cl) (cursor cl) (fmt_cursor cl) (fmt_len cl)
    (current cl) v (clipboard cl).

Definition set_clipboard (cl : ll_context) (v : ll_buf) : ll_context :=
  mk_context (initialized cl) (bindings cl) (last_command cl) (history cl)
    (history_file cl) (focus cl) (cursor cl) (fmt_cursor cl) (fmt_len cl)
    (current cl) (buffer cl) v.

(** The bytes [cl.current] points at; nothing when it points at a history
    line that does not exist. *)
Definition current_str (cl : ll_context) : option (list byte) :=
  match current cl with
  | PtrBuffer => Some (buffer cl)
  | PtrHistory i => nth_error (lines (history cl)) i
  end.

(** [cl.current[i]] *)
Definition current_at (cl : ll_context) (i : Z) : option byte :=
  s <- current_str cl ;; c_at s i.

(** [strlen(cl.current)] *)
Definition current_len (cl : ll_context) : option Z :=
  s <- current_str cl ;; Some (strlen s).

(** ** Editing primitives *)

Definition pop_line (cl : ll_context) : option (Z * ll_context) :=
  match current cl with
  | PtrBuffer => Some (0, cl)
  | PtrHistory _ =>
      s <- current_str cl ;;
      src <- c_slice s 0 (strlen s) ;;
      let cl := set_buffer cl (ll_buf_assign src) in
      let cl := set_current cl PtrBuffer in
      let cl := set_focus cl (history_size (history cl)) in
      Some (1, cl)
  end.

Definition insert_str (cl : ll_context) (str : list byte)
  : option (Z * ll_context) :=
  '(_, cl) <- pop_line cl ;;
  b <- ll_buf_insert (buffer cl) (cursor cl) str ;;
  let cl := set_buffer cl b in
  let cl := set_current cl PtrBuffer in
  let cl := set_cursor cl (cursor cl + buf_len str) in
  Some (0, cl).

Definition insert_char (cl : ll_context) (c : byte)
  : option (Z * ll_context) :=
  '(_, cl) <- pop_line cl ;;
  b <- ll_buf_insert_char (buffer cl) (cursor cl) c ;;
  let cl := set_buffer cl b in
  let cl := set_current cl PtrBuffer in
  let cl := set_cursor cl (cursor cl + 1) in
  Some (0, cl).

(** ** Cursor motion *)

(** [do --cl.cursor; while ((cl.current[cl.cursor] & 0xC0) == 0x80);]
    Each turn lowers the cursor by one and reading below index 0 has no
    result, so [cursor + 1] turns are never used up. *)
Fixpoint backward_char_loop (fuel : nat) (cl : ll_context)
  : option ll_context :=
  match fuel with
  | O => None
  | S fuel =>
      let cl := set_cursor cl (cursor cl - 1) in
      b <- current_at cl (cursor cl) ;;
      if is_cont b then backward_char_loop fuel cl else Some cl
  end.

Definition ll_backward_char (cl : ll_context) : option (Z * ll_context) :=
  if cursor cl =? 0 then Some (-1, cl)
  else
    cl <- backward_char_loop (S (Z.to_nat (cursor cl))) cl ;;
    Some (0, cl).

(** [do ++cl.cursor; while ((cl.current[cl.cursor] & 0xC0) == 0x80);]
    The terminating NUL is not a continuation byte, so the loop ends at
    the latest there; the string's length bounds the turns. *)
Fixpoint forward_char_loop (fuel : nat) (cl : ll_context)
  : option ll_context :=
  match fuel with
  | O => None
  | S fuel =>
      let cl := set_cursor cl (cursor cl + 1) in
      b <- current_at cl (cursor cl) ;;
      if is_cont b then forward_char_loop fuel cl else Some cl
  end.

Definition ll_forward_char (cl : ll_context) : option (Z * ll_context) :=
  b <- current_at cl (cursor cl) ;;
  if Byte.eqb b x00 then Some (-1, cl)
  else
    s <- current_str cl ;;
    cl <- forward_char_loop (S (length s)) cl ;;
    Some (0, cl).

(** [while (cl.cursor >= 0 && P(cl.current[cl.cursor])) --cl.cursor;] *)
Fixpoint backward_while (P : Z -> bool) (fuel : nat) (cl : ll_context)
  : option ll_context :=
  match fuel with
  | O => None
  | S fuel =>
      if cursor cl >=? 0 then
        b <- current_at cl (cursor cl) ;;
        if P (byte_val b)
        then backward_while P fuel (set_cursor cl (cursor cl - 1))
        else Some cl
      else Some cl
  end.

Definition ll_backward_word (cl : ll_context) : option (Z * ll_context) :=
  if cursor cl =? 0 then Some (-1, cl)
  else
    let cl := set_cursor cl (cursor cl - 1) in
    let fuel := S (S (Z.to_nat (cursor cl))) in
    cl <- backward_while (fun c => negb (isalnum c)) fuel cl ;;
    cl <- backward_while isalnum fuel cl ;;
    let cl := set_cursor cl (cursor cl + 1) in
    Some (0, cl).

(** [while (cl.current[cl.cursor] != 0 && P(cl.current[cl.cursor]))
      ++cl.cursor;] *)
Fixpoint forward_while (P : Z -> bool) (fuel : nat) (cl : ll_context)
  : option ll_context :=
  match fuel with
  | O => None
  | S fuel =>
      b <- current_at cl (cursor cl) ;;
      if negb (Byte.eqb b x00) && P (byte_val b)
      then forward_while P fuel (set_cursor cl (cursor cl + 1))
      else Some cl
  end.

Definition ll_forward_word (cl : ll_context) : option (Z * ll_context) :=
  b <- current_at cl (cursor cl + 1) ;;
  if Byte.eqb b x00 then Some (-1, cl)
  else
    s <- current_str cl ;;
    let fuel := S (length s) in
    cl <- forward_while (fun c => negb (isalnum c)) fuel cl ;;
    cl <- forward_while isalnum fuel cl ;;
    cl <- forward_while (fun c => negb (isalnum c)) fuel cl ;;
    Some (0, cl).

Definition ll_beginning_of_line (cl : ll_context)
  : option (Z * ll_context) :=
  Some (0, set_cursor cl 0).

Definition ll_end_of_line (cl : ll_context) : option (Z * ll_context) :=
  n <- current_len cl ;;
  Some (0, set_cursor cl n).

(** ** History navigation *)

Definition ll_previous_history (cl : ll_context)
  : option (Z * ll_context) :=
  if focus cl =? 0 then Some (-1, cl)
  else
    let cl := set_focus cl (focus cl - 1) in
    i <- ll_history_index (history cl) (focus cl) ;;
    let cl := set_current cl (PtrHistory i) in
    n <- current_len cl ;;
    Some (0, set_cursor cl n).

Definition ll_next_history (cl : ll_context) : option (Z * ll_context) :=
  if focus cl =? history_size (history cl) then Some (-1, cl)
  else
    let cl := set_focus cl (focus cl + 1) in
    cl <- (if focus cl =? history_size (history cl)
           then Some (set_current cl PtrBuffer)
           else i <- ll_history_index (history cl) (focus cl) ;;
                Some (set_current cl (PtrHistory i))) ;;
    n <- current_len cl ;;
    Some (0, set_cursor cl n).

Definition ll_beginning_of_history (cl : ll_context)
  : option (Z * ll_context) :=
  let cl := set_focus cl 0 in
  i <- ll_history_index (history cl) (focus cl) ;;
  let cl := set_current cl (PtrHistory i) in
  n <- current_len cl ;;
  Some (0, set_cursor cl n).

Definition ll_end_of_history (cl : ll_context) : option (Z * ll_context) :=
  let cl := set_focus cl (history_size (history cl)) in
  let cl := set_current cl PtrBuffer in
  n <- current_len cl ;;
  Some (0, set_cursor cl n).

(** ** Deleting and killing *)

Definition ll_delete_char (cl : ll_context) : option (Z * ll_context) :=
  b <- current_at cl (cursor cl) ;;
  if Byte.eqb b x00 then Some (-1, cl)
  else
    '(_, cl) <- pop_line cl ;;
    b <- current_at cl (cursor cl) ;;
    let c := byte_val b in
    buf <- (if Z.land c 0x80 =? 0 then ll_buf_erase (buffer cl) (cursor cl) 1
            else if Z.land c 0xE0 =? 0xC0
                 then ll_buf_erase (buffer cl) (cursor cl) 2
            else if Z.land c 0xF0 =? 0xE0
                 then ll_buf_erase (buffer cl) (cursor cl) 3
            else if Z.land c 0xF8 =? 0xF0
                 then ll_buf_erase (buffer cl) (cursor cl) 4
            else if Z.land c 0xFC =? 0xF8
                 then ll_buf_erase (buffer cl) (cursor cl) 5
            else Some (buffer cl)) ;;
    let cl := set_buffer cl buf in
    let cl := set_current cl PtrBuffer in
    Some (0, cl).

Definition ll_backward_delete_char (cl : ll_context)
  : option (Z * ll_context) :=
  '(r, cl) <- ll_backward_char cl ;;
  if negb (r =? 0) then Some (-1, cl)
  else
    '(r, cl) <- ll_delete_char cl ;;
    if negb (r =? 0) then Some (-1, cl)
    else Some (0, cl).

Definition ll_forward_kill_line (cl : ll_context)
  : option (Z * ll_context) :=
  b <- current_at cl (cursor cl) ;;
  if Byte.eqb b x00 then Some (0, cl)
  else
    '(_, cl) <- pop_line cl ;;
    let len := buf_len (buffer cl) - cursor cl in
    killed <- c_slice (buffer cl) (cursor cl) len ;;
    let cl :=
      match last_command cl with
      | Some Fn.ll_forward_kill_word =>
          set_clipboard cl (ll_buf_append (clipboard cl) killed)
      | _ => set_clipboard cl (ll_buf_assign killed)
      end in
    buf <- ll_buf_erase (buffer cl) (cursor cl) len ;;
    let cl := set_buffer cl buf in
    let cl := set_current cl PtrBuffer in
    Some (0, cl).

Definition ll_backward_kill_line (cl : ll_context)
  : option (Z * ll_context) :=
  if cursor cl =? 0 then Some (0, cl)
  else
    '(_, cl) <- pop_line cl ;;
    killed <- c_slice (buffer cl) 0 (cursor cl) ;;
    let cl :=
      match last_command cl with
      | Some Fn.ll_backward_kill_word =>
          set_clipboard cl (ll_buf_prepend (clipboard cl) killed)
      | _ => set_clipboard cl (ll_buf_assign killed)
      end in
    buf <- ll_buf_erase (buffer cl) 0 (cursor cl) ;;
    let cl := set_buffer cl buf in
    let cl := set_current cl PtrBuffer in
    let cl := set_cursor cl 0 in
    Some (0, cl).

Definition ll_forward_kill_word (cl : ll_context)
  : option (Z * ll_context) :=
  b <- current_at cl (cursor cl) ;;
  if Byte.eqb b x00 then Some (0, cl)
  else
    '(_, cl) <- pop_line cl ;;
    let begin := cursor cl in
    '(_, cl) <- ll_forward_word cl ;;
    let len := cursor cl - begin in
    killed <- c_slice (buffer cl) begin len ;;
    let cl :=
      match last_command cl with
      | Some Fn.ll_forward_kill_word =>
          set_clipboard cl (ll_buf_append (clipboard cl) killed)
      | _ => set_clipboard cl (ll_buf_assign killed)
      end in
    buf <- ll_buf_erase (buffer cl) begin len ;;
    let cl := set_buffer cl buf in
    let cl := set_current cl PtrBuffer in
    let cl := set_cursor cl begin in
    Some (0, cl).

Definition ll_backward_kill_word (cl : ll_context)
  : option (Z * ll_context) :=
  if cursor cl =? 0 then Some (0, cl)
  else
    '(_, cl) <- pop_line cl ;;
    let end_ := cursor cl in
    '(_, cl) <- ll_backward_word cl ;;
    let len := end_ - cursor cl in
    killed <- c_slice (buffer cl) (cursor cl) len ;;
    let cl :=
      match last_command cl with
      | Some Fn.ll_backward_kill_word =>
          set_clipboard cl (ll_buf_prepend (clipboard cl) killed)
      | _ => set_clipboard cl (ll_buf_assign killed)
      end in
    buf <- ll_buf_erase (buffer cl) (cursor cl) len ;;
    let cl := set_buffer cl buf in
    let cl := set_current cl PtrBuffer in
    Some (0, cl).

Definition ll_yank (cl : ll_context) : option (Z * ll_context) :=
  if negb (buf_len (clipboard cl) =? 0)
  then '(_, cl) <- insert_str cl (clipboard cl) ;; Some (0, cl)
  else Some (0, cl).


(** ** Keyboard, terminal and process *)

(** What the editor does to the outside world, in order. *)
Inductive event :=
| EvWrite (b : byte)            (* one byte of write(STDOUT_FILENO, ...) *)
| EvPutchar (b : byte)          (* putchar *)
| EvKeyboardInit                (* tcsetattr to the unbuffered settings *)
| EvKeyboardDeinit              (* tcsetattr back to the saved settings *)
| EvHistoryWrite (path : list byte) (ls : list (list byte)).

(** How a call ends: it returns, the process exits, the keyboard has no
    more bytes to give ([keyboard_get] keeps waiting), or the C code has
    no defined result. *)
Inductive result (A : Type) :=
| Ret (a : A) (cl : ll_context) (input : list byte) (out : list event)
| Exit (status : Z) (cl : ll_context) (input : list byte) (out : list event)
| Blocked (cl : ll_context) (out : list event)
| Undefined.

Arguments Ret {A} a cl input out.
Arguments Exit {A} status cl input out.
Arguments Blocked {A} cl out.
Arguments Undefined {A}.

Definition M (A : Type) := ll_context -> list byte -> result A.

Definition after {A} (o : list event) (r : result A) : result A :=
  match r with
  | Ret a cl input out => Ret a cl input (o ++ out)
  | Exit st cl input out => Exit st cl input (o ++ out)
  | Blocked cl out => Blocked cl (o ++ out)
  | Undefined => Undefined
  end.

Definition ret {A} (a : A) : M A := fun cl input => Ret a cl input [].

Definition mbind {A B} (m : M A) (f : A -> M B) : M B :=
  fun cl input =>
    match m cl input with
    | Ret a cl input out => after out (f a cl input)
    | Exit st cl input out => Exit st cl input out
    | Blocked cl out => Blocked cl out
    | Undefined => Undefined
    end.

Notation "x <~ m ;; k" := (mbind m (fun x => k))
  (at level 61, m at next level, right associativity).
Notation "' pat <~ m ;; k" :=
  (mbind m (fun x => match x with pat => k end))
  (at level 61, pat pattern, m at next level, right associativity).
Notation "m ;;; k" := (mbind m (fun _ => k))
  (at level 61, right associativity).

(** A command that only works on [cl]. *)
Definition pure {A} (f : ll_context -> option (A * ll_context)) : M A :=
  fun cl input =>
    match f cl with
    | Some (a, cl) => Ret a cl input []
    | None => Undefined
    end.

Definition modify (f : ll_context -> ll_context) : M unit :=
  fun cl input => Ret tt (f cl) input [].

Definition emit (out : list event) : M unit :=
  fun cl input => Ret tt cl input out.

(** [write(STDOUT_FILENO, s, n)] *)
Definition write (s : list byte) : M unit := emit (map EvWrite s).

Definition putchar (c : byte) : M unit := emit [EvPutchar c].

(** [do ch = getchar(); while (ch == EOF);] *)
Definition keyboard_get : M byte :=
  fun cl input =>
    match input with
    | [] => Blocked cl []
    | c :: input => Ret c cl input []
    end.

Definition keyboard_init : M Z := emit [EvKeyboardInit] ;;; ret 0.

Definition keyboard_deinit : M unit := emit [EvKeyboardDeinit].

Definition EXIT_FAILURE : Z := 1.

Definition exit {A} (status : Z) : M A :=
  fun cl input => Exit status cl input [].

(** ** The renderer *)

Section Rendering.
Context {tgt : Target}.

(** The body of [for (it = cl.current; *it;)]: [s] holds the bytes of
    [cl.current], [it] is the offset of the pointer in it, [out] what
    has been written so far.  Each turn moves [it] forward and the loop
    leaves at the first NUL, so the string's length bounds the turns. *)
Fixpoint reprint_loop (fuel : nat) (s : list byte) (it : Z)
         (cl : ll_context) (out : list byte)
  : option (ll_context * list byte) :=
  match fuel with
  | O => None
  | S fuel =>
      b <- c_at s it ;;
      if Byte.eqb b x00 then Some (cl, out)
      else
        let end_ := strlen s in
        let cl :=
          if it =? cursor cl then set_fmt_cursor cl (fmt_len cl) else cl in
        let c := byte_val b in
        if c <? 32 then
          let c := byte_of_Z (c + 64) in
          reprint_loop fuel s (it + 1) (set_fmt_len cl (fmt_len cl + 2))
                       (out ++ [x5e; c])
        else if Z.land c 0x80 =? 0 then
          reprint_loop fuel s (it + 1) (set_fmt_len cl (fmt_len cl + 1))
                       (out ++ [b])
        else if Z.land c 0xE0 =? 0xC0 then
          if end_ - it <? 2 then Some (cl, out)
          else
            w <- c_slice s it 2 ;;
            reprint_loop fuel s (it + 2) (set_fmt_len cl (fmt_len cl + 1))
                         (out ++ w)
        else if Z.land c 0xF0 =? 0xE0 then
          if end_ - it <? 3 then Some (cl, out)
          else
            w <- c_slice s it 3 ;;
            reprint_loop fuel s (it + 3) (set_fmt_len cl (fmt_len cl + 1))
                         (out ++ w)
        else if Z.land c 0xF8 =? 0xF0 then
          if end_ - it <? 4 then Some (cl, out)
          else
            w <- c_slice s it 4 ;;
            reprint_loop fuel s (it + 4) (set_fmt_len cl (fmt_len cl + 1))
                         (out ++ w)
        else if Z.land c 0xFC =? 0xF8 then
          if end_ - it <? 5 then Some (cl, out)
          else
            w <- c_slice s it 5 ;;
            reprint_loop fuel s (it + 5) (set_fmt_len cl (fmt_len cl + 1))
                         (out ++ w)
        else
          let c1 := byte_of_Z (48 + Z.shiftr (char_val b) 4) in
          let c2 := byte_of_Z (48 + Z.land (char_val b) 0xF) in
          reprint_loop fuel s (it + 1) (set_fmt_len cl (fmt_len cl + 4))
                       (out ++ [x5c; x78; c1; c2])
  end.

(** [old_fmt_len] is a [size_t]: a negative [cl.fmt_len] would turn into
    a value above every [int], and the loop that counts the [int i] up
    to it has no defined result. *)
Definition reprint_line (cl : ll_context)
  : option (ll_context * list byte) :=
  let old_fmt_len := fmt_len cl in
  let out := repeat x08 (Z.to_nat (fmt_cursor cl)) in
  let cl := set_fmt_cursor cl (-1) in
  let cl := set_fmt_len cl 0 in
  s <- current_str cl ;;
  '(cl, out) <- reprint_loop (S (length s)) s 0 cl out ;;
  let cl :=
    if fmt_cursor cl <? 0 then set_fmt_cursor cl (fmt_len cl) else cl in
  if old_fmt_len <? 0 then None
  else
    let i := fmt_len cl in
    let out := out ++ repeat x20 (Z.to_nat (old_fmt_len - i)) in
    let i := Z.max i old_fmt_len in
    let out := out ++ repeat x08 (Z.to_nat (i - fmt_cursor cl)) in
    Some (cl, out).

Definition reprint : M unit :=
  fun cl input =>
    match reprint_line cl with
    | Some (cl, out) => Ret tt cl input (map EvWrite out)
    | None => Undefined
    end.

(** ** Commands that reach outside the editor state *)

Definition push_line : M Z :=
  fun cl input =>
    match current_str cl with
    | None => Undefined
    | Some s =>
        match c_slice s 0 (strlen s) with
        | None => Undefined
        | Some line =>
            let cl := set_history cl (ll_history_push (history cl) line) in
            match history_file cl with
            | Some path =>
                Ret 0 cl input [EvHistoryWrite path (lines (history cl))]
            | None => Ret 0 cl input []
            end
        end
    end.

Definition ll_verbatim : M Z :=
  reprint ;;;
  c <~ keyboard_get ;;
  pure (fun cl => insert_char cl c) ;;;
  ret 0.

Definition ll_accept_line : M Z :=
  pure pop_line ;;;
  push_line ;;;
  ret 1.

Definition ll_terminate : M Z :=
  write [x0a] ;;;
  keyboard_deinit ;;;
  exit EXIT_FAILURE.

Definition ll_end_of_file : M Z :=
  n <~ pure (fun cl => n <- current_len cl ;; Some (n, cl)) ;;
  if n =? 0 then ll_terminate else pure ll_delete_char.

(** [func()] for the command a binding names. *)
Definition call (func : Fn.t) : M Z :=
  match func with
  | Fn.ll_backward_char => pure ll_backward_char
  | Fn.ll_forward_char => pure ll_forward_char
  | Fn.ll_backward_word => pure ll_backward_word
  | Fn.ll_forward_word => pure ll_forward_word
  | Fn.ll_beginning_of_line => pure ll_beginning_of_line
  | Fn.ll_end_of_line => pure ll_end_of_line
  | Fn.ll_previous_history => pure ll_previous_history
  | Fn.ll_next_history => pure ll_next_history
  | Fn.ll_beginning_of_history => pure ll_beginning_of_history
  | Fn.ll_end_of_history => pure ll_end_of_history
  | Fn.ll_end_of_file => ll_end_of_file
  | Fn.ll_delete_char => pure ll_delete_char
  | Fn.ll_backward_delete_char => pure ll_backward_delete_char
  | Fn.ll_forward_kill_line => pure ll_forward_kill_line
  | Fn.ll_backward_kill_line => pure ll_backward_kill_line
  | Fn.ll_forward_kill_word => pure ll_forward_kill_word
  | Fn.ll_backward_kill_word => pure ll_backward_kill_word
  | Fn.ll_yank => pure ll_yank
  | Fn.ll_verbatim => ll_verbatim
  | Fn.ll_accept_line => ll_accept_line
  | Fn.ll_terminate => ll_terminate
  end.

(** ** The read loop *)

(** The [do ... while (retval == LL_FSM_INNER_STATE)] of
    [handle_character]: [buf] holds the [len] bytes stored so far in
    [char buf[8]]; storing at index 8 has no defined result. *)
Fixpoint read_sequence (buf : list byte) (cl : ll_context)
         (input : list byte) : result (fsm_result * list byte) :=
  match input with
  | [] => Blocked cl []
  | c :: input =>
      if 8 <=? buf_len buf then Undefined
      else
        let buf := buf ++ [c] in
        let '(m, retval) := ll_fsm_feed (bindings cl) c in
        let cl := set_bindings cl m in
        match retval with
        | LL_FSM_INNER_STATE => read_sequence buf cl input
        | _ => Ret (retval, buf) cl input []
        end
  end.

Definition handle_character : M Z :=
  '(retval, buf) <~ read_sequence [] ;;
  match retval with
  | LL_FSM_FINAL_STATE func =>
      retval <~ call func ;;
      modify (fun cl => set_last_command cl (Some func)) ;;;
      if retval <? 0 then putchar x07 ;;; ret 0
      else ret retval
  | _ =>
      pure (fun cl => insert_str cl buf) ;;;
      modify (fun cl => set_last_command cl None) ;;;
      ret 0
  end.

(** [do { reprint_line(); retval = handle_character(); }
     while (retval == 0);]
    Every turn takes at least one byte from the keyboard, so the number
    of bytes the keyboard still holds bounds the turns. *)
Fixpoint read_loop (fuel : nat) : M Z :=
  match fuel with
  | O => fun _ _ => Undefined
  | S fuel =>
      reprint ;;;
      retval <~ handle_character ;;
      if retval =? 0 then read_loop fuel else ret retval
  end.

Definition ll_read (prompt : list byte) : M (option (list byte)) :=
  fun cl input =>
    (init <~ (fun cl input => Ret (initialized cl) cl input []) ;;
     (if negb init then
        modify (fun cl => set_initialized cl true) ;;;
        modify (fun cl => set_last_command cl None) ;;;
        modify (fun cl => set_buffer cl ll_buf_init) ;;;
        modify (fun cl => set_clipboard cl ll_buf_init) ;;;
        keyboard_init ;;; ret tt
      else ret tt) ;;;
     modify (fun cl => set_buffer cl (ll_buf_assign [])) ;;;
     modify (fun cl => set_fmt_len cl 0) ;;;
     modify (fun cl => set_current cl PtrBuffer) ;;;
     modify (fun cl => set_focus cl (history_size (history cl))) ;;;
     modify (fun cl => set_cursor cl 0) ;;;
     modify (fun cl => set_fmt_cursor cl 0) ;;;
     write prompt ;;;
     write [x20] ;;;
     retval <~ read_loop (S (length input)) ;;
     reprint ;;;
     write [x0a] ;;;
     if retval <? 0 then ret None
     else b <~ (fun cl input => Ret (buffer cl) cl input []) ;; ret (Some b))
      cl input.
End Rendering.

(** ** The default bindings *)

Definition LL_ANSI_KEY_BINDINGS : list ll_binding :=
  [ mk_binding [x01] Fn.ll_beginning_of_line;       (* C-a *)
    mk_binding [x02] Fn.ll_backward_char;           (* C-b *)
    mk_binding [x03] Fn.ll_terminate;               (* C-c *)
    mk_binding [x04] Fn.ll_end_of_file;             (* C-d *)
    mk_binding [x05] Fn.ll_end_of_line;             (* C-e *)
    mk_binding [x06] Fn.ll_forward_char;            (* C-f *)
    mk_binding [x08] Fn.ll_backward_delete_char;    (* C-h *)
    mk_binding [x0a] Fn.ll_accept_line;             (* C-j *)
    mk_binding [x0b] Fn.ll_forward_kill_line;       (* C-k *)
    mk_binding [x0e] Fn.ll_next_history;            (* C-n *)
    mk_binding [x10] Fn.ll_previous_history;        (* C-p *)
    mk_binding [x15] Fn.ll_backward_kill_line;      (* C-u *)
    mk_binding [x16] Fn.ll_verbatim;                (* C-v *)
    mk_binding [x17] Fn.ll_backward_kill_word;      (* C-w *)
    mk_binding [x19] Fn.ll_yank;                    (* C-y *)
    mk_binding [x1b; x62] Fn.ll_backward_word;      (* M-b *)
    mk_binding [x1b; x66] Fn.ll_forward_word;       (* M-f *)
    mk_binding [x1b; x5b; x41] Fn.ll_previous_history;     (* Up *)
    mk_binding [x1b; x5b; x42] Fn.ll_next_history;         (* Down *)
    mk_binding [x1b; x5b; x43] Fn.ll_forward_char;         (* Right *)
    mk_binding [x1b; x5b; x44] Fn.ll_backward_char;        (* Left *)
    mk_binding [x1b; x5b; x33; x7e] Fn.ll_delete_char;     (* Delete *)
    mk_binding [x1b; x5b; x37; x7e] Fn.ll_beginning_of_line; (* Home *)
    mk_binding [x1b; x5b; x38; x7e] Fn.ll_end_of_line;     (* End *)
    mk_binding [x7f] Fn.ll_backward_delete_char ].  (* Backspace *)

(** [ll_set_key_bindings], [ll_set_history] *)
Definition ll_set_key_bindings (cl : ll_context) (bs : list ll_binding)
  : ll_context :=
  set_bindings cl (ll_fsm_init bs).

Definition ll_set_history (cl : ll_context) (max : Z) : ll_context :=
  set_history_file (set_history cl (ll_history_init max)) None.

(** The zero-initialised [static struct ll_context cl = { 0 }], after the
    host has installed the default bindings and a history of [max] lines. *)
Definition cl_start (max : Z) : ll_context :=
  ll_set_history
    (ll_set_key_bindings
       (mk_context false (mk_fsm (Node None []) (Node None [])) None
          (mk_history 0 []) None 0 0 0 0 PtrBuffer [] [])
       LL_ANSI_KEY_BINDINGS)
    max.

(** ** States used in the examples *)

(** The editor showing line [i] of the history [hist], cursor at its end,
    while the edit buffer holds [buf]. *)
Definition viewing (hist : list (list byte)) (i : nat) (buf : list byte)
  : ll_context :=
  mk_context true (ll_fsm_init LL_ANSI_KEY_BINDINGS) None
    (mk_history 10 hist) None (Z.of_nat i)
    (strlen (nth i hist [])) 0 0 (PtrHistory i) buf [].

(** The editor on the fresh line [buf] with the cursor at [at_]. *)
Definition typing (buf : list byte) (at_ : Z) : ll_context :=
  mk_context true (ll_fsm_init LL_ANSI_KEY_BINDINGS) None
    (mk_history 10 []) None 0 at_ 0 0 PtrBuffer buf [].

(** Plain [char] signed, as on x86; and unsigned, as on ARM. *)
Definition signed_char_target : Target := {| plain_char_signed := true |}.
Definition unsigned_char_target : Target := {| plain_char_signed := false |}.

(** The kill commands and the state in which each has nothing to kill. *)
Definition empty_kill_span (f : Fn.t) (cl : ll_context) : Prop :=
  match f with
  | Fn.ll_forward_kill_line | Fn.ll_forward_kill_word =>
      current_len cl = Some (cursor cl)
  | Fn.ll_backward_kill_line | Fn.ll_backward_kill_word =>
      cursor cl = 0
  | _ => False
  end.

(** A byte with the high bit set that matches none of the lead patterns
    of a 2- to 5-byte sequence: a continuation byte or one of FC..FF. *)
Definition malformed_lead (b : byte) : bool :=
  let c := byte_val b in
  negb (Z.land c 0x80 =? 0) && negb (Z.land c 0xE0 =? 0xC0)
  && negb (Z.land c 0xF0 =? 0xE0) && negb (Z.land c 0xF8 =? 0xF0)
  && negb (Z.land c 0xFC =? 0xF8).

Definition high_nibble (b : byte) : Z := Z.shiftr (byte_val b) 4.
Definition low_nibble (b : byte) : Z := Z.land (byte_val b) 0xF.

(** Both rendering fields at once. *)
Definition set_fmt (cl : ll_context) (fc fl : Z) : ll_context :=
  set_fmt_len (set_fmt_cursor cl fc) fl.

(** ** Well-formed lines and the cursor invariant *)

(** The encoded length a lead byte announces, by the tests of
    [ll_delete_char] and [reprint_line]; 0 for a byte that starts no
    sequence. *)
Definition seq_len (b : byte) : Z :=
  let c := byte_val b in
  if Z.land c 0x80 =? 0 then 1
  else if Z.land c 0xE0 =? 0xC0 then 2
  else if Z.land c 0xF0 =? 0xE0 then 3
  else if Z.land c 0xF8 =? 0xF0 then 4
  else if Z.land c 0xFC =? 0xF8 then 5
  else 0.

Definition no_nul (s : list byte) : Prop := Forall (fun b => b <> x00) s.

(** A line made of whole characters: each lead byte is not NUL and is
    followed by exactly the continuation bytes it announces. *)
Inductive wf_line : list byte -> Prop :=
| wf_line_nil : wf_line []
| wf_line_char (b : byte) (tail rest : list byte) :
    b <> x00 ->
    seq_len b = 1 + Z.of_nat (length tail) ->
    Forall (fun c => is_cont c = true) tail ->
    wf_line rest ->
    wf_line (b :: tail ++ rest).

(** The cursor is inside the current line and, unless it is at the end,
    not on a continuation byte. *)
Definition cursor_ok (cl : ll_context) : Prop :=
  exists s,
    current_str cl = Some s /\
    0 <= cursor cl <= strlen s /\
    (cursor cl < strlen s ->
     exists b, c_at s (cursor cl) = Some b /\ is_cont b = false).

(** [pop_line] on a state whose current line is [s]. *)
Definition popped (cl : ll_context) (s : list byte) : ll_context :=
  match current cl with
  | PtrBuffer => cl
  | PtrHistory _ =>
      set_focus (set_current (set_buffer cl s) PtrBuffer)
                (history_size (history cl))
  end.

(** ** Kill chaining *)

Definition is_kill (f : Fn.t) : bool :=
  match f with
  | Fn.ll_forward_kill_line | Fn.ll_backward_kill_line
  | Fn.ll_forward_kill_word | Fn.ll_backward_kill_word => true
  | _ => false
  end.

(** What the kill [f] removes, [lo] to [hi], with the cursor at [c] in a
    line of [n] bytes: the line kills go to the end or the start of the
    line, the word kills stop where the word motion stops. *)
Definition kill_span (f : Fn.t) (c n lo hi : Z) : Prop :=
  match f with
  | Fn.ll_forward_kill_line => lo = c /\ hi = n
  | Fn.ll_backward_kill_line => lo = 0 /\ hi = c
  | Fn.ll_forward_kill_word => lo = c /\ c <= hi <= n
  | Fn.ll_backward_kill_word => 0 <= lo <= c /\ hi = c
  | _ => False
  end.

(** The span is not empty by the command's own test. *)
Definition kill_has_text (f : Fn.t) (c n : Z) : Prop :=
  match f with
  | Fn.ll_forward_kill_line | Fn.ll_forward_kill_word => c < n
  | Fn.ll_backward_kill_line | Fn.ll_backward_kill_word => 0 < c
  | _ => False
  end.

(** The clipboard after the kill [f] of the text [killed], when the
    previous command was [last]. *)
Definition clipboard_after (f : Fn.t) (last : option Fn.t)
           (clip killed : list byte) : list byte :=
  match f, last with
  | (Fn.ll_forward_kill_line | Fn.ll_forward_kill_word),
    Some Fn.ll_forward_kill_word => clip ++ killed
  | (Fn.ll_backward_kill_line | Fn.ll_backward_kill_word),
    Some Fn.ll_backward_kill_word => killed ++ clip
  | _, _ => killed
  end.

(** The bytes of [s] from offset [lo] up to [hi]. *)
Definition span (s : list byte) (lo hi : Z) : list byte :=
  firstn (Z.to_nat (hi - lo)) (skipn (Z.to_nat lo) s).

(** What a kill leaves behind: the result of [f] on a line [s] from which
    the bytes [lo] to [hi] are gone, with the cursor at [lo]; [hi] is the
    end of the line, the old cursor, or an alphanumeric byte. *)
Definition killed_state (f : Fn.t) (cl : ll_context) (s : list byte)
           (r : option (Z * ll_context)) : Prop :=
  exists cl' lo hi,
    r = Some (0, cl') /\
    0 <= lo <= hi /\ hi <= Z.of_nat (length s) /\
    kill_span f (cursor cl) (Z.of_nat (length s)) lo hi /\
    current cl' = PtrBuffer /\
    buffer cl' = firstn (Z.to_nat lo) s ++ skipn (Z.to_nat hi) s /\
    cursor cl' = lo /\
    clipboard cl' =
      clipboard_after f (last_command cl) (clipboard cl) (span s lo hi) /\
    (hi = Z.of_nat (length s) \/ hi = cursor cl \/
     exists b, c_at s hi = Some b /\ isalnum (byte_val b) = true).

(** The calls that have a result in this model whatever the line holds,
    and the conditions for the others: [ll_forward_word] reads the byte
    behind the terminator when the cursor is at the end of the line; the
    history commands index the history with [focus]; yank and verbatim
    insert bytes, which must not be NUL for the line to stay a C string of
    the same length; verbatim renders first. *)
Definition call_defined (f : Fn.t) (cl : ll_context) (input : list byte)
  : Prop :=
  match f with
  | Fn.ll_forward_word =>
      exists s, current_str cl = Some s /\ cursor cl < strlen s
  | Fn.ll_previous_history | Fn.ll_next_history =>
      0 <= focus cl <= history_size (history cl)
  | Fn.ll_beginning_of_history => 0 < history_size (history cl)
  | Fn.ll_yank => no_nul (clipboard cl)
  | Fn.ll_verbatim =>
      0 <= fmt_len cl /\
      match input with
      | c :: _ => c <> x00
      | [] => True
      end
  | _ => True
  end.

(** The command [g] returns and leaves the cursor on a character. *)
Definition keeps_cursor_ok (g : ll_context -> option (Z * ll_context))
           (cl : ll_context) : Prop :=
  exists r cl', g cl = Some (r, cl') /\ cursor_ok cl'.

(** The editor after [foo bar baz] was typed and one backward-kill-word
    was run: the line is [foo bar ], the clipboard [baz]. *)
Definition after_kill_word : ll_context :=
  set_last_command
    (set_clipboard (typing (bytes "foo bar ") 8) (bytes "baz"))
    (Some Fn.ll_backward_kill_word).

(** Whether every node that carries a command is a leaf: then a terminal
    node never has a longer continuation to wait for. *)
Fixpoint terminals_are_leaves (n : node) : bool :=
  match n with
  | Node cmd next =>
      match cmd, next with
      | Some _, _ :: _ => false
      | _, _ =>
          forallb (fun e => match e with
                            | (_, child) => terminals_are_leaves child
                            end) next
      end
  end.

(** The start state of a session with the history [a], [b], [c]. *)
Definition cl_abc : ll_context :=
  set_history (cl_start 10) (mk_history 10 [bytes "a"; bytes "b"; bytes "c"]).

(** ** Footprints *)



(** The state a call ends in, when it ends in one. *)
Definition final_state {A : Type} (r : result A) : option ll_context :=
  match r with
  | Ret _ cl _ _ => Some cl
  | Exit _ cl _ _ => Some cl
  | Blocked cl _ => Some cl
  | Undefined => None
  end.

(** [focus] and [current] agree: the edit buffer is shown exactly when
    [focus] is the history's size, and otherwise the history line number
    [focus] is shown. *)
Definition view_ok (cl : ll_context) : Prop :=
  match current cl with
  | PtrBuffer => focus cl = history_size (history cl)
  | PtrHistory i =>
      focus cl = Z.of_nat i /\ Z.of_nat i < history_size (history cl)
  end.

(** A whole session: the prompt [>], the letter [a], Enter. *)
Definition typed_a : result (option (list byte)) :=
  Eval vm_compute in
    ll_read (tgt := signed_char_target) [x3e] (cl_start 10) [x61; x0a].

(** What an editing command may do to the view: leave [focus] and
    [current] alone, or end on the edit buffer with [focus] at the
    history's size.  The history itself is never touched. *)
Definition edit_footprint (cl cl' : ll_context) : Prop :=
  history cl' = history cl /\
  ((focus cl' = focus cl /\ current cl' = current cl) \/
   (current cl' = PtrBuffer /\ focus cl' = history_size (history cl))).

(** A line as it is typed: printable ASCII without DEL, which the default
    bindings take for Backspace. *)
Definition typed_text (s : list byte) : Prop :=
  Forall (fun b => 32 <= byte_val b < 127) s.

(** What a call wrote, when it has a result. *)
Definition written {A : Type} (r : result A) : option (list event) :=
  match r with
  | Ret _ _ _ out => Some out
  | Exit _ _ _ out => Some out
  | Blocked _ out => Some out
  | Undefined => None
  end.

(** The state in which [ll_read] enters its loop: the one-time set-up
    when the editor was not initialised, then an empty edit buffer on
    display with the cursor at its start. *)
Definition read_start (cl : ll_context) : ll_context :=
  let cl :=
    if initialized cl then cl
    else set_clipboard
           (set_buffer (set_last_command (set_initialized cl true) None)
                       ll_buf_init)
           ll_buf_init in
  let cl := set_buffer cl (ll_buf_assign []) in
  let cl := set_fmt_len cl 0 in
  let cl := set_current cl PtrBuffer in
  let cl := set_focus cl (history_size (history cl)) in
  let cl := set_cursor cl 0 in
  set_fmt_cursor cl 0.

(** Whether the recognizer, fed the bytes [bs] one after the other from
    the state of [m], answers [LL_FSM_INNER_STATE] to every one of them:
    [bs] is then a proper prefix of some bound sequence. *)
Fixpoint inner_run (m : ll_fsm) (bs : list byte) : bool :=
  match bs with
  | [] => true
  | b :: bs =>
      match ll_fsm_feed m b with
      | (m', LL_FSM_INNER_STATE) => inner_run m' bs
      | _ => false
      end
  end.

(** An editor whose only binding is a sequence of nine bytes. *)
Definition cl_nine : ll_context :=
  ll_set_key_bindings (typing [] 0)
    [mk_binding [x1b; x5b; x31; x3b; x35; x3b; x32; x3b; x41]
                Fn.ll_end_of_line].

(** The number of characters in a run of bytes: the bytes that are not
    continuation bytes. *)
Definition chars (s : list byte) : Z :=
  Z.of_nat (length (filter (fun b => negb (is_cont b)) s)).

(** What the terminal is sent for a line, byte by byte: a control byte as
    a caret and the byte 64 above it, every other byte as it is. *)
Definition byte_display (b : byte) : list byte :=
  if byte_val b <? 32 then [x5e; byte_of_Z (byte_val b + 64)] else [b].

Definition display (s : list byte) : list byte := flat_map byte_display s.

(** The columns a line takes on the terminal, byte by byte: none for a
    continuation byte, two for a control byte, one for any other byte. *)
Definition byte_columns (b : byte) : Z :=
  if is_cont b then 0 else if byte_val b <? 32 then 2 else 1.

Definition columns (s : list byte) : Z :=
  fold_right (fun b n => byte_columns b + n) 0 s.

(** * Properties *)

(** ** C strings *)

Lemma strlen_bounds (s : list byte) : 0 <= strlen s <= Z.of_nat (length s).
Proof.
  induction s as [|b s IH]; cbn [strlen length]; [lia|].
  destruct (Byte.eqb b x00); lia.
Qed.

Lemma c_at_cons (b : byte) (s : list byte) (i : Z) :
  0 <= i -> c_at (b :: s) (i + 1) = c_at s i.
Proof.
  intros Hi. unfold c_at.
  destruct (Z.ltb_spec (i + 1) 0); [lia|].
  destruct (Z.ltb_spec i 0); [lia|].
  replace (Z.to_nat (i + 1)) with (S (Z.to_nat i)) by lia. simpl nth_error.
  destruct (nth_error s (Z.to_nat i)); [reflexivity|].
  simpl length. rewrite Nat2Z.inj_succ.
  destruct (Z.eqb_spec i (Z.of_nat (length s)));
    destruct (Z.eqb_spec (i + 1) (Z.succ (Z.of_nat (length s))));
    try reflexivity; lia.
Qed.

(** The byte at offset [strlen s] is the terminator (or the first NUL). *)
Lemma c_at_strlen (s : list byte) : c_at s (strlen s) = Some x00.
Proof.
  induction s as [|b s IH]; [reflexivity|].
  cbn [strlen]. destruct (Byte.eqb b x00) eqn:E.
  - apply Byte.byte_dec_bl in E. subst. reflexivity.
  - replace (1 + strlen s) with (strlen s + 1) by lia.
    rewrite c_at_cons by apply strlen_bounds. exact IH.
Qed.

(** In front of [strlen s] no byte is NUL. *)
Lemma c_at_before_strlen (s : list byte) (i : Z) :
  0 <= i < strlen s -> exists b, c_at s i = Some b /\ b <> x00.
Proof.
  revert i. induction s as [|b s IH]; intros i Hi; cbn [strlen] in Hi; [lia|].
  destruct (Byte.eqb b x00) eqn:E; [lia|].
  destruct (Z.eq_dec i 0) as [->|Hn].
  - exists b. split; [reflexivity|].
    intros ->. discriminate.
  - replace i with ((i - 1) + 1) by lia. rewrite c_at_cons by lia.
    apply IH. lia.
Qed.

Lemma c_at_in_range (s : list byte) (i : Z) (b : byte) :
  c_at s i = Some b -> 0 <= i <= Z.of_nat (length s).
Proof.
  unfold c_at. destruct (Z.ltb_spec i 0) as [E|E]; [discriminate|].
  destruct (nth_error s (Z.to_nat i)) eqn:En.
  - intros _. assert (Z.to_nat i < length s)%nat
      by (apply nth_error_Some; congruence). lia.
  - destruct (Z.eqb_spec i (Z.of_nat (length s))); [|discriminate].
    intros _. lia.
Qed.

Lemma c_at_nonzero_lt (s : list byte) (i : Z) (b : byte) :
  c_at s i = Some b -> b <> x00 -> 0 <= i < Z.of_nat (length s).
Proof.
  unfold c_at. destruct (Z.ltb_spec i 0) as [E|E]; [discriminate|].
  destruct (nth_error s (Z.to_nat i)) eqn:En.
  - intros _ _. assert (Z.to_nat i < length s)%nat
      by (apply nth_error_Some; congruence). lia.
  - destruct (i =? Z.of_nat (length s)); [|discriminate].
    intros [= <-] Hb. contradiction.
Qed.

Lemma byte_eqb_false (b b' : byte) : b <> b' -> Byte.eqb b b' = false.
Proof.
  intros Hn. destruct (Byte.eqb b b') eqn:E; [|reflexivity].
  apply Byte.byte_dec_bl in E. contradiction.
Qed.


(** ** Reading the current line *)

Lemma current_at_str (cl : ll_context) (s : list byte) (i : Z) :
  current_str cl = Some s -> current_at cl i = c_at s i.
Proof. unfold current_at. intros ->. reflexivity. Qed.

Lemma current_len_str (cl : ll_context) (s : list byte) :
  current_str cl = Some s -> current_len cl = Some (strlen s).
Proof. unfold current_len. intros ->. reflexivity. Qed.

Lemma current_at_end (cl : ll_context) :
  current_len cl = Some (cursor cl) -> current_at cl (cursor cl) = Some x00.
Proof.
  unfold current_len, current_at.
  destruct (current_str cl) as [s|]; simpl; [|discriminate].
  intros [= <-]. apply c_at_strlen.
Qed.

(** ** The dispatcher *)

Lemma after_nil {A} (r : result A) : after [] r = r.
Proof. destruct r; reflexivity. Qed.

Lemma pure_some {A} (f : ll_context -> option (A * ll_context))
      (cl cl' : ll_context) (a : A) (input : list byte) :
  f cl = Some (a, cl') -> pure f cl input = Ret a cl' input [].
Proof. unfold pure. intros ->. reflexivity. Qed.

Lemma pure_ret_inv {A} (f : ll_context -> option (A * ll_context))
      (cl cl' : ll_context) (a : A) (input input' : list byte)
      (out : list event) :
  pure f cl input = Ret a cl' input' out ->
  f cl = Some (a, cl') /\ input' = input /\ out = [].
Proof.
  unfold pure. destruct (f cl) as [[a0 cl0]|]; [|discriminate].
  intros [= -> -> -> <-]. auto.
Qed.


(** ** Kills with nothing to kill, yank with nothing to yank *)

(** C9.  A kill command invoked when its span is empty (the forward kills
    with the cursor at the end of the current line, the backward kills
    with the cursor at 0) returns 0, writes nothing, and leaves every
    field of the editor state as it was. *)
Theorem kill_empty_span {tgt : Target}
        (f : Fn.t) (cl : ll_context) (input : list byte) :
  empty_kill_span f cl ->
  call f cl input = Ret 0 cl input [].
Proof.
  intros Hspan.
  destruct f; cbn [empty_kill_span] in Hspan; try contradiction;
    cbn [call]; apply pure_some.
  - unfold ll_forward_kill_line.
    rewrite (current_at_end _ Hspan). reflexivity.
  - unfold ll_backward_kill_line. rewrite Hspan. reflexivity.
  - unfold ll_forward_kill_word.
    rewrite (current_at_end _ Hspan). reflexivity.
  - unfold ll_backward_kill_word. rewrite Hspan. reflexivity.
Qed.

Lemma kill_empty_span_witness :
  call (tgt := signed_char_target) Fn.ll_forward_kill_word
       (viewing [bytes "abc"] 0 (bytes "x")) [] =
  Ret 0 (viewing [bytes "abc"] 0 (bytes "x")) [] [].
Proof. apply kill_empty_span. reflexivity. Defined.

(** C10.  With an empty clipboard, yank returns 0 and changes nothing: it
    does not pop, so a viewed history line stays viewed. *)
Theorem yank_empty_clipboard {tgt : Target}
        (cl : ll_context) (input : list byte) :
  clipboard cl = [] ->
  ll_yank cl = Some (0, cl) /\ call Fn.ll_yank cl input = Ret 0 cl input [].
Proof.
  intros Hclip.
  assert (Hy : ll_yank cl = Some (0, cl))
    by (unfold ll_yank; rewrite Hclip; reflexivity).
  split; [exact Hy|]. cbn [call]. apply pure_some, Hy.
Qed.

Lemma yank_empty_clipboard_witness :
  ll_yank (viewing [bytes "abc"] 0 (bytes "x")) =
    Some (0, viewing [bytes "abc"] 0 (bytes "x")) /\
  call (tgt := signed_char_target) Fn.ll_yank
       (viewing [bytes "abc"] 0 (bytes "x")) [] =
    Ret 0 (viewing [bytes "abc"] 0 (bytes "x")) [] [].
Proof. apply yank_empty_clipboard. reflexivity. Defined.

(** ** End of file *)

(** C3, as the code has it.  [ll_end_of_file] looks at the line on display
    ([cl.current]), not at the edit buffer: when that line is empty it is
    [ll_terminate], whose whole effect is one newline written, the keyboard
    restored and the process left with [EXIT_FAILURE]; otherwise it is
    [ll_delete_char]. *)
Theorem end_of_file_on_current_line {tgt : Target}
        (cl : ll_context) (input : list byte) (s : list byte) :
  current_str cl = Some s ->
  (strlen s = 0 ->
   ll_end_of_file cl input = ll_terminate cl input /\
   ll_terminate cl input =
     Exit EXIT_FAILURE cl input [EvWrite x0a; EvKeyboardDeinit]) /\
  (strlen s <> 0 ->
   ll_end_of_file cl input = call Fn.ll_delete_char cl input).
Proof.
  intros Hs.
  assert (Hlen : current_len cl = Some (strlen s))
    by (apply current_len_str; exact Hs).
  split; intros Hn.
  - split; [|reflexivity].
    unfold ll_end_of_file, mbind, pure. rewrite Hlen. cbn [obind after].
    rewrite Hn. cbn [Z.eqb]. apply after_nil.
  - unfold ll_end_of_file, mbind, pure at 1. rewrite Hlen. cbn [obind].
    destruct (Z.eqb_spec (strlen s) 0); [contradiction|].
    apply after_nil.
Qed.

Lemma end_of_file_on_current_line_witness :
  ll_end_of_file (viewing [bytes "abc"] 0 []) [] =
  call (tgt := signed_char_target) Fn.ll_delete_char
       (viewing [bytes "abc"] 0 []) [].
Proof.
  apply (end_of_file_on_current_line
           (tgt := signed_char_target) (viewing [bytes "abc"] 0 []) []
           (bytes "abc") eq_refl).
  vm_compute. lia.
Defined.

(** C3 as stated fails in both directions.  With an empty edit buffer and
    the history line [abc] on display, end-of-file is a refused delete-char
    and the process goes on; with [x] in the edit buffer and an empty
    history line on display, it leaves the process. *)
Lemma end_of_file_buffer_counterexample :
  (buffer (viewing [bytes "abc"] 0 []) = [] /\
   ll_end_of_file (viewing [bytes "abc"] 0 []) [] =
     Ret (-1) (viewing [bytes "abc"] 0 []) [] []) /\
  (buffer (viewing [[]] 0 (bytes "x")) = bytes "x" /\
   ll_end_of_file (viewing [[]] 0 (bytes "x")) [] =
     Exit EXIT_FAILURE (viewing [[]] 0 (bytes "x")) []
          [EvWrite x0a; EvKeyboardDeinit]).
Proof. repeat split. Qed.

(** ** Delete-char on a byte that starts no sequence *)

(** When the byte under the cursor is a malformed lead, none of the five
    branches of [ll_delete_char] is taken: nothing is erased and the
    command still returns 0. *)
Lemma delete_char_malformed_lead (cl : ll_context) (b : byte) :
  current cl = PtrBuffer ->
  current_at cl (cursor cl) = Some b ->
  malformed_lead b = true ->
  ll_delete_char cl = Some (0, cl).
Proof.
  intros Hcur Hat Hbad. unfold ll_delete_char. rewrite Hat. cbn [obind].
  assert (Hnz : Byte.eqb b x00 = false)
    by (destruct b; try reflexivity; discriminate Hbad).
  rewrite Hnz. unfold pop_line. rewrite Hcur. cbn [obind].
  rewrite Hat. cbn [obind].
  unfold malformed_lead in Hbad. cbn zeta in Hbad.
  repeat (apply andb_prop in Hbad; destruct Hbad as [Hbad ?]).
  repeat match goal with
         | Hx : negb ?c = true |- _ =>
             apply negb_true_iff in Hx; rewrite Hx; clear Hx
         end.
  cbn [obind]. destruct cl; cbn in *. subst. reflexivity.
Qed.

(** C4 at a failing input: the line is the single byte FF with the cursor
    on it, in front of the end of the line; delete-char reports success and
    the line still holds the byte. *)
Theorem delete_char_leaves_invalid_byte :
  cursor (typing [xff] 0) < strlen (buffer (typing [xff] 0)) /\
  ll_delete_char (typing [xff] 0) = Some (0, typing [xff] 0).
Proof. split; reflexivity. Qed.

(** ** The escape of a malformed lead byte *)

(** One turn of the rendering loop on a malformed lead byte. *)
Lemma reprint_loop_malformed {tgt : Target}
      (fuel : nat) (s : list byte) (it : Z) (cl : ll_context)
      (out : list byte) (b : byte) :
  c_at s it = Some b ->
  malformed_lead b = true ->
  reprint_loop (S fuel) s it cl out =
    let cl :=
      if it =? cursor cl then set_fmt_cursor cl (fmt_len cl) else cl in
    reprint_loop fuel s (it + 1) (set_fmt_len cl (fmt_len cl + 4))
      (out ++ [x5c; x78;
               byte_of_Z (48 + Z.shiftr (char_val b) 4);
               byte_of_Z (48 + Z.land (char_val b) 0xF)]).
Proof.
  intros Hat Hbad. cbn [reprint_loop]. rewrite Hat. cbn [obind].
  assert (Hnz : Byte.eqb b x00 = false)
    by (destruct b; try reflexivity; discriminate Hbad).
  assert (H32 : (byte_val b <? 32) = false)
    by (destruct b; try reflexivity; discriminate Hbad).
  rewrite Hnz, H32.
  unfold malformed_lead in Hbad. cbn zeta in Hbad.
  repeat (apply andb_prop in Hbad; destruct Hbad as [Hbad ?]).
  repeat match goal with
         | Hx : negb ?c = true |- _ =>
             apply negb_true_iff in Hx; rewrite Hx; clear Hx
         end.
  reflexivity.
Qed.

(** Where plain [char] is unsigned the two digits are ['0'] plus the high
    and ['0'] plus the low nibble. *)
Lemma malformed_digits_unsigned (b : byte) :
  byte_of_Z (48 + Z.shiftr (char_val (tgt := unsigned_char_target) b) 4) =
    byte_of_Z (48 + high_nibble b) /\
  byte_of_Z (48 + Z.land (char_val (tgt := unsigned_char_target) b) 0xF) =
    byte_of_Z (48 + low_nibble b).
Proof. split; reflexivity. Qed.

(** Where plain [char] is signed, a byte with the high bit set is read as
    a negative [int]; the shift keeps the sign and the first digit comes
    out 16 places below ['0'] plus the high nibble. *)
Lemma malformed_digits_signed (b : byte) :
  malformed_lead b = true ->
  byte_of_Z (48 + Z.shiftr (char_val (tgt := signed_char_target) b) 4) =
    byte_of_Z (48 + high_nibble b - 16) /\
  byte_of_Z (48 + Z.shiftr (char_val (tgt := signed_char_target) b) 4) <>
    byte_of_Z (48 + high_nibble b) /\
  byte_of_Z (48 + Z.land (char_val (tgt := signed_char_target) b) 0xF) =
    byte_of_Z (48 + low_nibble b).
Proof.
  intros Hbad.
  destruct b; try discriminate Hbad;
    (split; [reflexivity | split; [discriminate | reflexivity]]).
Qed.

(** C7 at a failing input, plain [char] signed: the line is the single
    byte 80; the renderer writes backslash, x, then ['('] (28) and ['0'],
    and counts 4 columns, where ['0'] plus the high nibble is ['8'] (38). *)
Theorem reprint_malformed_lead_signed_char :
  reprint_line (tgt := signed_char_target) (typing [x80] 1) =
    Some (set_fmt_len (set_fmt_cursor (typing [x80] 1) 4) 4,
          [x5c; x78; x28; x30]) /\
  byte_of_Z (48 + high_nibble x80) = x38 /\
  malformed_lead x80 = true.
Proof. repeat split. Qed.

(** ** Setters and the current line *)

Lemma set_cursor_twice (cl : ll_context) (a b : Z) :
  set_cursor (set_cursor cl a) b = set_cursor cl b.
Proof. reflexivity. Qed.

Lemma set_cursor_same (cl : ll_context) : set_cursor cl (cursor cl) = cl.
Proof. destruct cl; reflexivity. Qed.

Lemma cursor_set_cursor (cl : ll_context) (a : Z) :
  cursor (set_cursor cl a) = a.
Proof. reflexivity. Qed.

Lemma current_str_set_cursor (cl : ll_context) (a : Z) :
  current_str (set_cursor cl a) = current_str cl.
Proof. reflexivity. Qed.

Lemma current_at_set_cursor (cl : ll_context) (a i : Z) :
  current_at (set_cursor cl a) i = current_at cl i.
Proof. reflexivity. Qed.

Lemma current_str_set_clipboard (cl : ll_context) (v : ll_buf) :
  current_str (set_clipboard cl v) = current_str cl.
Proof. reflexivity. Qed.

Lemma current_str_set_last_command (cl : ll_context) (v : option Fn.t) :
  current_str (set_last_command cl v) = current_str cl.
Proof. reflexivity. Qed.

Lemma current_str_set_fmt_cursor (cl : ll_context) (v : Z) :
  current_str (set_fmt_cursor cl v) = current_str cl.
Proof. reflexivity. Qed.

Lemma current_str_set_fmt_len (cl : ll_context) (v : Z) :
  current_str (set_fmt_len cl v) = current_str cl.
Proof. reflexivity. Qed.

Create Rewrite HintDb ctx.

#[local] Hint Rewrite set_cursor_twice cursor_set_cursor
  current_str_set_cursor current_at_set_cursor current_str_set_clipboard
  current_str_set_last_command current_str_set_fmt_cursor
  current_str_set_fmt_len : ctx.

(** ** Moving back by one character *)

(** Whatever the line holds, when the loop of [ll_backward_char] ends it
    has only lowered the cursor, and to a byte that is no continuation
    byte. *)
Lemma backward_char_loop_sound (fuel : nat) (cl cl1 : ll_context) :
  backward_char_loop fuel cl = Some cl1 ->
  exists c',
    cl1 = set_cursor cl c' /\ c' < cursor cl /\
    exists b, current_at cl c' = Some b /\ is_cont b = false.
Proof.
  revert cl. induction fuel as [|fuel IH]; intros cl Hloop; [discriminate|].
  cbn [backward_char_loop] in Hloop. autorewrite with ctx in Hloop.
  destruct (current_at cl (cursor cl - 1)) as [b|] eqn:Hb; [|discriminate].
  cbn [obind] in Hloop. destruct (is_cont b) eqn:Hc.
  - apply IH in Hloop. destruct Hloop as (c' & -> & Hlt & b' & Hb' & Hc').
    autorewrite with ctx in *. exists c'. repeat split; try lia.
    exists b'. auto.
  - injection Hloop as <-. exists (cursor cl - 1). repeat split; try lia.
    exists b. auto.
Qed.

(** ** Refused commands *)

Lemma mbind_ret_inv {A B} (m : M A) (f : A -> M B)
      (cl cl' : ll_context) (input input' : list byte) (b : B)
      (out : list event) :
  mbind m f cl input = Ret b cl' input' out ->
  exists a cl1 input1 out1 out2,
    m cl input = Ret a cl1 input1 out1 /\
    f a cl1 input1 = Ret b cl' input' out2 /\ out = out1 ++ out2.
Proof.
  unfold mbind. destruct (m cl input) as [a cl1 input1 out1| | |];
    try discriminate.
  destruct (f a cl1 input1) as [b0 cl2 input2 out2| | |] eqn:Hf;
    try discriminate.
  cbn [after]. intros [= -> -> -> <-].
  exists a, cl1, input1, out1, out2. auto.
Qed.




Lemma terminate_exits (cl : ll_context) (input : list byte) :
  ll_terminate cl input =
    Exit EXIT_FAILURE cl input [EvWrite x0a; EvKeyboardDeinit].
Proof. reflexivity. Qed.

(** A command that returns a negative value has changed nothing, read
    nothing and written nothing. *)
(** Reading a key sequence changes nothing but the recognizer. *)
Lemma read_sequence_frame (buf : list byte) :
  forall (input : list byte) (cl cl1 : ll_context) (input1 : list byte)
         (rv : fsm_result) (buf1 : list byte) (out : list event),
    read_sequence buf cl input = Ret (rv, buf1) cl1 input1 out ->
    exists m, cl1 = set_bindings cl m.
Proof.
  intros input. revert buf.
  induction input as [|c input IH]; intros buf cl cl1 input1 rv buf1 out Hs;
    [discriminate|].
  cbn [read_sequence] in Hs.
  destruct (8 <=? buf_len buf); [discriminate|].
  destruct (ll_fsm_feed (bindings cl) c) as [m retval].
  destruct retval.
  - apply IH in Hs. destruct Hs as (m' & ->). exists m'. reflexivity.
  - injection Hs as _ _ <- _ _. eauto.
  - injection Hs as _ _ <- _ _. eauto.
Qed.





(** ** The window of [handle_character] under the default bindings *)

Ltac sequence_ends :=
  left; do 3 eexists; split; [vm_compute; reflexivity|];
  split; [discriminate|];
  split; [vm_compute; split; discriminate|reflexivity].

Ltac keyboard_empty :=
  right; split; [cbn [length]; lia|eexists; vm_compute; reflexivity].

(** C8.  With the default bindings installed and the recognizer at its
    root, whatever bytes the keyboard delivers, the accumulation loop of
    [handle_character] ends with FINAL or NONE after storing between one
    and four bytes in its window (so index 8 is never written), with the
    recognizer back at its root; or the keyboard runs dry after fewer than
    four bytes and the loop waits. *)
Theorem default_bindings_fill_at_most_four
        (cl : ll_context) (input : list byte) :
  bindings cl = ll_fsm_init LL_ANSI_KEY_BINDINGS ->
  (exists r buf input',
      read_sequence [] cl input = Ret (r, buf) cl input' [] /\
      r <> LL_FSM_INNER_STATE /\
      1 <= buf_len buf <= 4 /\
      input = buf ++ input')
  \/ (Z.of_nat (length input) < 4 /\
      exists cl', read_sequence [] cl input = Blocked cl' []).
Proof.
  intros Hb. destruct cl; cbn in Hb; subst.
  destruct input as [|b0 input]; [keyboard_empty|].
  destruct b0; try sequence_ends.
  destruct input as [|b1 input]; [keyboard_empty|].
  destruct b1; try sequence_ends.
  destruct input as [|b2 input]; [keyboard_empty|].
  destruct b2; try sequence_ends.
  all: destruct input as [|b3 input]; [keyboard_empty|].
  all: destruct b3; sequence_ends.
Qed.

Lemma default_bindings_fill_at_most_four_witness :
  (exists r buf input',
      read_sequence [] (typing [] 0) [x1b; x5b; x33; x7e; x61] =
        Ret (r, buf) (typing [] 0) input' [] /\
      r <> LL_FSM_INNER_STATE /\
      1 <= buf_len buf <= 4 /\
      [x1b; x5b; x33; x7e; x61] = buf ++ input')
  \/ (Z.of_nat (length [x1b; x5b; x33; x7e; x61]) < 4 /\
      exists cl',
        read_sequence [] (typing [] 0) [x1b; x5b; x33; x7e; x61] =
          Blocked cl' []).
Proof.
  apply (default_bindings_fill_at_most_four
           (typing [] 0) [x1b; x5b; x33; x7e; x61]).
  reflexivity.
Defined.

(** The spec's scenario 6: the three arrow-key prefixes. *)
Example up_arrow_is_previous_history :
  read_sequence [] (typing [] 0) [x1b; x5b; x41] =
    Ret (LL_FSM_FINAL_STATE Fn.ll_previous_history, [x1b; x5b; x41])
        (typing [] 0) [] [] /\
  read_sequence [] (typing [] 0) [x1b; x5b; x51] =
    Ret (LL_FSM_NONE, [x1b; x5b; x51]) (typing [] 0) [] [].
Proof. split; vm_compute; reflexivity. Qed.

(** ** Rendering twice *)

(** What the rendering loop writes does not depend on what was written
    before it. *)
Lemma reprint_loop_out {tgt : Target} (fuel : nat) :
  forall (s : list byte) (it : Z) (cl : ll_context) (out : list byte),
    reprint_loop fuel s it cl out =
      match reprint_loop fuel s it cl [] with
      | Some (cl', o) => Some (cl', out ++ o)
      | None => None
      end.
Proof.
  induction fuel as [|fuel IH]; intros s it cl out; [reflexivity|].
  cbn [reprint_loop]. destruct (c_at s it) as [b|]; [|reflexivity].
  cbn [obind]. destruct (Byte.eqb b x00); [rewrite app_nil_r; reflexivity|].
  cbv zeta.
  repeat match goal with
         | |- context [if ?c then _ else _] => destruct c
         | |- context [c_slice ?a ?b ?c] =>
             destruct (c_slice a b c); cbn [obind]
         end;
    try reflexivity; try (rewrite app_nil_r; reflexivity);
    cbn [app];
    match goal with
    | |- reprint_loop ?f ?a ?i ?c (?o ++ ?w) = _ =>
        rewrite (IH a i c (o ++ w)), (IH a i c w);
        destruct (reprint_loop f a i c []) as [[? ?]|];
        [rewrite app_assoc|]; reflexivity
    end.
Qed.

(** The rendering loop touches only [fmt_cursor] and [fmt_len]; the
    column count never shrinks, the cursor column is either untouched or
    one of the columns passed, and nothing is written without a column
    being counted. *)
Lemma reprint_loop_frame {tgt : Target} (fuel : nat) :
  forall (s : list byte) (it : Z) (cl cl' : ll_context)
         (out out' : list byte),
    reprint_loop fuel s it cl out = Some (cl', out') ->
    exists a b body,
      cl' = set_fmt_len (set_fmt_cursor cl a) b /\
      fmt_len cl <= b /\
      (a = fmt_cursor cl \/ fmt_len cl <= a <= b) /\
      out' = out ++ body /\
      (b = fmt_len cl -> body = []).
Proof.
  induction fuel as [|fuel IH]; intros s it cl cl' out out' Hloop;
    [discriminate|].
  cbn [reprint_loop] in Hloop.
  destruct (c_at s it) as [c|]; [|discriminate]. cbn [obind] in Hloop.
  destruct (Byte.eqb c x00).
  { injection Hloop as <- <-. exists (fmt_cursor cl), (fmt_len cl), [].
    rewrite app_nil_r. destruct cl; cbn. repeat split; auto; lia. }
  cbv zeta in Hloop.
  repeat match type of Hloop with
         | context [c_slice ?a ?b ?c] =>
             destruct (c_slice a b c); cbn [obind] in Hloop
         | context [if ?c then _ else _] => destruct c
         end;
    try discriminate;
    try (injection Hloop as <- <-;
         match goal with
         | |- exists a b body, ?x = _ /\ _ =>
             exists (fmt_cursor x), (fmt_len x), []
         end;
         rewrite app_nil_r; destruct cl; cbn;
         repeat split; auto; lia);
    apply IH in Hloop;
    destruct Hloop as (a & b & body & -> & Hb & Ha & -> & _);
    cbn in Hb, Ha;
    eexists a, b, _; rewrite <- app_assoc;
    (split; [reflexivity|]);
    (split; [lia|]); (split; [lia|]); (split; [reflexivity|]); lia.
Qed.

Lemma set_fmt_twice (cl : ll_context) (a b c d : Z) :
  set_fmt (set_fmt cl a b) c d = set_fmt cl c d.
Proof. reflexivity. Qed.

Lemma fmt_cursor_set_fmt (cl : ll_context) (a b : Z) :
  fmt_cursor (set_fmt cl a b) = a.
Proof. reflexivity. Qed.

Lemma fmt_len_set_fmt (cl : ll_context) (a b : Z) :
  fmt_len (set_fmt cl a b) = b.
Proof. reflexivity. Qed.

Lemma current_str_set_fmt (cl : ll_context) (a b : Z) :
  current_str (set_fmt cl a b) = current_str cl.
Proof. reflexivity. Qed.

Lemma set_fmt_cursor_set_fmt (cl : ll_context) (a b c : Z) :
  set_fmt_cursor (set_fmt cl a b) c = set_fmt cl c b.
Proof. reflexivity. Qed.

#[local] Hint Rewrite set_fmt_twice fmt_cursor_set_fmt fmt_len_set_fmt
  current_str_set_fmt set_fmt_cursor_set_fmt : ctx.

(** [reprint_line] in one piece: the loop runs from column 0 with no
    cursor column; the cursor column ends where the loop met the cursor,
    or after the line. *)
Lemma reprint_line_eq {tgt : Target} (cl : ll_context) :
  reprint_line cl =
    (s <- current_str cl ;;
     '(clL, body) <- reprint_loop (S (length s)) s 0 (set_fmt cl (-1) 0) [] ;;
     if fmt_len cl <? 0 then None
     else
       let fl := fmt_len clL in
       let fc := if fmt_cursor clL <? 0 then fl else fmt_cursor clL in
       Some (set_fmt cl fc fl,
             repeat x08 (Z.to_nat (fmt_cursor cl)) ++ body
             ++ repeat x20 (Z.to_nat (fmt_len cl - fl))
             ++ repeat x08 (Z.to_nat (Z.max fl (fmt_len cl) - fc)))).
Proof.
  unfold reprint_line. cbv zeta. fold (set_fmt cl (-1) 0).
  rewrite current_str_set_fmt.
  destruct (current_str cl) as [s|]; [|reflexivity]. cbn [obind].
  rewrite reprint_loop_out.
  destruct (reprint_loop (S (length s)) s 0 (set_fmt cl (-1) 0) [])
    as [[clL body]|] eqn:Hloop; [|reflexivity].
  destruct (reprint_loop_frame _ _ _ _ _ _ _ Hloop)
    as (a & b & body' & -> & _).
  fold (set_fmt (set_fmt cl (-1) 0) a b). autorewrite with ctx.
  cbn [obind]. autorewrite with ctx.
  destruct (fmt_len cl <? 0); [destruct (a <? 0); reflexivity|].
  cbv zeta.
  destruct (a <? 0); autorewrite with ctx; rewrite <- !app_assoc; reflexivity.
Qed.

(** C5, as the code has it.  The renderer repaints the whole line on every
    call.  After a first render, a second one with nothing changed in
    between leaves [fmt_cursor] and [fmt_len] (and all else) as they are
    and writes [fmt_cursor] backspaces, the formatted line [body] that the
    first render wrote, and [fmt_len - fmt_cursor] backspaces, with no
    blanks; when the line formats to no column at all, that is nothing. *)
Theorem second_render_repaints {tgt : Target}
        (cl cl1 : ll_context) (out1 : list byte) :
  reprint_line cl = Some (cl1, out1) ->
  exists body,
    out1 =
      repeat x08 (Z.to_nat (fmt_cursor cl)) ++ body
      ++ repeat x20 (Z.to_nat (fmt_len cl - fmt_len cl1))
      ++ repeat x08
           (Z.to_nat (Z.max (fmt_len cl1) (fmt_len cl) - fmt_cursor cl1)) /\
    reprint_line cl1 =
      Some (cl1,
            repeat x08 (Z.to_nat (fmt_cursor cl1)) ++ body
            ++ repeat x08 (Z.to_nat (fmt_len cl1 - fmt_cursor cl1))) /\
    0 <= fmt_cursor cl1 <= fmt_len cl1 /\
    (fmt_len cl1 = 0 -> body = []).
Proof.
  intros Hr. rewrite reprint_line_eq in Hr.
  destruct (current_str cl) as [s|] eqn:Hs; [|discriminate].
  cbn [obind] in Hr.
  destruct (reprint_loop (S (length s)) s 0 (set_fmt cl (-1) 0) [])
    as [[clL body]|] eqn:Hloop; [|discriminate].
  cbn [obind] in Hr.
  destruct (Z.ltb_spec (fmt_len cl) 0) as [Hneg|Hpos]; [discriminate|].
  cbv zeta in Hr. injection Hr as <- <-.
  destruct (reprint_loop_frame _ _ _ _ _ _ _ Hloop)
    as (a & b & body' & Hcl & Hb & Ha & Hbody & Hnil).
  cbn [app] in Hbody. subst body'.
  fold (set_fmt (set_fmt cl (-1) 0) a b) in Hcl.
  autorewrite with ctx in Hcl, Hb, Ha, Hnil.
  assert (Hfl : fmt_len clL = b) by (subst clL; reflexivity).
  assert (Hfc : fmt_cursor clL = a) by (subst clL; reflexivity).
  rewrite Hfl, Hfc in *.
  set (fc := if a <? 0 then b else a).
  assert (Hfc_range : 0 <= fc <= b)
    by (subst fc; destruct (Z.ltb_spec a 0); lia).
  exists body. autorewrite with ctx.
  split; [reflexivity|].
  split; [|split; [exact Hfc_range|exact Hnil]].
  rewrite reprint_line_eq. autorewrite with ctx.
  rewrite Hs. cbn [obind]. rewrite Hloop. cbn [obind].
  rewrite Hfl, Hfc. fold fc.
  destruct (Z.ltb_spec b 0); [lia|]. cbv zeta.
  rewrite Z.sub_diag, Z.max_id. cbn [Z.to_nat repeat app]. reflexivity.
Qed.

Lemma second_render_repaints_witness :
  exists body,
    [x61] =
      repeat x08 (Z.to_nat (fmt_cursor (typing [x61] 1))) ++ body
      ++ repeat x20
           (Z.to_nat (fmt_len (typing [x61] 1)
                      - fmt_len (set_fmt (typing [x61] 1) 1 1)))
      ++ repeat x08
           (Z.to_nat (Z.max (fmt_len (set_fmt (typing [x61] 1) 1 1))
                            (fmt_len (typing [x61] 1))
                      - fmt_cursor (set_fmt (typing [x61] 1) 1 1))) /\
    reprint_line (tgt := signed_char_target) (set_fmt (typing [x61] 1) 1 1) =
      Some (set_fmt (typing [x61] 1) 1 1,
            repeat x08
              (Z.to_nat (fmt_cursor (set_fmt (typing [x61] 1) 1 1)))
            ++ body
            ++ repeat x08
                 (Z.to_nat (fmt_len (set_fmt (typing [x61] 1) 1 1)
                            - fmt_cursor (set_fmt (typing [x61] 1) 1 1)))) /\
    0 <= fmt_cursor (set_fmt (typing [x61] 1) 1 1)
      <= fmt_len (set_fmt (typing [x61] 1) 1 1) /\
    (fmt_len (set_fmt (typing [x61] 1) 1 1) = 0 -> body = []).
Proof.
  apply (second_render_repaints
           (tgt := signed_char_target) (typing [x61] 1)
           (set_fmt (typing [x61] 1) 1 1) [x61]).
  vm_compute. reflexivity.
Defined.

(** C5 as stated fails on the one-letter line [a] with the cursor after
    it: the first render writes [a], the second writes a backspace and [a]
    again. *)
Lemma second_render_counterexample :
  reprint_line (tgt := signed_char_target) (typing [x61] 1) =
    Some (set_fmt (typing [x61] 1) 1 1, [x61]) /\
  reprint_line (tgt := signed_char_target) (set_fmt (typing [x61] 1) 1 1) =
    Some (set_fmt (typing [x61] 1) 1 1, [x08; x61]).
Proof. split; vm_compute; reflexivity. Qed.

(** ** Lists of bytes as C strings *)

Lemma no_nul_strlen (s : list byte) :
  no_nul s -> strlen s = Z.of_nat (length s).
Proof.
  induction 1 as [|b s Hb _ IH]; [reflexivity|].
  cbn [strlen length]. rewrite (byte_eqb_false _ _ Hb), IH. lia.
Qed.

Lemma no_nul_app (s t : list byte) : no_nul s -> no_nul t -> no_nul (s ++ t).
Proof. intros; apply Forall_app; auto. Qed.

Lemma no_nul_firstn (n : nat) (s : list byte) : no_nul s -> no_nul (firstn n s).
Proof.
  intros Hs. rewrite <- (firstn_skipn n s) in Hs.
  apply Forall_app in Hs. tauto.
Qed.

Lemma no_nul_skipn (n : nat) (s : list byte) : no_nul s -> no_nul (skipn n s).
Proof.
  intros Hs. rewrite <- (firstn_skipn n s) in Hs.
  apply Forall_app in Hs. tauto.
Qed.

Lemma c_at_inside (s : list byte) (i : Z) :
  0 <= i < Z.of_nat (length s) ->
  c_at s i = nth_error s (Z.to_nat i) /\ exists b, c_at s i = Some b.
Proof.
  intros Hi. unfold c_at. destruct (Z.ltb_spec i 0); [lia|].
  destruct (nth_error s (Z.to_nat i)) as [b|] eqn:Hn.
  - split; [reflexivity|]. exists b. reflexivity.
  - apply nth_error_None in Hn. lia.
Qed.

Lemma c_at_end (s : list byte) : c_at s (Z.of_nat (length s)) = Some x00.
Proof.
  unfold c_at. destruct (Z.ltb_spec (Z.of_nat (length s)) 0); [lia|].
  rewrite Nat2Z.id.
  replace (nth_error s (length s)) with (@None byte)
    by (symmetry; apply nth_error_None; lia).
  rewrite Z.eqb_refl. reflexivity.
Qed.

Lemma c_at_no_nul (s : list byte) (i : Z) :
  no_nul s -> 0 <= i < Z.of_nat (length s) ->
  exists b, c_at s i = Some b /\ b <> x00.
Proof.
  intros Hs Hi. apply c_at_before_strlen.
  rewrite (no_nul_strlen _ Hs). exact Hi.
Qed.

Lemma c_at_app_l (s t : list byte) (i : Z) :
  0 <= i < Z.of_nat (length s) -> c_at (s ++ t) i = c_at s i.
Proof.
  intros Hi.
  destruct (c_at_inside s i Hi) as [-> _].
  destruct (c_at_inside (s ++ t) i) as [-> _];
    [rewrite length_app; lia|].
  apply nth_error_app1. lia.
Qed.

Lemma c_at_app_r (s t : list byte) (j : Z) :
  0 <= j -> c_at (s ++ t) (Z.of_nat (length s) + j) = c_at t j.
Proof.
  intros Hj. unfold c_at.
  destruct (Z.ltb_spec (Z.of_nat (length s) + j) 0); [lia|].
  destruct (Z.ltb_spec j 0); [lia|].
  rewrite nth_error_app2 by lia.
  replace (Z.to_nat (Z.of_nat (length s) + j) - length s)%nat
    with (Z.to_nat j) by lia.
  destruct (nth_error t (Z.to_nat j)); [reflexivity|].
  rewrite length_app, Nat2Z.inj_add.
  destruct (Z.eqb_spec j (Z.of_nat (length t)));
    destruct (Z.eqb_spec (Z.of_nat (length s) + j)
                (Z.of_nat (length s) + Z.of_nat (length t)));
    try reflexivity; lia.
Qed.

Lemma c_at_skipn (s : list byte) (n j : Z) :
  0 <= n <= Z.of_nat (length s) -> 0 <= j ->
  c_at (skipn (Z.to_nat n) s) j = c_at s (n + j).
Proof.
  intros Hn Hj.
  pose proof (c_at_app_r (firstn (Z.to_nat n) s) (skipn (Z.to_nat n) s) j Hj)
    as Happ.
  rewrite firstn_skipn, length_firstn in Happ.
  rewrite <- Happ. f_equal. lia.
Qed.

(** The byte that follows an erased span moves to the start of the span;
    the byte that follows an inserted text stays behind it. *)
Lemma c_at_after_erase (s : list byte) (lo hi : Z) :
  0 <= lo <= hi -> hi <= Z.of_nat (length s) ->
  c_at (firstn (Z.to_nat lo) s ++ skipn (Z.to_nat hi) s) lo = c_at s hi.
Proof.
  intros Hlo Hhi.
  replace lo with (Z.of_nat (length (firstn (Z.to_nat lo) s)) + 0) at 2
    by (rewrite length_firstn; lia).
  rewrite c_at_app_r by lia. rewrite c_at_skipn by lia. f_equal. lia.
Qed.

Lemma c_at_after_insert (s ins : list byte) (c : Z) :
  0 <= c <= Z.of_nat (length s) ->
  c_at (firstn (Z.to_nat c) s ++ ins ++ skipn (Z.to_nat c) s)
       (c + Z.of_nat (length ins)) = c_at s c.
Proof.
  intros Hc. rewrite app_assoc.
  replace (c + Z.of_nat (length ins))
    with (Z.of_nat (length (firstn (Z.to_nat c) s ++ ins)) + 0)
    by (rewrite length_app, length_firstn; lia).
  rewrite c_at_app_r by lia. rewrite c_at_skipn by lia. f_equal. lia.
Qed.

Lemma c_slice_all (s : list byte) :
  no_nul s -> c_slice s 0 (strlen s) = Some s.
Proof.
  intros Hs. unfold c_slice. rewrite (no_nul_strlen _ Hs).
  destruct (Z.leb_spec 0 0); [|lia].
  destruct (Z.leb_spec 0 (Z.of_nat (length s))); [|lia].
  destruct (Z.leb_spec (0 + Z.of_nat (length s)) (Z.of_nat (length s)));
    [|lia].
  cbn [andb Z.to_nat skipn]. rewrite Nat2Z.id, firstn_all. reflexivity.
Qed.

Lemma c_slice_span (s : list byte) (lo hi : Z) :
  0 <= lo <= hi -> hi <= Z.of_nat (length s) ->
  c_slice s lo (hi - lo) = Some (span s lo hi).
Proof.
  intros Hlo Hhi. unfold c_slice, span.
  destruct (Z.leb_spec 0 lo); [|lia].
  destruct (Z.leb_spec 0 (hi - lo)); [|lia].
  destruct (Z.leb_spec (lo + (hi - lo)) (Z.of_nat (length s))); [|lia].
  reflexivity.
Qed.

Lemma ll_buf_erase_span (s : list byte) (lo hi : Z) :
  0 <= lo <= hi -> hi <= Z.of_nat (length s) ->
  ll_buf_erase s lo (hi - lo) =
    Some (firstn (Z.to_nat lo) s ++ skipn (Z.to_nat hi) s).
Proof.
  intros Hlo Hhi. unfold ll_buf_erase, buf_len.
  destruct (Z.leb_spec 0 lo); [|lia].
  destruct (Z.leb_spec 0 (hi - lo)); [|lia].
  destruct (Z.leb_spec (lo + (hi - lo)) (Z.of_nat (length s))); [|lia].
  cbn [andb]. replace (lo + (hi - lo)) with hi by lia. reflexivity.
Qed.

(** ** Popping the viewed line *)

Lemma pop_line_popped (cl : ll_context) (s : list byte) :
  current_str cl = Some s -> no_nul s ->
  exists r, pop_line cl = Some (r, popped cl s).
Proof.
  intros Hs Hnn. unfold pop_line, popped.
  destruct (current cl) eqn:Hc; [exists 0; reflexivity|].
  rewrite Hs. cbn [obind]. rewrite (c_slice_all _ Hnn). cbn [obind].
  exists 1. reflexivity.
Qed.

Lemma popped_facts (cl : ll_context) (s : list byte) :
  current_str cl = Some s ->
  current (popped cl s) = PtrBuffer /\
  buffer (popped cl s) = s /\
  current_str (popped cl s) = Some s /\
  cursor (popped cl s) = cursor cl /\
  clipboard (popped cl s) = clipboard cl /\
  last_command (popped cl s) = last_command cl.
Proof.
  unfold popped, current_str.
  destruct (current cl) eqn:Hc; cbn; rewrite ?Hc; intros Hs;
    repeat split; congruence.
Qed.

(** ** The scanning loops *)

(** Scanning forward stops at the end of the line or at the first byte
    that fails the test. *)
Lemma forward_while_total (P : Z -> bool) (s : list byte) (fuel : nat) :
  forall cl : ll_context,
    current_str cl = Some s -> no_nul s ->
    0 <= cursor cl <= Z.of_nat (length s) ->
    Z.of_nat (length s) - cursor cl < Z.of_nat fuel ->
    exists c',
      forward_while P fuel cl = Some (set_cursor cl c') /\
      cursor cl <= c' <= Z.of_nat (length s) /\
      (c' < Z.of_nat (length s) ->
       exists b, c_at s c' = Some b /\ P (byte_val b) = false).
Proof.
  induction fuel as [|fuel IH]; intros cl Hs Hnn Hc Hfuel; [lia|].
  cbn [forward_while]. rewrite (current_at_str _ _ _ Hs).
  destruct (Z.eq_dec (cursor cl) (Z.of_nat (length s))) as [Hend|Hmid].
  - rewrite Hend, c_at_end. cbn [obind Byte.eqb negb andb].
    exists (cursor cl). rewrite set_cursor_same.
    split; [reflexivity|]. split; lia.
  - destruct (c_at_no_nul s (cursor cl) Hnn) as (b & Hb & Hnz); [lia|].
    rewrite Hb. cbn [obind]. rewrite (byte_eqb_false _ _ Hnz).
    cbn [negb andb]. destruct (P (byte_val b)) eqn:HP.
    + destruct (IH (set_cursor cl (cursor cl + 1))) as (c' & Hl & Hr & Hp);
        autorewrite with ctx; auto; try lia.
      autorewrite with ctx in Hl, Hr. exists c'. repeat split; auto; lia.
    + exists (cursor cl). rewrite set_cursor_same.
      repeat split; try lia. intros _. exists b. auto.
Qed.

(** Scanning backward stops below index 0 or at the first byte that fails
    the test; every byte passed satisfies it. *)
Lemma backward_while_total (P : Z -> bool) (s : list byte) (fuel : nat) :
  forall cl : ll_context,
    current_str cl = Some s ->
    -1 <= cursor cl < Z.of_nat (length s) ->
    cursor cl + 1 < Z.of_nat fuel ->
    exists c',
      backward_while P fuel cl = Some (set_cursor cl c') /\
      -1 <= c' <= cursor cl /\
      (0 <= c' -> exists b, c_at s c' = Some b /\ P (byte_val b) = false) /\
      (forall j, c' < j <= cursor cl ->
                 exists b, c_at s j = Some b /\ P (byte_val b) = true).
Proof.
  induction fuel as [|fuel IH]; intros cl Hs Hc Hfuel; [lia|].
  cbn [backward_while].
  destruct (Z.geb_spec (cursor cl) 0) as [Hge|Hlt].
  - rewrite (current_at_str _ _ _ Hs).
    destruct (c_at_inside s (cursor cl)) as (_ & b & Hb); [lia|].
    rewrite Hb. cbn [obind]. destruct (P (byte_val b)) eqn:HP.
    + destruct (IH (set_cursor cl (cursor cl - 1)))
        as (c' & Hl & Hr & Hstop & Hpass);
        autorewrite with ctx; auto; try lia.
      autorewrite with ctx in Hl, Hr, Hpass.
      exists c'. repeat split; auto; try lia.
      intros j Hj. destruct (Z.eq_dec j (cursor cl)) as [->|Hne].
      * exists b. auto.
      * apply Hpass. lia.
    + exists (cursor cl). rewrite set_cursor_same.
      split; [reflexivity|]. split; [lia|]. split; [|lia].
      intros _. exists b. auto.
  - exists (cursor cl). rewrite set_cursor_same.
    split; [reflexivity|]. split; [lia|]. split; lia.
Qed.

Lemma isalnum_not_cont (b : byte) :
  isalnum (byte_val b) = true -> is_cont b = false.
Proof. destruct b; try reflexivity; discriminate. Qed.

Lemma negb_false_true (x : bool) : negb x = false -> x = true.
Proof. destruct x; auto. Qed.

(** ** Word motions *)

(** From inside the line, [ll_forward_word] either refuses on the last
    byte or stops at the end of the line or on an alphanumeric byte. *)
Lemma ll_forward_word_total (cl : ll_context) (s : list byte) :
  current_str cl = Some s -> no_nul s ->
  0 <= cursor cl < Z.of_nat (length s) ->
  exists r c',
    ll_forward_word cl = Some (r, set_cursor cl c') /\
    cursor cl <= c' <= Z.of_nat (length s) /\
    ((r = -1 /\ c' = cursor cl) \/
     (r = 0 /\
      (c' < Z.of_nat (length s) ->
       exists b, c_at s c' = Some b /\ isalnum (byte_val b) = true))).
Proof.
  intros Hs Hnn Hc. unfold ll_forward_word.
  rewrite (current_at_str _ _ _ Hs).
  destruct (Z.eq_dec (cursor cl + 1) (Z.of_nat (length s))) as [Hlast|Hmid].
  - rewrite Hlast, c_at_end. cbn [obind].
    exists (-1), (cursor cl). rewrite set_cursor_same.
    split; [reflexivity|]. split; [lia|]. left. auto.
  - destruct (c_at_no_nul s (cursor cl + 1) Hnn) as (b & Hb & Hnz); [lia|].
    rewrite Hb. cbn [obind]. rewrite (byte_eqb_false _ _ Hnz), Hs.
    cbn [obind].
    destruct (forward_while_total (fun c => negb (isalnum c)) s
                (S (length s)) cl) as (c1 & -> & Hc1 & _); auto; try lia.
    cbn [obind].
    destruct (forward_while_total isalnum s (S (length s))
                (set_cursor cl c1)) as (c2 & -> & Hc2 & _);
      autorewrite with ctx; auto; try lia.
    cbn [obind]. autorewrite with ctx in Hc2 |- *.
    destruct (forward_while_total (fun c => negb (isalnum c)) s
                (S (length s)) (set_cursor cl c2)) as (c3 & -> & Hc3 & Hstop);
      autorewrite with ctx; auto; try lia.
    cbn [obind]. autorewrite with ctx in Hc3 |- *.
    exists 0, c3. split; [reflexivity|]. split; [lia|]. right.
    split; [reflexivity|]. intros Hlt.
    destruct (Hstop Hlt) as (b3 & Hb3 & HP). exists b3.
    split; [exact Hb3|]. apply negb_false_true, HP.
Qed.

(** From behind the first byte, [ll_backward_word] stops at the start of
    the line or on an alphanumeric byte, never behind where it began. *)
Lemma ll_backward_word_total (cl : ll_context) (s : list byte) :
  current_str cl = Some s ->
  0 < cursor cl <= Z.of_nat (length s) ->
  exists c',
    ll_backward_word cl = Some (0, set_cursor cl c') /\
    0 <= c' <= cursor cl /\
    (c' = 0 \/ exists b, c_at s c' = Some b /\ isalnum (byte_val b) = true).
Proof.
  intros Hs Hc. unfold ll_backward_word.
  destruct (Z.eqb_spec (cursor cl) 0); [lia|]. cbv zeta.
  autorewrite with ctx.
  destruct (backward_while_total (fun c => negb (isalnum c)) s
              (S (S (Z.to_nat (cursor cl - 1))))
              (set_cursor cl (cursor cl - 1)))
    as (c1 & -> & Hc1 & Hstop1 & _);
    autorewrite with ctx; auto; try lia.
  cbn [obind]. autorewrite with ctx in Hc1 |- *.
  destruct (backward_while_total isalnum s
              (S (S (Z.to_nat (cursor cl - 1)))) (set_cursor cl c1))
    as (c2 & -> & Hc2 & Hstop2 & Hpass2);
    autorewrite with ctx; auto; try lia.
  cbn [obind]. autorewrite with ctx in Hc2, Hpass2 |- *.
  exists (c2 + 1). split; [reflexivity|]. split; [lia|].
  destruct (Z.eq_dec c2 (-1)) as [->|Hne]; [left; reflexivity|right].
  assert (Hlt : c2 < c1).
  { destruct (Z.eq_dec c2 c1) as [->|]; [|lia]. exfalso.
    destruct Hstop1 as (b1 & Hb1 & HP1); [lia|].
    destruct Hstop2 as (b2 & Hb2 & HP2); [lia|].
    apply negb_false_true in HP1. congruence. }
  apply Hpass2. lia.
Qed.

(** ** The kill commands *)

Lemma clipboard_forward (f : Fn.t) (cl : ll_context) (killed : list byte) :
  f = Fn.ll_forward_kill_line \/ f = Fn.ll_forward_kill_word ->
  match last_command cl with
  | Some Fn.ll_forward_kill_word =>
      set_clipboard cl (ll_buf_append (clipboard cl) killed)
  | _ => set_clipboard cl (ll_buf_assign killed)
  end =
  set_clipboard cl
    (clipboard_after f (last_command cl) (clipboard cl) killed).
Proof.
  intros [-> | ->]; destruct (last_command cl) as [[]|]; reflexivity.
Qed.

Lemma clipboard_backward (f : Fn.t) (cl : ll_context) (killed : list byte) :
  f = Fn.ll_backward_kill_line \/ f = Fn.ll_backward_kill_word ->
  match last_command cl with
  | Some Fn.ll_backward_kill_word =>
      set_clipboard cl (ll_buf_prepend (clipboard cl) killed)
  | _ => set_clipboard cl (ll_buf_assign killed)
  end =
  set_clipboard cl
    (clipboard_after f (last_command cl) (clipboard cl) killed).
Proof.
  intros [-> | ->]; destruct (last_command cl) as [[]|]; reflexivity.
Qed.

Lemma ll_forward_kill_line_total (cl : ll_context) (s : list byte) :
  current_str cl = Some s -> no_nul s ->
  0 <= cursor cl < Z.of_nat (length s) ->
  killed_state Fn.ll_forward_kill_line cl s (ll_forward_kill_line cl).
Proof.
  intros Hs Hnn Hc. unfold ll_forward_kill_line.
  rewrite (current_at_str _ _ _ Hs).
  destruct (c_at_no_nul s (cursor cl) Hnn) as (b & Hb & Hnz); [lia|].
  rewrite Hb. cbn [obind]. rewrite (byte_eqb_false _ _ Hnz).
  destruct (pop_line_popped cl s Hs Hnn) as [r ->].
  destruct (popped_facts cl s Hs) as (Hcur & Hbuf & Hs0 & Hc0 & Hclip & Hlast).
  cbn [obind]. cbv zeta. rewrite Hbuf, Hc0. unfold buf_len.
  rewrite c_slice_span by lia. cbn [obind].
  rewrite (clipboard_forward Fn.ll_forward_kill_line) by auto.
  cbn [buffer set_clipboard cursor]. rewrite Hbuf, Hc0.
  rewrite ll_buf_erase_span by lia. cbn [obind].
  eexists _, (cursor cl), (Z.of_nat (length s)).
  split; [reflexivity|]. cbn. rewrite Hc0, Hlast, Hclip.
  repeat split; auto; lia.
Qed.

Lemma ll_backward_kill_line_total (cl : ll_context) (s : list byte) :
  current_str cl = Some s -> no_nul s ->
  0 < cursor cl <= Z.of_nat (length s) ->
  killed_state Fn.ll_backward_kill_line cl s (ll_backward_kill_line cl).
Proof.
  intros Hs Hnn Hc. unfold ll_backward_kill_line.
  destruct (Z.eqb_spec (cursor cl) 0); [lia|].
  destruct (pop_line_popped cl s Hs Hnn) as [r ->].
  destruct (popped_facts cl s Hs) as (Hcur & Hbuf & Hs0 & Hc0 & Hclip & Hlast).
  cbn [obind]. rewrite Hbuf, Hc0.
  pose proof (c_slice_span s 0 (cursor cl)) as Hsl.
  pose proof (ll_buf_erase_span s 0 (cursor cl)) as Her.
  rewrite Z.sub_0_r in Hsl, Her.
  rewrite Hsl by lia. cbn [obind]. cbv zeta.
  rewrite (clipboard_backward Fn.ll_backward_kill_line) by auto.
  cbn [buffer set_clipboard cursor]. rewrite Hbuf, Hc0.
  rewrite Her by lia. cbn [obind].
  eexists _, 0, (cursor cl).
  split; [reflexivity|]. cbn. rewrite Hlast, Hclip.
  repeat split; auto; lia.
Qed.

Lemma ll_forward_kill_word_total (cl : ll_context) (s : list byte) :
  current_str cl = Some s -> no_nul s ->
  0 <= cursor cl < Z.of_nat (length s) ->
  killed_state Fn.ll_forward_kill_word cl s (ll_forward_kill_word cl).
Proof.
  intros Hs Hnn Hc. unfold ll_forward_kill_word.
  rewrite (current_at_str _ _ _ Hs).
  destruct (c_at_no_nul s (cursor cl) Hnn) as (b & Hb & Hnz); [lia|].
  rewrite Hb. cbn [obind]. rewrite (byte_eqb_false _ _ Hnz).
  destruct (pop_line_popped cl s Hs Hnn) as [r ->].
  destruct (popped_facts cl s Hs) as (Hcur & Hbuf & Hs0 & Hc0 & Hclip & Hlast).
  cbn [obind]. cbv zeta.
  destruct (ll_forward_word_total (popped cl s) s Hs0 Hnn)
    as (rw & e & -> & He & Hstop); [lia|].
  cbn [obind]. rewrite Hc0 in *.
  set (cl1 := set_cursor (popped cl s) e).
  assert (Hbuf1 : buffer cl1 = s) by exact Hbuf.
  assert (Hc1 : cursor cl1 = e) by reflexivity.
  assert (Hlast1 : last_command cl1 = last_command cl) by exact Hlast.
  assert (Hclip1 : clipboard cl1 = clipboard cl) by exact Hclip.
  clearbody cl1. rewrite Hbuf1, Hc1.
  rewrite c_slice_span by lia. cbn [obind].
  rewrite (clipboard_forward Fn.ll_forward_kill_word) by auto.
  cbn [buffer set_clipboard]. rewrite Hbuf1.
  rewrite ll_buf_erase_span by lia. cbn [obind].
  eexists _, (cursor cl), e.
  split; [reflexivity|]. cbn. rewrite Hlast1, Hclip1.
  repeat split; auto; try lia.
  destruct Hstop as [[_ ->]|[_ Hal]]; [auto|].
  destruct (Z.eq_dec e (Z.of_nat (length s))); [auto|].
  right. right. apply Hal. lia.
Qed.

Lemma ll_backward_kill_word_total (cl : ll_context) (s : list byte) :
  current_str cl = Some s -> no_nul s ->
  0 < cursor cl <= Z.of_nat (length s) ->
  killed_state Fn.ll_backward_kill_word cl s (ll_backward_kill_word cl).
Proof.
  intros Hs Hnn Hc. unfold ll_backward_kill_word.
  destruct (Z.eqb_spec (cursor cl) 0); [lia|].
  destruct (pop_line_popped cl s Hs Hnn) as [r ->].
  destruct (popped_facts cl s Hs) as (Hcur & Hbuf & Hs0 & Hc0 & Hclip & Hlast).
  cbn [obind]. cbv zeta.
  destruct (ll_backward_word_total (popped cl s) s Hs0)
    as (b' & -> & Hb' & _); [lia|].
  cbn [obind]. rewrite Hc0 in *.
  set (cl1 := set_cursor (popped cl s) b').
  assert (Hbuf1 : buffer cl1 = s) by exact Hbuf.
  assert (Hc1 : cursor cl1 = b') by reflexivity.
  assert (Hlast1 : last_command cl1 = last_command cl) by exact Hlast.
  assert (Hclip1 : clipboard cl1 = clipboard cl) by exact Hclip.
  clearbody cl1. rewrite Hbuf1, Hc1.
  rewrite c_slice_span by lia. cbn [obind].
  rewrite (clipboard_backward Fn.ll_backward_kill_word) by auto.
  cbn [buffer set_clipboard cursor]. rewrite Hbuf1, Hc1.
  rewrite ll_buf_erase_span by lia. cbn [obind].
  eexists _, b', (cursor cl).
  split; [reflexivity|]. cbn. rewrite Hlast1, Hclip1, Hc1.
  repeat split; auto; lia.
Qed.

(** C1, as the code has it.  On a line [s] without NUL, with the cursor
    inside it and text to kill, each of the four kill commands returns 0
    having removed the bytes [lo] to [hi] of the line; the clipboard then
    holds the old clipboard followed by the killed text when the command
    is a forward kill (word or line) and the previous command was
    forward-kill-word, the killed text followed by the old clipboard when
    it is a backward kill (word or line) and the previous command was
    backward-kill-word, and the killed text alone otherwise. *)
Theorem kill_chaining {tgt : Target}
        (f : Fn.t) (cl : ll_context) (input : list byte) (s : list byte) :
  current_str cl = Some s ->
  no_nul s ->
  0 <= cursor cl <= Z.of_nat (length s) ->
  kill_has_text f (cursor cl) (Z.of_nat (length s)) ->
  exists cl' lo hi,
    call f cl input = Ret 0 cl' input [] /\
    0 <= lo <= hi /\ hi <= Z.of_nat (length s) /\
    kill_span f (cursor cl) (Z.of_nat (length s)) lo hi /\
    buffer cl' = firstn (Z.to_nat lo) s ++ skipn (Z.to_nat hi) s /\
    clipboard cl' =
      clipboard_after f (last_command cl) (clipboard cl) (span s lo hi).
Proof.
  intros Hs Hnn Hc Htext.
  assert (Hk : exists g, call f = pure g /\ killed_state f cl s (g cl)).
  { destruct f; try contradiction; cbn [kill_has_text] in Htext;
      eexists; (split; [reflexivity|]).
    - apply ll_forward_kill_line_total; auto; lia.
    - apply ll_backward_kill_line_total; auto; lia.
    - apply ll_forward_kill_word_total; auto; lia.
    - apply ll_backward_kill_word_total; auto; lia. }
  destruct Hk as (g & -> & cl' & lo & hi & Hg & Hlo & Hhi & Hspan & _ & Hbuf
                    & _ & Hclip & _).
  exists cl', lo, hi. rewrite (pure_some _ _ _ _ _ Hg). auto 10.
Qed.

Lemma kill_chaining_witness :
  exists cl' lo hi,
    call (tgt := signed_char_target) Fn.ll_backward_kill_line
         after_kill_word [] = Ret 0 cl' [] [] /\
    0 <= lo <= hi /\ hi <= Z.of_nat (length (bytes "foo bar ")) /\
    kill_span Fn.ll_backward_kill_line (cursor after_kill_word)
              (Z.of_nat (length (bytes "foo bar "))) lo hi /\
    buffer cl' =
      firstn (Z.to_nat lo) (bytes "foo bar ")
      ++ skipn (Z.to_nat hi) (bytes "foo bar ") /\
    clipboard cl' =
      clipboard_after Fn.ll_backward_kill_line
        (last_command after_kill_word) (clipboard after_kill_word)
        (span (bytes "foo bar ") lo hi).
Proof.
  apply (kill_chaining (tgt := signed_char_target)
           Fn.ll_backward_kill_line after_kill_word [] (bytes "foo bar ")).
  - reflexivity.
  - repeat constructor; discriminate.
  - vm_compute. split; discriminate.
  - vm_compute. reflexivity.
Defined.

(** C1 as stated fails for the line kills.  After [foo bar baz] and C-w
    (clipboard [baz]), C-u kills [foo bar ] and the clipboard becomes
    [foo bar baz], not the killed span: backward-kill-line prepends when
    the previous command was backward-kill-word. *)
Lemma kill_line_chains_counterexample :
  call (tgt := signed_char_target) Fn.ll_backward_kill_line
       after_kill_word [] =
    Ret 0 (set_cursor
             (set_buffer
                (set_clipboard after_kill_word (bytes "foo bar baz")) [])
             0) [] [] /\
  span (bytes "foo bar ") 0 8 = bytes "foo bar " /\
  bytes "foo bar baz" <> bytes "foo bar " /\
  (exists st out,
      ll_read (tgt := signed_char_target) [x3e] (cl_start 10)
              (bytes "foo bar baz" ++ [x17; x15]) = Blocked st out /\
      buffer st = [] /\ clipboard st = bytes "foo bar baz").
Proof.
  split; [vm_compute; reflexivity|].
  split; [reflexivity|].
  split; [discriminate|].
  eexists _, _. split; [vm_compute; reflexivity|]. split; reflexivity.
Qed.

(** ** Well-formed lines *)

Lemma seq_len_lead (b : byte) : 1 <= seq_len b -> is_cont b = false.
Proof. destruct b; try reflexivity; vm_compute; intros H; exfalso; auto. Qed.

Lemma seq_len_range (b : byte) : 0 <= seq_len b <= 5.
Proof. destruct b; vm_compute; split; discriminate. Qed.

Lemma is_cont_not_nul (b : byte) : is_cont b = true -> b <> x00.
Proof. intros H ->. discriminate. Qed.

Lemma wf_line_no_nul (s : list byte) : wf_line s -> no_nul s.
Proof.
  induction 1 as [|b tail rest Hb _ Htail _ IH]; [constructor|].
  constructor; [exact Hb|]. apply no_nul_app; [|exact IH].
  eapply Forall_impl; [|exact Htail]. apply is_cont_not_nul.
Qed.

(** A well-formed line does not begin with a continuation byte. *)
Lemma wf_line_first (s : list byte) (b : byte) :
  wf_line s -> c_at s 0 = Some b -> is_cont b = false.
Proof.
  intros Hwf Hb. destruct Hwf as [|b0 tail rest _ Hlen _ _].
  - injection Hb as <-. reflexivity.
  - injection Hb as <-. apply seq_len_lead. lia.
Qed.

(** In a well-formed line, a byte that is no continuation byte starts a
    whole character, and what follows the character is again no
    continuation byte (the terminator counts). *)
Lemma wf_line_char_at (s : list byte) :
  wf_line s ->
  forall (i : Z) (b : byte),
    0 <= i < Z.of_nat (length s) ->
    c_at s i = Some b -> is_cont b = false ->
    1 <= seq_len b /\
    i + seq_len b <= Z.of_nat (length s) /\
    exists b', c_at s (i + seq_len b) = Some b' /\ is_cont b' = false.
Proof.
  induction 1 as [|b0 tail rest Hb0 Hlen Htail Hrest IH];
    intros i b Hi Hb Hcont; [cbn in Hi; lia|].
  change (b0 :: tail ++ rest) with ((b0 :: tail) ++ rest) in *.
  assert (Hl : Z.of_nat (length (b0 :: tail)) = seq_len b0)
    by (cbn [length]; lia).
  rewrite length_app, Nat2Z.inj_add, Hl in *.
  destruct (Z.eq_dec i 0) as [->|Hi0].
  - injection Hb as <-. split; [lia|]. split; [lia|].
    replace (0 + seq_len b0) with (Z.of_nat (length (b0 :: tail)) + 0)
      by lia.
    rewrite c_at_app_r by lia.
    destruct rest as [|b1 rest'].
    + exists x00. split; reflexivity.
    + exists b1. split; [reflexivity|].
      eapply wf_line_first; [exact Hrest|reflexivity].
  - destruct (Z.lt_ge_cases i (seq_len b0)) as [Hin|Hout].
    + (* inside the first character: a continuation byte *)
      exfalso. rewrite c_at_app_l in Hb by lia.
      replace i with ((i - 1) + 1) in Hb by lia.
      rewrite c_at_cons in Hb by lia.
      destruct (c_at_inside tail (i - 1)) as [Hnth _]; [lia|].
      rewrite Hnth in Hb. apply nth_error_In in Hb.
      rewrite Forall_forall in Htail. apply Htail in Hb. congruence.
    + replace i with (Z.of_nat (length (b0 :: tail)) + (i - seq_len b0))
        in Hb by lia.
      rewrite c_at_app_r in Hb by lia.
      destruct (IH (i - seq_len b0) b) as (Hn & Hfit & b' & Hb' & Hc');
        auto; try lia.
      split; [exact Hn|]. split; [lia|]. exists b'. split; [|exact Hc'].
      replace (i + seq_len b)
        with (Z.of_nat (length (b0 :: tail)) + (i - seq_len b0 + seq_len b))
        by lia.
      rewrite c_at_app_r by lia. exact Hb'.
Qed.

(** ** Moving by one character, on a line without NUL *)

Lemma backward_char_loop_total (s : list byte) (b0 : byte) (fuel : nat) :
  forall cl : ll_context,
    current_str cl = Some s ->
    c_at s 0 = Some b0 -> is_cont b0 = false ->
    0 < cursor cl <= Z.of_nat (length s) ->
    cursor cl <= Z.of_nat fuel ->
    exists c',
      backward_char_loop fuel cl = Some (set_cursor cl c') /\
      0 <= c' < cursor cl /\
      exists b, c_at s c' = Some b /\ is_cont b = false.
Proof.
  induction fuel as [|fuel IH]; intros cl Hs Hb0 Hc0 Hc Hfuel; [lia|].
  cbn [backward_char_loop]. autorewrite with ctx.
  rewrite (current_at_str _ _ _ Hs).
  destruct (c_at_inside s (cursor cl - 1)) as (_ & b & Hb); [lia|].
  rewrite Hb. cbn [obind]. destruct (is_cont b) eqn:Hcont.
  - assert (cursor cl - 1 <> 0) by (intros E; rewrite E in Hb; congruence).
    destruct (IH (set_cursor cl (cursor cl - 1))) as (c' & Hl & Hr & Hp);
      autorewrite with ctx; auto; try lia.
    autorewrite with ctx in Hl, Hr. exists c'.
    split; [exact Hl|]. split; [lia|exact Hp].
  - exists (cursor cl - 1). split; [reflexivity|]. split; [lia|].
    exists b. auto.
Qed.

Lemma forward_char_loop_total (s : list byte) (fuel : nat) :
  forall cl : ll_context,
    current_str cl = Some s -> no_nul s ->
    0 <= cursor cl < Z.of_nat (length s) ->
    Z.of_nat (length s) - cursor cl <= Z.of_nat fuel ->
    exists c',
      forward_char_loop fuel cl = Some (set_cursor cl c') /\
      cursor cl < c' <= Z.of_nat (length s) /\
      exists b, c_at s c' = Some b /\ is_cont b = false.
Proof.
  induction fuel as [|fuel IH]; intros cl Hs Hnn Hc Hfuel; [lia|].
  cbn [forward_char_loop]. autorewrite with ctx.
  rewrite (current_at_str _ _ _ Hs).
  destruct (Z.eq_dec (cursor cl + 1) (Z.of_nat (length s))) as [Hend|Hmid].
  - rewrite Hend, c_at_end. cbn [obind].
    exists (Z.of_nat (length s)). rewrite <- Hend at 1.
    split; [reflexivity|]. split; [lia|].
    exists x00. rewrite c_at_end. auto.
  - destruct (c_at_no_nul s (cursor cl + 1) Hnn) as (b & Hb & Hnz); [lia|].
    rewrite Hb. cbn [obind]. destruct (is_cont b) eqn:Hcont.
    + destruct (IH (set_cursor cl (cursor cl + 1))) as (c' & Hl & Hr & Hp);
        autorewrite with ctx; auto; try lia.
      autorewrite with ctx in Hl, Hr. exists c'.
      split; [exact Hl|]. split; [lia|exact Hp].
    + exists (cursor cl + 1). split; [reflexivity|]. split; [lia|].
      exists b. auto.
Qed.

(** ** The cursor invariant *)

Lemma cursor_ok_elim (cl : ll_context) (s : list byte) :
  cursor_ok cl -> current_str cl = Some s -> no_nul s ->
  0 <= cursor cl <= Z.of_nat (length s) /\
  exists b, c_at s (cursor cl) = Some b /\ is_cont b = false.
Proof.
  intros (s' & Hs' & Hc & Hb) Hs Hnn.
  assert (s' = s) by congruence. subst s'.
  rewrite (no_nul_strlen _ Hnn) in *. split; [exact Hc|].
  destruct (Z.eq_dec (cursor cl) (Z.of_nat (length s))) as [->|Hne].
  - exists x00. rewrite c_at_end. auto.
  - apply Hb. lia.
Qed.

Lemma cursor_ok_intro (cl : ll_context) (s : list byte) :
  current_str cl = Some s -> no_nul s ->
  0 <= cursor cl <= Z.of_nat (length s) ->
  (exists b, c_at s (cursor cl) = Some b /\ is_cont b = false) ->
  cursor_ok cl.
Proof.
  intros Hs Hnn Hc Hb. exists s. rewrite (no_nul_strlen _ Hnn). auto.
Qed.

Lemma cursor_ok_at_end (cl : ll_context) (s : list byte) :
  current_str cl = Some s -> cursor cl = strlen s -> cursor_ok cl.
Proof.
  intros Hs Hc. exists s. split; [exact Hs|]. split; [|lia].
  pose proof (strlen_bounds s). lia.
Qed.

Section CursorInvariant.
Variable cl : ll_context.
Variable s : list byte.
Hypothesis Hs : current_str cl = Some s.
Hypothesis Hwf : wf_line s.
Hypothesis Hok : cursor_ok cl.

Lemma line_no_nul : no_nul s.
Proof. exact (wf_line_no_nul s Hwf). Qed.

Lemma keeps_refused (g : ll_context -> option (Z * ll_context)) (r : Z) :
  g cl = Some (r, cl) -> keeps_cursor_ok g cl.
Proof. intros Hg. exists r, cl. auto. Qed.

Lemma keeps_moved (g : ll_context -> option (Z * ll_context))
      (r c' : Z) :
  g cl = Some (r, set_cursor cl c') ->
  0 <= c' <= Z.of_nat (length s) ->
  (exists b, c_at s c' = Some b /\ is_cont b = false) ->
  keeps_cursor_ok g cl.
Proof.
  pose proof line_no_nul as Hnn.
  intros Hg Hc Hb. exists r, (set_cursor cl c'). split; [exact Hg|].
  apply (cursor_ok_intro _ s); autorewrite with ctx; auto.
Qed.

Lemma first_byte_ok : exists b, c_at s 0 = Some b /\ is_cont b = false.
Proof.
  pose proof line_no_nul as Hnn.
  destruct s as [|b0 s'] eqn:E.
  - exists x00. auto.
  - exists b0. split; [reflexivity|].
    eapply wf_line_first; [exact Hwf|reflexivity].
Qed.

Lemma keeps_backward_char : keeps_cursor_ok ll_backward_char cl.
Proof.
  pose proof line_no_nul as Hnn.
  destruct (cursor_ok_elim cl s Hok Hs Hnn) as (Hc & _).
  unfold keeps_cursor_ok, ll_backward_char.
  destruct (Z.eqb_spec (cursor cl) 0) as [E|E].
  - exists (-1), cl. auto.
  - destruct first_byte_ok as (b0 & Hb0 & Hc0).
    destruct (backward_char_loop_total s b0 (S (Z.to_nat (cursor cl))) cl)
      as (c' & -> & Hr & Hb); auto; try lia.
    cbn [obind]. eexists _, _. split; [reflexivity|].
    apply (cursor_ok_intro _ s); autorewrite with ctx; auto. lia.
Qed.

Lemma keeps_forward_char : keeps_cursor_ok ll_forward_char cl.
Proof.
  pose proof line_no_nul as Hnn.
  destruct (cursor_ok_elim cl s Hok Hs Hnn) as (Hc & _).
  unfold keeps_cursor_ok, ll_forward_char.
  rewrite (current_at_str _ _ _ Hs).
  destruct (Z.eq_dec (cursor cl) (Z.of_nat (length s))) as [E|E].
  - rewrite E, c_at_end. cbn [obind]. exists (-1), cl. auto.
  - destruct (c_at_no_nul s (cursor cl) Hnn) as (b & Hb & Hnz); [lia|].
    rewrite Hb. cbn [obind]. rewrite (byte_eqb_false _ _ Hnz), Hs.
    cbn [obind].
    destruct (forward_char_loop_total s (S (length s)) cl)
      as (c' & -> & Hr & Hb'); auto; try lia.
    cbn [obind]. eexists _, _. split; [reflexivity|].
    apply (cursor_ok_intro _ s); autorewrite with ctx; auto. lia.
Qed.

Lemma keeps_backward_word : keeps_cursor_ok ll_backward_word cl.
Proof.
  pose proof line_no_nul as Hnn.
  destruct (cursor_ok_elim cl s Hok Hs Hnn) as (Hc & _).
  destruct (Z.eq_dec (cursor cl) 0) as [E|E].
  - apply (keeps_refused _ (-1)). unfold ll_backward_word.
    rewrite E. reflexivity.
  - destruct (ll_backward_word_total cl s Hs) as (c' & Hg & Hr & Hb);
      [lia|].
    apply (keeps_moved _ 0 c' Hg); [lia|].
    destruct Hb as [->|(b & Hb & Hal)]; [apply first_byte_ok|].
    exists b. split; [exact Hb|]. apply isalnum_not_cont, Hal.
Qed.

Lemma keeps_forward_word :
  cursor cl < strlen s -> keeps_cursor_ok ll_forward_word cl.
Proof.
  pose proof line_no_nul as Hnn.
  intros Hlt. rewrite (no_nul_strlen _ Hnn) in Hlt.
  destruct (cursor_ok_elim cl s Hok Hs Hnn) as (Hc & Hb0).
  destruct (ll_forward_word_total cl s Hs Hnn) as (r & c' & Hg & Hr & Hb);
    [lia|].
  apply (keeps_moved _ r c' Hg); [lia|].
  destruct Hb as [[_ ->]|[_ Hal]]; [exact Hb0|].
  destruct (Z.eq_dec c' (Z.of_nat (length s))) as [->|Hne].
  - exists x00. rewrite c_at_end. auto.
  - destruct Hal as (b & Hb & Hal); [lia|].
    exists b. split; [exact Hb|]. apply isalnum_not_cont, Hal.
Qed.

Lemma keeps_beginning_of_line : keeps_cursor_ok ll_beginning_of_line cl.
Proof.
  pose proof line_no_nul as Hnn.
  apply (keeps_moved _ 0 0); [reflexivity|lia|apply first_byte_ok].
Qed.

Lemma keeps_end_of_line : keeps_cursor_ok ll_end_of_line cl.
Proof.
  pose proof line_no_nul as Hnn.
  exists 0, (set_cursor cl (strlen s)). split.
  - unfold ll_end_of_line. rewrite (current_len_str _ _ Hs). reflexivity.
  - apply (cursor_ok_at_end _ s); autorewrite with ctx; auto.
Qed.

End CursorInvariant.

(** *** History navigation puts the cursor at the end of the new line *)

Lemma history_index_line (h : ll_history) (i : Z) :
  0 <= i < history_size h ->
  exists l,
    ll_history_index h i = Some (Z.to_nat i) /\
    nth_error (lines h) (Z.to_nat i) = Some l.
Proof.
  intros Hi. unfold ll_history_index, history_size in *.
  destruct (Z.leb_spec 0 i); [|lia].
  destruct (Z.ltb_spec i (Z.of_nat (length (lines h)))); [|lia].
  destruct (nth_error (lines h) (Z.to_nat i)) as [l|] eqn:Hn.
  - exists l. auto.
  - apply nth_error_None in Hn. lia.
Qed.

Lemma keeps_previous_history (cl : ll_context) :
  cursor_ok cl -> 0 <= focus cl <= history_size (history cl) ->
  keeps_cursor_ok ll_previous_history cl.
Proof.
  intros Hok Hf. unfold keeps_cursor_ok, ll_previous_history.
  destruct (Z.eqb_spec (focus cl) 0); [exists (-1), cl; auto|].
  cbv zeta. cbn [focus history set_focus].
  destruct (history_index_line (history cl) (focus cl - 1))
    as (l & -> & Hl); [lia|].
  cbn [obind]. unfold current_len, current_str.
  cbn [current history set_current set_focus]. rewrite Hl. cbn [obind].
  eexists _, _. split; [reflexivity|].
  apply (cursor_ok_at_end _ l); [|reflexivity].
  unfold current_str. cbn. exact Hl.
Qed.

Lemma keeps_next_history (cl : ll_context) :
  cursor_ok cl -> 0 <= focus cl <= history_size (history cl) ->
  keeps_cursor_ok ll_next_history cl.
Proof.
  intros Hok Hf. unfold keeps_cursor_ok, ll_next_history.
  destruct (Z.eqb_spec (focus cl) (history_size (history cl)));
    [exists (-1), cl; auto|].
  cbv zeta. cbn [focus history set_focus].
  destruct (Z.eqb_spec (focus cl + 1) (history_size (history cl))).
  - cbn [obind]. unfold current_len, current_str. cbn. 
    eexists _, _. split; [reflexivity|].
    apply (cursor_ok_at_end _ (buffer cl)); reflexivity.
  - destruct (history_index_line (history cl) (focus cl + 1))
      as (l & -> & Hl); [lia|].
    cbn [obind]. unfold current_len, current_str.
    cbn [current history set_current set_focus]. rewrite Hl. cbn [obind].
    eexists _, _. split; [reflexivity|].
    apply (cursor_ok_at_end _ l); [|reflexivity].
    unfold current_str. cbn. exact Hl.
Qed.

Lemma keeps_beginning_of_history (cl : ll_context) :
  0 < history_size (history cl) ->
  keeps_cursor_ok ll_beginning_of_history cl.
Proof.
  intros Hf. unfold keeps_cursor_ok, ll_beginning_of_history.
  cbv zeta. cbn [focus history set_focus].
  destruct (history_index_line (history cl) 0) as (l & -> & Hl); [lia|].
  cbn [obind]. unfold current_len, current_str.
  cbn [current history set_current set_focus]. rewrite Hl. cbn [obind].
  eexists _, _. split; [reflexivity|].
  apply (cursor_ok_at_end _ l); [|reflexivity].
  unfold current_str. cbn. exact Hl.
Qed.

Lemma keeps_end_of_history (cl : ll_context) :
  keeps_cursor_ok ll_end_of_history cl.
Proof.
  unfold keeps_cursor_ok, ll_end_of_history. cbv zeta.
  unfold current_len, current_str. cbn.
  eexists _, _. split; [reflexivity|].
  apply (cursor_ok_at_end _ (buffer cl)); reflexivity.
Qed.

(** *** Erasing and inserting at the cursor *)

Lemma cursor_ok_after_erase (cl' : ll_context) (s : list byte) (lo hi : Z) :
  no_nul s ->
  current cl' = PtrBuffer ->
  buffer cl' = firstn (Z.to_nat lo) s ++ skipn (Z.to_nat hi) s ->
  cursor cl' = lo ->
  0 <= lo <= hi -> hi <= Z.of_nat (length s) ->
  (exists b, c_at s hi = Some b /\ is_cont b = false) ->
  cursor_ok cl'.
Proof.
  intros Hnn Hcur Hbuf Hc Hlo Hhi Hb.
  apply (cursor_ok_intro _ (firstn (Z.to_nat lo) s ++ skipn (Z.to_nat hi) s)).
  - unfold current_str. rewrite Hcur, Hbuf. reflexivity.
  - apply no_nul_app; [apply no_nul_firstn|apply no_nul_skipn]; exact Hnn.
  - rewrite Hc, length_app, length_firstn, length_skipn. lia.
  - rewrite Hc, c_at_after_erase by lia. exact Hb.
Qed.

Lemma erase_by_lead (b : byte) (buf : ll_buf) (cur : Z) :
  1 <= seq_len b ->
  (if Z.land (byte_val b) 0x80 =? 0 then ll_buf_erase buf cur 1
   else if Z.land (byte_val b) 0xE0 =? 0xC0 then ll_buf_erase buf cur 2
   else if Z.land (byte_val b) 0xF0 =? 0xE0 then ll_buf_erase buf cur 3
   else if Z.land (byte_val b) 0xF8 =? 0xF0 then ll_buf_erase buf cur 4
   else if Z.land (byte_val b) 0xFC =? 0xF8 then ll_buf_erase buf cur 5
   else Some buf) =
  ll_buf_erase buf cur (seq_len b).
Proof.
  unfold seq_len. cbv zeta.
  repeat match goal with
         | |- context [if ?c then _ else _] => destruct c
         end; try reflexivity. lia.
Qed.

(** On a well-formed line with the cursor on a character, delete-char
    refuses at the end of the line and otherwise erases the whole
    character, so the cursor is on the next one. *)
Lemma delete_char_on_char (cl : ll_context) (s : list byte) :
  current_str cl = Some s -> wf_line s -> cursor_ok cl ->
  keeps_cursor_ok ll_delete_char cl.
Proof.
  intros Hs Hwf Hok. pose proof (wf_line_no_nul s Hwf) as Hnn.
  destruct (cursor_ok_elim cl s Hok Hs Hnn) as (Hc & b & Hb & Hcont).
  unfold keeps_cursor_ok, ll_delete_char.
  rewrite (current_at_str _ _ _ Hs), Hb. cbn [obind].
  destruct (Z.eq_dec (cursor cl) (Z.of_nat (length s))) as [E|E].
  - rewrite E, c_at_end in Hb. injection Hb as <-.
    exists (-1), cl. auto.
  - destruct (c_at_no_nul s (cursor cl) Hnn) as (b1 & Hb1 & Hnz); [lia|].
    assert (b1 = b) by congruence. subst b1.
    rewrite (byte_eqb_false _ _ Hnz).
    destruct (pop_line_popped cl s Hs Hnn) as [r ->].
    destruct (popped_facts cl s Hs)
      as (Hcur & Hbuf & Hs0 & Hc0 & Hclip & Hlast).
    cbn [obind]. rewrite (current_at_str _ _ _ Hs0), Hc0, Hb.
    cbn [obind]. cbv zeta.
    destruct (wf_line_char_at s Hwf (cursor cl) b) as (Hn & Hfit & Hnext);
      auto; try lia.
    rewrite erase_by_lead by exact Hn. rewrite Hbuf.
    pose proof (ll_buf_erase_span s (cursor cl) (cursor cl + seq_len b))
      as Her.
    replace (cursor cl + seq_len b - cursor cl) with (seq_len b) in Her
      by lia.
    rewrite Her by lia. cbn [obind].
    eexists _, _. split; [reflexivity|].
    apply (cursor_ok_after_erase _ s (cursor cl) (cursor cl + seq_len b));
      auto; try lia.
Qed.

(** Where the byte under the cursor does start a sequence that fits in
    the line, delete-char removes exactly that many bytes and nothing
    else. *)
Lemma delete_char_removes_sequence (cl : ll_context) (s : list byte)
      (b : byte) :
  current_str cl = Some s -> no_nul s ->
  c_at s (cursor cl) = Some b -> b <> x00 ->
  1 <= seq_len b ->
  cursor cl + seq_len b <= Z.of_nat (length s) ->
  exists cl',
    ll_delete_char cl = Some (0, cl') /\
    current cl' = PtrBuffer /\
    cursor cl' = cursor cl /\
    buffer cl' =
      firstn (Z.to_nat (cursor cl)) s
      ++ skipn (Z.to_nat (cursor cl + seq_len b)) s.
Proof.
  intros Hs Hnn Hb Hnz Hn Hfit.
  pose proof (c_at_in_range _ _ _ Hb) as Hc.
  unfold ll_delete_char.
  rewrite (current_at_str _ _ _ Hs), Hb. cbn [obind].
  rewrite (byte_eqb_false _ _ Hnz).
  destruct (pop_line_popped cl s Hs Hnn) as [r ->].
  destruct (popped_facts cl s Hs)
    as (Hcur & Hbuf & Hs0 & Hc0 & Hclip & Hlast).
  cbn [obind]. rewrite (current_at_str _ _ _ Hs0), Hc0, Hb.
  cbn [obind]. cbv zeta.
  rewrite erase_by_lead by exact Hn. rewrite Hbuf.
  pose proof (ll_buf_erase_span s (cursor cl) (cursor cl + seq_len b))
    as Her.
  replace (cursor cl + seq_len b - cursor cl) with (seq_len b) in Her
    by lia.
  rewrite Her by lia. cbn [obind].
  eexists. split; [reflexivity|]. cbn. auto.
Qed.

Lemma keeps_backward_delete_char (cl : ll_context) (s : list byte) :
  current_str cl = Some s -> wf_line s -> cursor_ok cl ->
  keeps_cursor_ok ll_backward_delete_char cl.
Proof.
  intros Hs Hwf Hok.
  destruct (keeps_backward_char cl s Hs Hwf Hok) as (r1 & cl1 & Hg1 & Hok1).
  assert (Hs1 : current_str cl1 = Some s).
  { unfold ll_backward_char in Hg1.
    destruct (cursor cl =? 0); [injection Hg1 as _ <-; exact Hs|].
    destruct (backward_char_loop _ cl) as [cl2|] eqn:Hloop; [|discriminate].
    injection Hg1 as _ <-.
    apply backward_char_loop_sound in Hloop.
    destruct Hloop as (c' & -> & _). exact Hs. }
  destruct (delete_char_on_char cl1 s Hs1 Hwf Hok1)
    as (r2 & cl2 & Hg2 & Hok2).
  unfold keeps_cursor_ok, ll_backward_delete_char.
  rewrite Hg1. cbn [obind].
  destruct (negb (r1 =? 0)); [exists (-1), cl1; auto|].
  rewrite Hg2. cbn [obind].
  destruct (negb (r2 =? 0)); eexists _, cl2; auto.
Qed.

Lemma keeps_kill (f : Fn.t) (g : ll_context -> option (Z * ll_context))
      (cl : ll_context) (s : list byte) :
  current_str cl = Some s -> no_nul s -> cursor_ok cl ->
  killed_state f cl s (g cl) ->
  keeps_cursor_ok g cl.
Proof.
  intros Hs Hnn Hok (cl' & lo & hi & Hg & Hlo & Hhi & _ & Hcur & Hbuf & Hc
                       & _ & Hend).
  destruct (cursor_ok_elim cl s Hok Hs Hnn) as (Hcr & Hb).
  exists 0, cl'. split; [exact Hg|].
  apply (cursor_ok_after_erase _ s lo hi); auto.
  destruct Hend as [->|[->|(b & Hb' & Hal)]].
  - exists x00. rewrite c_at_end. auto.
  - exact Hb.
  - exists b. split; [exact Hb'|]. apply isalnum_not_cont, Hal.
Qed.

Lemma keeps_kills (cl : ll_context) (s : list byte) :
  current_str cl = Some s -> no_nul s -> cursor_ok cl ->
  keeps_cursor_ok ll_forward_kill_line cl /\
  keeps_cursor_ok ll_backward_kill_line cl /\
  keeps_cursor_ok ll_forward_kill_word cl /\
  keeps_cursor_ok ll_backward_kill_word cl.
Proof.
  intros Hs Hnn Hok.
  destruct (cursor_ok_elim cl s Hok Hs Hnn) as (Hc & _).
  assert (Hfwd : cursor cl = Z.of_nat (length s) ->
                 current_at cl (cursor cl) = Some x00).
  { intros E. rewrite (current_at_str _ _ _ Hs), E. apply c_at_end. }
  repeat split.
  - destruct (Z.eq_dec (cursor cl) (Z.of_nat (length s))) as [E|E].
    + exists 0, cl. split; [|exact Hok].
      unfold ll_forward_kill_line. rewrite (Hfwd E). reflexivity.
    + eapply keeps_kill; eauto.
      apply ll_forward_kill_line_total; auto; lia.
  - destruct (Z.eq_dec (cursor cl) 0) as [E|E].
    + exists 0, cl. split; [|exact Hok].
      unfold ll_backward_kill_line. rewrite E. reflexivity.
    + eapply keeps_kill; eauto.
      apply ll_backward_kill_line_total; auto; lia.
  - destruct (Z.eq_dec (cursor cl) (Z.of_nat (length s))) as [E|E].
    + exists 0, cl. split; [|exact Hok].
      unfold ll_forward_kill_word. rewrite (Hfwd E). reflexivity.
    + eapply keeps_kill; eauto.
      apply ll_forward_kill_word_total; auto; lia.
  - destruct (Z.eq_dec (cursor cl) 0) as [E|E].
    + exists 0, cl. split; [|exact Hok].
      unfold ll_backward_kill_word. rewrite E. reflexivity.
    + eapply keeps_kill; eauto.
      apply ll_backward_kill_word_total; auto; lia.
Qed.

(** Inserting bytes that are not NUL at the cursor leaves the cursor
    behind them, on the byte it was on. *)
Lemma insert_str_keeps (cl : ll_context) (s ins : list byte) :
  current_str cl = Some s -> no_nul s -> no_nul ins -> cursor_ok cl ->
  keeps_cursor_ok (fun cl => insert_str cl ins) cl.
Proof.
  intros Hs Hnn Hins Hok.
  destruct (cursor_ok_elim cl s Hok Hs Hnn) as (Hc & Hb).
  unfold keeps_cursor_ok, insert_str.
  destruct (pop_line_popped cl s Hs Hnn) as [r ->].
  destruct (popped_facts cl s Hs) as (Hcur & Hbuf & Hs0 & Hc0 & Hclip & Hlast).
  cbn [obind]. rewrite Hbuf, Hc0. unfold ll_buf_insert, buf_len.
  destruct (Z.leb_spec 0 (cursor cl)); [|lia].
  destruct (Z.leb_spec (cursor cl) (Z.of_nat (length s))); [|lia].
  cbn [andb obind]. eexists _, _. split; [reflexivity|].
  apply (cursor_ok_intro _ (firstn (Z.to_nat (cursor cl)) s ++ ins
                              ++ skipn (Z.to_nat (cursor cl)) s)).
  - reflexivity.
  - repeat apply no_nul_app; auto using no_nul_firstn, no_nul_skipn.
  - cbn [cursor set_cursor set_current set_buffer]. rewrite Hc0.
    rewrite !length_app, length_firstn, length_skipn. lia.
  - cbn [cursor set_cursor set_current set_buffer]. rewrite Hc0.
    rewrite c_at_after_insert by lia. exact Hb.
Qed.

Lemma keeps_yank (cl : ll_context) (s : list byte) :
  current_str cl = Some s -> no_nul s -> no_nul (clipboard cl) ->
  cursor_ok cl ->
  keeps_cursor_ok ll_yank cl.
Proof.
  intros Hs Hnn Hclip Hok. unfold keeps_cursor_ok, ll_yank.
  destruct (negb (buf_len (clipboard cl) =? 0)); [|exists 0, cl; auto].
  destruct (insert_str_keeps cl s (clipboard cl) Hs Hnn Hclip Hok)
    as (r & cl' & -> & Hok').
  cbn [obind]. exists 0, cl'. auto.
Qed.

(** *** Rendering always completes *)

Lemma c_slice_defined (s : list byte) (off n : Z) :
  0 <= off -> 0 <= n -> off + n <= Z.of_nat (length s) ->
  exists w, c_slice s off n = Some w.
Proof.
  intros Ho Hn Hfit. unfold c_slice.
  destruct (Z.leb_spec 0 off); [|lia].
  destruct (Z.leb_spec 0 n); [|lia].
  destruct (Z.leb_spec (off + n) (Z.of_nat (length s))); [|lia].
  eexists. reflexivity.
Qed.

Lemma reprint_loop_total {tgt : Target} (s : list byte) (fuel : nat) :
  forall (it : Z) (cl : ll_context) (out : list byte),
    0 <= it <= Z.of_nat (length s) ->
    Z.of_nat (length s) - it < Z.of_nat fuel ->
    exists cl' out', reprint_loop fuel s it cl out = Some (cl', out').
Proof.
  induction fuel as [|fuel IH]; intros it cl out Hit Hfuel; [lia|].
  cbn [reprint_loop].
  destruct (c_at s it) as [b|] eqn:Hb.
  2:{ exfalso. destruct (Z.eq_dec it (Z.of_nat (length s))) as [->|].
      - rewrite c_at_end in Hb. discriminate.
      - destruct (c_at_inside s it) as (_ & b & Hb'); [lia|]. congruence. }
  cbn [obind]. destruct (Byte.eqb b x00) eqn:Hz; [eauto|].
  assert (Hlt : 0 <= it < Z.of_nat (length s)).
  { apply (c_at_nonzero_lt s it b Hb). intros ->. discriminate. }
  pose proof (strlen_bounds s) as Hlen. cbv zeta.
  repeat match goal with
         | |- context [strlen s - it <? ?k] =>
             destruct (Z.ltb_spec (strlen s - it) k); cbv iota
         | |- context [c_slice s it ?k] =>
             let w := fresh "w" in
             let Hw := fresh "Hw" in
             destruct (c_slice_defined s it k) as [w Hw]; [lia|lia|lia|];
             rewrite Hw; cbn [obind]
         | |- context [if ?c then _ else _] => destruct c; cbv iota
         end;
    first [ eexists _, _; reflexivity | apply IH; lia ].
Qed.

Lemma reprint_returns {tgt : Target} (cl : ll_context) (s : list byte)
      (input : list byte) :
  current_str cl = Some s -> 0 <= fmt_len cl ->
  exists fc fl out,
    reprint cl input = Ret tt (set_fmt cl fc fl) input out.
Proof.
  intros Hs Hfl. unfold reprint. rewrite reprint_line_eq, Hs. cbn [obind].
  destruct (reprint_loop_total s (S (length s)) 0 (set_fmt cl (-1) 0) [])
    as (clL & body & ->); [lia|lia|].
  cbn [obind]. destruct (Z.ltb_spec (fmt_len cl) 0); [lia|].
  cbv zeta. eexists _, _, _. reflexivity.
Qed.

(** *** The commands that reach outside the state *)

Lemma verbatim_keeps {tgt : Target} (cl : ll_context) (s : list byte)
      (input : list byte) :
  current_str cl = Some s -> no_nul s -> cursor_ok cl ->
  0 <= fmt_len cl ->
  match input with
  | c :: _ => c <> x00
  | [] => True
  end ->
  match ll_verbatim cl input with
  | Ret _ cl' _ _ => cursor_ok cl'
  | Blocked _ _ => input = []
  | _ => False
  end.
Proof.
  intros Hs Hnn Hok Hfl Hin. unfold ll_verbatim.
  destruct (reprint_returns cl s input Hs Hfl) as (fc & fl & out & Hr).
  unfold mbind at 1. rewrite Hr.
  destruct input as [|c input]; [reflexivity|].
  unfold mbind at 1. cbn [keyboard_get after].
  destruct (insert_str_keeps (set_fmt cl fc fl) s [c])
    as (r & cl' & Hg & Hok'); auto.
  { repeat constructor. exact Hin. }
  unfold mbind, pure.
  change (insert_char (set_fmt cl fc fl) c)
    with (insert_str (set_fmt cl fc fl) [c]).
  rewrite Hg. cbn. exact Hok'.
Qed.


Lemma accept_line_keeps (cl : ll_context) (s : list byte)
      (input : list byte) :
  current_str cl = Some s -> no_nul s -> cursor_ok cl ->
  exists cl' out,
    ll_accept_line cl input = Ret 1 cl' input out /\ cursor_ok cl'.
Proof.
  intros Hs Hnn Hok.
  destruct (cursor_ok_elim cl s Hok Hs Hnn) as (Hc & Hb).
  destruct (pop_line_popped cl s Hs Hnn) as [r Hpop].
  destruct (popped_facts cl s Hs) as (Hcur & Hbuf & Hs0 & Hc0 & _).
  unfold ll_accept_line, mbind at 1, pure. rewrite Hpop.
  unfold mbind at 1, push_line. rewrite Hs0, (c_slice_all _ Hnn).
  set (h := ll_history_push (history (popped cl s)) s).
  assert (Hok' : cursor_ok (set_history (popped cl s) h)).
  { apply (cursor_ok_intro _ s); auto.
    - unfold current_str. cbn. rewrite Hcur, Hbuf. reflexivity.
    - cbn [cursor set_history]. rewrite Hc0. exact Hc.
    - cbn [cursor set_history]. rewrite Hc0. exact Hb. }
  destruct (history_file (set_history (popped cl s) h));
    cbn; eexists _, _; (split; [reflexivity|exact Hok']).
Qed.

Lemma end_of_file_keeps (cl : ll_context) (s : list byte)
      (input : list byte) :
  current_str cl = Some s -> wf_line s -> cursor_ok cl ->
  match ll_end_of_file cl input with
  | Ret _ cl' _ _ => cursor_ok cl'
  | Exit _ _ _ _ => True
  | _ => False
  end.
Proof.
  intros Hs Hwf Hok. unfold ll_end_of_file, mbind, pure.
  rewrite (current_len_str _ _ Hs). cbn [obind].
  destruct (strlen s =? 0); [reflexivity|].
  destruct (delete_char_on_char cl s Hs Hwf Hok) as (r & cl' & -> & Hok').
  cbn. exact Hok'.
Qed.

Lemma pure_keeps (g : ll_context -> option (Z * ll_context))
      (cl : ll_context) (input : list byte) :
  keeps_cursor_ok g cl ->
  match pure g cl input with
  | Ret _ cl' _ _ => cursor_ok cl'
  | _ => False
  end.
Proof. intros (r & cl' & Hg & Hok). unfold pure. rewrite Hg. exact Hok. Qed.

(** C2, as the code has it.  Take a state whose current line is
    well-formed (whole characters, no NUL) and whose cursor is inside the
    line and not on a continuation byte.  Then every command, called where
    it has a result at all, either returns with the cursor again inside
    the current line and not on a continuation byte, or leaves the process
    (terminate, end-of-file), or waits for the keyboard (verbatim). *)
Theorem cursor_stays_on_a_character {tgt : Target}
        (f : Fn.t) (cl : ll_context) (input : list byte) (s : list byte) :
  current_str cl = Some s ->
  wf_line s ->
  cursor_ok cl ->
  call_defined f cl input ->
  match call f cl input with
  | Ret _ cl' _ _ => cursor_ok cl'
  | Exit _ _ _ _ => f = Fn.ll_terminate \/ f = Fn.ll_end_of_file
  | Blocked _ _ => f = Fn.ll_verbatim /\ input = []
  | Undefined => False
  end.
Proof.
  intros Hs Hwf Hok Hdef. pose proof (wf_line_no_nul s Hwf) as Hnn.
  destruct (keeps_kills cl s Hs Hnn Hok) as (Hfkl & Hbkl & Hfkw & Hbkw).
  destruct f; cbn [call call_defined] in *;
    try (match goal with
         | |- match pure ?g cl input with _ => _ end =>
             assert (Hk : keeps_cursor_ok g cl);
             [|pose proof (pure_keeps g cl input Hk) as Hp;
               destruct (pure g cl input); auto; contradiction]
         end).
  - eapply keeps_backward_char; eauto.
  - eapply keeps_forward_char; eauto.
  - eapply keeps_backward_word; eauto.
  - destruct Hdef as (s' & Hs' & Hlt).
    assert (s' = s) by congruence. subst s'.
    eapply keeps_forward_word; eauto.
  - eapply keeps_beginning_of_line; eauto.
  - eapply keeps_end_of_line; eauto.
  - apply keeps_previous_history; auto.
  - apply keeps_next_history; auto.
  - apply keeps_beginning_of_history; auto.
  - apply keeps_end_of_history.
  - pose proof (end_of_file_keeps cl s input Hs Hwf Hok) as He.
    destruct (ll_end_of_file cl input); auto; contradiction.
  - eapply delete_char_on_char; eauto.
  - eapply keeps_backward_delete_char; eauto.
  - exact Hfkl.
  - exact Hbkl.
  - exact Hfkw.
  - exact Hbkw.
  - eapply keeps_yank; eauto.
  - destruct Hdef as (Hfl & Hin).
    pose proof (verbatim_keeps cl s input Hs Hnn Hok Hfl Hin) as Hv.
    destruct (ll_verbatim cl input); auto; contradiction.
  - destruct (accept_line_keeps cl s input Hs Hnn Hok)
      as (cl' & out & -> & Hok'). exact Hok'.
  - rewrite terminate_exits. auto.
Qed.

Lemma cursor_stays_on_a_character_witness :
  match call (tgt := signed_char_target) Fn.ll_delete_char
             (typing [x68; xc3; xa9] 1) [] with
  | Ret _ cl' _ _ => cursor_ok cl'
  | Exit _ _ _ _ =>
      Fn.ll_delete_char = Fn.ll_terminate \/
      Fn.ll_delete_char = Fn.ll_end_of_file
  | Blocked _ _ => Fn.ll_delete_char = Fn.ll_verbatim /\ @nil byte = []
  | Undefined => False
  end.
Proof.
  apply (cursor_stays_on_a_character
           (tgt := signed_char_target) Fn.ll_delete_char
           (typing [x68; xc3; xa9] 1) [] [x68; xc3; xa9]).
  - reflexivity.
  - apply (wf_line_char x68 [] [xc3; xa9]);
      [discriminate|reflexivity|constructor|].
    apply (wf_line_char xc3 [xa9] []);
      [discriminate|reflexivity|repeat constructor|constructor].
  - exists [x68; xc3; xa9]. split; [reflexivity|].
    split; [vm_compute; split; discriminate|].
    intros _. exists xc3. split; reflexivity.
  - exact I.
Defined.

(** C2 as stated fails once the line is not well-formed.  Typing the
    bytes C3 A9 A9 (each inserted literally), then Home and Delete under
    the default bindings, leaves the line A9 with the cursor at 0, on a
    continuation byte; the Delete started from a state that satisfied the
    invariant. *)
Lemma cursor_on_continuation_counterexample :
  cursor_ok (typing [xc3; xa9; xa9] 0) /\
  ll_delete_char (typing [xc3; xa9; xa9] 0) = Some (0, typing [xa9] 0) /\
  (exists st out,
      ll_read (tgt := signed_char_target) [x3e] (cl_start 10)
              [xc3; xa9; xa9; x01; x1b; x5b; x33; x7e] = Blocked st out /\
      current st = PtrBuffer /\ buffer st = [xa9] /\ cursor st = 0) /\
  cursor (typing [xa9] 0) < strlen [xa9] /\
  c_at [xa9] (cursor (typing [xa9] 0)) = Some xa9 /\
  is_cont xa9 = true /\
  ~ cursor_ok (typing [xa9] 0).
Proof.
  split.
  { exists [xc3; xa9; xa9]. split; [reflexivity|].
    split; [vm_compute; split; discriminate|].
    intros _. exists xc3. split; reflexivity. }
  split; [reflexivity|].
  split.
  { eexists _, _. split; [vm_compute; reflexivity|]. repeat split. }
  split; [reflexivity|]. split; [reflexivity|]. split; [reflexivity|].
  intros (s & Hs & _ & Hb). injection Hs as <-.
  destruct Hb as (b & Hb & Hcont); [reflexivity|].
  injection Hb as <-. discriminate.
Qed.

(** ** The scenarios of the specification, run through [ll_read] *)

(** No default binding is a proper prefix of another, so the rule for a
    terminal node with children never comes into play. *)
Example default_terminals_are_leaves :
  terminals_are_leaves (fsm_root (ll_fsm_init LL_ANSI_KEY_BINDINGS)) = true.
Proof. vm_compute. reflexivity. Qed.

(** Three forward-char over [h], [e-acute], [l] end at offset 4. *)
Example forward_char_over_two_byte_character :
  exists st out,
    ll_read (tgt := signed_char_target) [x3e] (cl_start 10)
            ([x68; xc3; xa9; x6c; x6c; x6f; x01; x06; x06; x06]) =
      Blocked st out /\
    cursor st = 4.
Proof. eexists _, _. split; [vm_compute; reflexivity|reflexivity]. Qed.

(** Two backward-kill-word in a row: the second prepends. *)
Example backward_kill_word_twice :
  exists st out,
    ll_read (tgt := signed_char_target) [x3e] (cl_start 10)
            (bytes "foo bar baz" ++ [x17; x17]) = Blocked st out /\
    buffer st = bytes "foo " /\ clipboard st = bytes "bar baz".
Proof.
  eexists _, _. split; [vm_compute; reflexivity|split; reflexivity].
Qed.

(** Editing a history line pops it: after [x], Up, Up, Backspace the
    buffer holds [b] less its last character, the [x] is gone, the focus
    is back at the history's size and the history is untouched. *)
Example editing_a_history_line_pops :
  exists st out,
    ll_read (tgt := signed_char_target) [x3e] cl_abc
            ([x78; x1b; x5b; x41; x1b; x5b; x41; x7f]) = Blocked st out /\
    buffer st = [] /\ focus st = 3 /\ current st = PtrBuffer /\
    lines (history st) = [bytes "a"; bytes "b"; bytes "c"].
Proof.
  eexists _, _. split; [vm_compute; reflexivity|repeat split].
Qed.

(** An unbound byte rings no bell; a refused command rings one. *)
Example bell_on_refusal :
  handle_character (tgt := signed_char_target) (typing [] 0) [x06] =
    Ret 0 (set_last_command (typing [] 0) (Some Fn.ll_forward_char)) []
        [EvPutchar x07].
Proof. vm_compute. reflexivity. Qed.

(** * Further properties of the editor *)

(** ** What [handle_character] and [ll_read] can return *)

Lemma handle_character_return {tgt : Target}
      (cl cl' : ll_context) (input input' : list byte) (r : Z)
      (out : list event) :
  handle_character cl input = Ret r cl' input' out -> 0 <= r.
Proof.
  unfold handle_character. intros Hh.
  apply mbind_ret_inv in Hh.
  destruct Hh as ([retval buf] & cl1 & input1 & out1 & out2 & _ & Hh & _).
  destruct retval as [|func|].
  - repeat (apply mbind_ret_inv in Hh;
            destruct Hh as (? & ? & ? & ? & ? & _ & Hh & _)).
    injection Hh as <-. lia.
  - apply mbind_ret_inv in Hh.
    destruct Hh as (rv & cl2 & input2 & out3 & out4 & _ & Hh & _).
    apply mbind_ret_inv in Hh.
    destruct Hh as (? & cl3 & input3 & out5 & out6 & _ & Hh & _).
    destruct (Z.ltb_spec rv 0).
    + apply mbind_ret_inv in Hh.
      destruct Hh as (? & ? & ? & ? & ? & _ & Hh & _).
      injection Hh as <-. lia.
    + injection Hh as <-. lia.
  - repeat (apply mbind_ret_inv in Hh;
            destruct Hh as (? & ? & ? & ? & ? & _ & Hh & _)).
    injection Hh as <-. lia.
Qed.

Lemma read_loop_return {tgt : Target} (fuel : nat) :
  forall (cl cl' : ll_context) (input input' : list byte) (r : Z)
         (out : list event),
    read_loop fuel cl input = Ret r cl' input' out -> 0 < r.
Proof.
  induction fuel as [|fuel IH]; intros cl cl' input input' r out Hl;
    [discriminate|].
  cbn [read_loop] in Hl.
  apply mbind_ret_inv in Hl.
  destruct Hl as (? & cl1 & input1 & out1 & out2 & _ & Hl & _).
  apply mbind_ret_inv in Hl.
  destruct Hl as (rv & cl2 & input2 & out3 & out4 & Hh & Hl & _).
  apply handle_character_return in Hh.
  destruct (Z.eqb_spec rv 0).
  - eapply IH. exact Hl.
  - injection Hl as <-. lia.
Qed.

(** X1.  [ll_read] has a branch that returns NULL on a negative value, but
    [handle_character] turns every negative return of a command into 0:
    whenever [ll_read] returns, it returns the edit buffer. *)
Theorem ll_read_returns_the_buffer {tgt : Target}
        (prompt : list byte) (cl cl' : ll_context)
        (input input' : list byte) (res : option (list byte))
        (out : list event) :
  ll_read prompt cl input = Ret res cl' input' out ->
  res = Some (buffer cl').
Proof.
  unfold ll_read. intros Hr.
  do 10 (apply mbind_ret_inv in Hr;
         destruct Hr as (? & ? & ? & ? & ? & _ & Hr & _)).
  apply mbind_ret_inv in Hr.
  destruct Hr as (rv & cl1 & input1 & out1 & out2 & Hloop & Hr & _).
  apply read_loop_return in Hloop.
  do 2 (apply mbind_ret_inv in Hr;
        destruct Hr as (? & ? & ? & ? & ? & _ & Hr & _)).
  destruct (Z.ltb_spec rv 0); [lia|].
  apply mbind_ret_inv in Hr.
  destruct Hr as (b & cl2 & input2 & out3 & out4 & Hb & Hr & _).
  injection Hb as <- <- _ _. injection Hr as <- <- _ _. reflexivity.
Qed.

Lemma typed_a_run :
  ll_read (tgt := signed_char_target) [x3e] (cl_start 10) [x61; x0a] =
    typed_a.
Proof. vm_compute. reflexivity. Qed.

Lemma ll_read_returns_the_buffer_witness :
  exists cl' input' out,
    ll_read (tgt := signed_char_target) [x3e] (cl_start 10) [x61; x0a] =
      Ret (Some [x61]) cl' input' out /\
    Some [x61] = Some (buffer cl').
Proof.
  eexists _, _, _. split; [rewrite typed_a_run; reflexivity|].
  eapply (ll_read_returns_the_buffer (tgt := signed_char_target)).
  rewrite typed_a_run. reflexivity.
Defined.

(** ** The scanning loops move the cursor and nothing else *)

Lemma forward_char_loop_sound (fuel : nat) :
  forall cl cl1 : ll_context,
    forward_char_loop fuel cl = Some cl1 ->
    exists c', cl1 = set_cursor cl c'.
Proof.
  induction fuel as [|fuel IH]; intros cl cl1 Hl; [discriminate|].
  cbn [forward_char_loop] in Hl. autorewrite with ctx in Hl.
  destruct (current_at cl (cursor cl + 1)) as [b|]; [|discriminate].
  cbn [obind] in Hl. destruct (is_cont b).
  - apply IH in Hl. destruct Hl as (c' & ->). exists c'. reflexivity.
  - injection Hl as <-. eexists. reflexivity.
Qed.

Lemma forward_while_sound (P : Z -> bool) (fuel : nat) :
  forall cl cl1 : ll_context,
    forward_while P fuel cl = Some cl1 ->
    exists c', cl1 = set_cursor cl c'.
Proof.
  induction fuel as [|fuel IH]; intros cl cl1 Hl; [discriminate|].
  cbn [forward_while] in Hl.
  destruct (current_at cl (cursor cl)) as [b|]; [|discriminate].
  cbn [obind] in Hl. destruct (negb (Byte.eqb b x00) && P (byte_val b)).
  - apply IH in Hl. destruct Hl as (c' & ->). exists c'. reflexivity.
  - injection Hl as <-. exists (cursor cl). symmetry. apply set_cursor_same.
Qed.

Lemma backward_while_sound (P : Z -> bool) (fuel : nat) :
  forall cl cl1 : ll_context,
    backward_while P fuel cl = Some cl1 ->
    exists c', cl1 = set_cursor cl c'.
Proof.
  induction fuel as [|fuel IH]; intros cl cl1 Hl; [discriminate|].
  cbn [backward_while] in Hl.
  destruct (cursor cl >=? 0).
  - destruct (current_at cl (cursor cl)) as [b|]; [|discriminate].
    cbn [obind] in Hl. destruct (P (byte_val b)).
    + apply IH in Hl. destruct Hl as (c' & ->). exists c'. reflexivity.
    + injection Hl as <-. exists (cursor cl). symmetry.
      apply set_cursor_same.
  - injection Hl as <-. exists (cursor cl). symmetry. apply set_cursor_same.
Qed.

(** A motion that returns has changed at most the cursor. *)
Lemma motion_sound (g : ll_context -> option (Z * ll_context))
      (cl cl' : ll_context) (r : Z) :
  In g [ ll_backward_char; ll_forward_char; ll_backward_word;
         ll_forward_word; ll_beginning_of_line; ll_end_of_line ] ->
  g cl = Some (r, cl') ->
  exists c', cl' = set_cursor cl c'.
Proof.
  intros Hin Hg.
  assert (Hsame : exists c', cl = set_cursor cl c')
    by (exists (cursor cl); symmetry; apply set_cursor_same).
  repeat (destruct Hin as [<-|Hin]); [..|contradiction].
  - unfold ll_backward_char in Hg. destruct (cursor cl =? 0).
    + injection Hg as _ <-. exact Hsame.
    + destruct (backward_char_loop _ cl) as [cl1|] eqn:Hl; [|discriminate].
      injection Hg as _ <-. apply backward_char_loop_sound in Hl.
      destruct Hl as (c' & -> & _). eauto.
  - unfold ll_forward_char in Hg.
    destruct (current_at cl (cursor cl)) as [b|]; [|discriminate].
    cbn [obind] in Hg. destruct (Byte.eqb b x00).
    + injection Hg as _ <-. exact Hsame.
    + destruct (current_str cl) as [s|]; [|discriminate]. cbn [obind] in Hg.
      destruct (forward_char_loop _ cl) as [cl1|] eqn:Hl; [|discriminate].
      injection Hg as _ <-. eapply forward_char_loop_sound, Hl.
  - unfold ll_backward_word in Hg. destruct (cursor cl =? 0).
    + injection Hg as _ <-. exact Hsame.
    + cbv zeta in Hg.
      destruct (backward_while _ _ _) as [cl1|] eqn:Hl1; [|discriminate].
      cbn [obind] in Hg.
      destruct (backward_while isalnum _ cl1) as [cl2|] eqn:Hl2;
        [|discriminate].
      injection Hg as _ <-.
      apply backward_while_sound in Hl1, Hl2.
      destruct Hl1 as (c1 & ->). destruct Hl2 as (c2 & ->).
      eexists. reflexivity.
  - unfold ll_forward_word in Hg.
    destruct (current_at cl (cursor cl + 1)) as [b|]; [|discriminate].
    cbn [obind] in Hg. destruct (Byte.eqb b x00).
    + injection Hg as _ <-. exact Hsame.
    + destruct (current_str cl) as [s|]; [|discriminate]. cbn [obind] in Hg.
      cbv zeta in Hg.
      destruct (forward_while _ _ cl) as [cl1|] eqn:Hl1; [|discriminate].
      cbn [obind] in Hg.
      destruct (forward_while isalnum _ cl1) as [cl2|] eqn:Hl2;
        [|discriminate].
      cbn [obind] in Hg.
      destruct (forward_while _ _ cl2) as [cl3|] eqn:Hl3; [|discriminate].
      injection Hg as _ <-.
      apply forward_while_sound in Hl1, Hl2, Hl3.
      destruct Hl1 as (c1 & ->). destruct Hl2 as (c2 & ->).
      destruct Hl3 as (c3 & ->). eexists. reflexivity.
  - injection Hg as _ <-. eexists. reflexivity.
  - unfold ll_end_of_line in Hg.
    destruct (current_len cl); [|discriminate].
    injection Hg as _ <-. eexists. reflexivity.
Qed.

(** A history command that returns has changed at most focus, current
    and cursor. *)
Lemma history_nav_sound (g : ll_context -> option (Z * ll_context))
      (cl cl' : ll_context) (r : Z) :
  In g [ ll_previous_history; ll_next_history;
         ll_beginning_of_history; ll_end_of_history ] ->
  g cl = Some (r, cl') ->
  exists fo cur c',
    cl' = set_cursor (set_current (set_focus cl fo) cur) c'.
Proof.
  intros Hin Hg.
  assert (Hsame : exists fo cur c',
             cl = set_cursor (set_current (set_focus cl fo) cur) c')
    by (exists (focus cl), (current cl), (cursor cl); destruct cl;
        reflexivity).
  repeat (destruct Hin as [<-|Hin]); [..|contradiction].
  - unfold ll_previous_history in Hg. cbv zeta in Hg.
    destruct (focus cl =? 0); [injection Hg as _ <-; exact Hsame|].
    destruct (ll_history_index _ _) as [i|]; [|discriminate].
    cbn [obind] in Hg. destruct (current_len _) as [n|]; [|discriminate].
    injection Hg as _ <-. eexists _, _, _. reflexivity.
  - unfold ll_next_history in Hg. cbv zeta in Hg.
    destruct (focus cl =? history_size (history cl));
      [injection Hg as _ <-; exact Hsame|].
    destruct (focus (set_focus cl (focus cl + 1)) =? _).
    + cbn [obind] in Hg. destruct (current_len _) as [n|]; [|discriminate].
      injection Hg as _ <-. eexists _, _, _. reflexivity.
    + destruct (ll_history_index _ _) as [i|]; [|discriminate].
      cbn [obind] in Hg. destruct (current_len _) as [n|]; [|discriminate].
      injection Hg as _ <-. eexists _, _, _. reflexivity.
  - unfold ll_beginning_of_history in Hg. cbv zeta in Hg.
    destruct (ll_history_index _ _) as [i|]; [|discriminate].
    cbn [obind] in Hg. destruct (current_len _) as [n|]; [|discriminate].
    injection Hg as _ <-. eexists _, _, _. reflexivity.
  - unfold ll_end_of_history in Hg. cbv zeta in Hg.
    destruct (current_len _) as [n|]; [|discriminate].
    injection Hg as _ <-. eexists _, _, _. reflexivity.
Qed.



(** ** Editing pops first and never writes the history *)

Lemma edit_footprint_refl (cl : ll_context) : edit_footprint cl cl.
Proof. split; auto. Qed.

Lemma edit_footprint_cursor (cl : ll_context) (c : Z) :
  edit_footprint cl (set_cursor cl c).
Proof. split; auto. Qed.

(** Whatever happens after [pop_line], as long as it keeps the history and
    the focus and stays on the edit buffer, the footprint is that of an
    edit. *)
Lemma edit_footprint_after_pop (cl cl1 cl' : ll_context) (r : Z) :
  pop_line cl = Some (r, cl1) ->
  history cl' = history cl1 -> focus cl' = focus cl1 ->
  current cl' = PtrBuffer ->
  edit_footprint cl cl'.
Proof.
  unfold pop_line, edit_footprint. intros Hp Hh Hf Hc.
  destruct (current cl) eqn:Hcur.
  - injection Hp as _ <-. rewrite Hh, Hf, Hc. auto.
  - destruct (current_str cl) as [s|]; [|discriminate]. cbn [obind] in Hp.
    destruct (c_slice s 0 (strlen s)); [|discriminate].
    injection Hp as _ <-. rewrite Hh, Hf, Hc. cbn. auto.
Qed.

Lemma insert_str_footprint (cl cl' : ll_context) (str : list byte) (r : Z) :
  insert_str cl str = Some (r, cl') -> edit_footprint cl cl'.
Proof.
  unfold insert_str. intros Hi.
  destruct (pop_line cl) as [[r1 cl1]|] eqn:Hp; [|discriminate].
  cbn [obind] in Hi.
  destruct (ll_buf_insert _ _ _) as [b|]; [|discriminate].
  injection Hi as _ <-. eapply edit_footprint_after_pop; eauto.
Qed.

Lemma ll_delete_char_footprint (cl cl' : ll_context) (r : Z) :
  ll_delete_char cl = Some (r, cl') -> edit_footprint cl cl'.
Proof.
  unfold ll_delete_char. intros Hd.
  destruct (current_at cl (cursor cl)) as [b|]; [|discriminate].
  cbn [obind] in Hd. destruct (Byte.eqb b x00).
  { injection Hd as _ <-. apply edit_footprint_refl. }
  destruct (pop_line cl) as [[r1 cl1]|] eqn:Hp; [|discriminate].
  cbn [obind] in Hd.
  destruct (current_at cl1 (cursor cl1)) as [b1|]; [|discriminate].
  cbn [obind] in Hd.
  match type of Hd with
  | obind ?e _ = _ => destruct e as [buf|]; [|discriminate]
  end.
  injection Hd as _ <-. eapply edit_footprint_after_pop; eauto.
Qed.

Lemma edit_footprint_trans (a b c : ll_context) :
  edit_footprint a b -> edit_footprint b c -> edit_footprint a c.
Proof.
  unfold edit_footprint. intros (Hh1 & Hv1) (Hh2 & Hv2).
  split; [congruence|].
  destruct Hv1 as [(Hf1 & Hc1)|(Hc1 & Hf1)];
    destruct Hv2 as [(Hf2 & Hc2)|(Hc2 & Hf2)].
  - left. split; congruence.
  - right. split; congruence.
  - right. split; congruence.
  - right. split; congruence.
Qed.

Lemma ll_backward_delete_char_footprint (cl cl' : ll_context) (r : Z) :
  ll_backward_delete_char cl = Some (r, cl') -> edit_footprint cl cl'.
Proof.
  unfold ll_backward_delete_char. intros Hd.
  destruct (ll_backward_char cl) as [[r1 cl1]|] eqn:Hb; [|discriminate].
  cbn [obind] in Hd.
  apply motion_sound in Hb; [|cbn [In]; tauto]. destruct Hb as (c' & ->).
  destruct (negb (r1 =? 0)).
  { injection Hd as _ <-. apply edit_footprint_cursor. }
  destruct (ll_delete_char _) as [[r2 cl2]|] eqn:Hdel; [|discriminate].
  cbn [obind] in Hd.
  apply ll_delete_char_footprint in Hdel.
  assert (cl' = cl2) by (destruct (negb (r2 =? 0)); congruence). subst cl'.
  eapply edit_footprint_trans; [apply edit_footprint_cursor|exact Hdel].
Qed.

Lemma kill_footprint (cl cl' : ll_context) (r : Z) :
  ll_forward_kill_line cl = Some (r, cl') \/
  ll_backward_kill_line cl = Some (r, cl') \/
  ll_forward_kill_word cl = Some (r, cl') \/
  ll_backward_kill_word cl = Some (r, cl') ->
  edit_footprint cl cl'.
Proof.
  intros [Hk|[Hk|[Hk|Hk]]].
  - unfold ll_forward_kill_line in Hk.
    destruct (current_at cl (cursor cl)) as [b|]; [|discriminate].
    cbn [obind] in Hk. destruct (Byte.eqb b x00).
    { injection Hk as _ <-. apply edit_footprint_refl. }
    destruct (pop_line cl) as [[r1 cl1]|] eqn:Hp; [|discriminate].
    cbn [obind] in Hk. cbv zeta in Hk.
    destruct (c_slice _ _ _) as [killed|]; [|discriminate].
    cbn [obind] in Hk.
    rewrite (clipboard_forward Fn.ll_forward_kill_line) in Hk by auto.
    destruct (ll_buf_erase _ _ _) as [buf|]; [|discriminate].
    injection Hk as _ <-. eapply edit_footprint_after_pop; eauto.
  - unfold ll_backward_kill_line in Hk.
    destruct (cursor cl =? 0).
    { injection Hk as _ <-. apply edit_footprint_refl. }
    destruct (pop_line cl) as [[r1 cl1]|] eqn:Hp; [|discriminate].
    cbn [obind] in Hk.
    destruct (c_slice _ _ _) as [killed|]; [|discriminate].
    cbn [obind] in Hk. cbv zeta in Hk.
    rewrite (clipboard_backward Fn.ll_backward_kill_line) in Hk by auto.
    destruct (ll_buf_erase _ _ _) as [buf|]; [|discriminate].
    injection Hk as _ <-. eapply edit_footprint_after_pop; eauto.
  - unfold ll_forward_kill_word in Hk.
    destruct (current_at cl (cursor cl)) as [b|]; [|discriminate].
    cbn [obind] in Hk. destruct (Byte.eqb b x00).
    { injection Hk as _ <-. apply edit_footprint_refl. }
    destruct (pop_line cl) as [[r1 cl1]|] eqn:Hp; [|discriminate].
    cbn [obind] in Hk. cbv zeta in Hk.
    destruct (ll_forward_word cl1) as [[r2 cl2]|] eqn:Hw; [|discriminate].
    cbn [obind] in Hk.
    apply motion_sound in Hw; [|cbn [In]; tauto]. destruct Hw as (e & ->).
    destruct (c_slice _ _ _) as [killed|]; [|discriminate].
    cbn [obind] in Hk.
    rewrite (clipboard_forward Fn.ll_forward_kill_word) in Hk by auto.
    destruct (ll_buf_erase _ _ _) as [buf|]; [|discriminate].
    injection Hk as _ <-. eapply edit_footprint_after_pop; eauto.
  - unfold ll_backward_kill_word in Hk.
    destruct (cursor cl =? 0).
    { injection Hk as _ <-. apply edit_footprint_refl. }
    destruct (pop_line cl) as [[r1 cl1]|] eqn:Hp; [|discriminate].
    cbn [obind] in Hk. cbv zeta in Hk.
    destruct (ll_backward_word cl1) as [[r2 cl2]|] eqn:Hw; [|discriminate].
    cbn [obind] in Hk.
    apply motion_sound in Hw; [|cbn [In]; tauto]. destruct Hw as (e & ->).
    destruct (c_slice _ _ _) as [killed|]; [|discriminate].
    cbn [obind] in Hk.
    rewrite (clipboard_backward Fn.ll_backward_kill_word) in Hk by auto.
    destruct (ll_buf_erase _ _ _) as [buf|]; [|discriminate].
    injection Hk as _ <-. eapply edit_footprint_after_pop; eauto.
Qed.

Lemma ll_yank_footprint (cl cl' : ll_context) (r : Z) :
  ll_yank cl = Some (r, cl') -> edit_footprint cl cl'.
Proof.
  unfold ll_yank. intros Hy.
  destruct (negb (buf_len (clipboard cl) =? 0)).
  - destruct (insert_str cl (clipboard cl)) as [[r1 cl1]|] eqn:Hi;
      [|discriminate].
    injection Hy as _ <-. eapply insert_str_footprint, Hi.
  - injection Hy as _ <-. apply edit_footprint_refl.
Qed.

Lemma edit_footprint_view (cl cl' : ll_context) :
  edit_footprint cl cl' -> view_ok cl -> view_ok cl'.
Proof.
  unfold edit_footprint, view_ok.
  intros (Hh & [(Hf & Hc)|(Hc & Hf)]) Hv; rewrite Hc, Hf, Hh; auto.
Qed.

Lemma history_index_inv (h : ll_history) (i : Z) (n : nat) :
  ll_history_index h i = Some n ->
  i = Z.of_nat n /\ Z.of_nat n < history_size h.
Proof.
  unfold ll_history_index.
  destruct (Z.leb_spec 0 i); [|discriminate].
  destruct (Z.ltb_spec i (history_size h)); [|discriminate].
  intros [= <-]. lia.
Qed.

Lemma history_nav_view (g : ll_context -> option (Z * ll_context))
      (cl cl' : ll_context) (r : Z) :
  In g [ ll_previous_history; ll_next_history;
         ll_beginning_of_history; ll_end_of_history ] ->
  view_ok cl -> g cl = Some (r, cl') -> view_ok cl'.
Proof.
  intros Hin Hv Hg.
  repeat (destruct Hin as [<-|Hin]); [..|contradiction].
  - unfold ll_previous_history in Hg. cbv zeta in Hg.
    destruct (focus cl =? 0); [injection Hg as _ <-; exact Hv|].
    destruct (ll_history_index _ _) as [i|] eqn:Hi; [|discriminate].
    cbn [obind] in Hg. destruct (current_len _) as [n|]; [|discriminate].
    injection Hg as _ <-. apply history_index_inv in Hi.
    unfold view_ok. cbn in *. exact Hi.
  - unfold ll_next_history in Hg. cbv zeta in Hg.
    destruct (focus cl =? history_size (history cl));
      [injection Hg as _ <-; exact Hv|].
    destruct (Z.eqb_spec (focus (set_focus cl (focus cl + 1)))
                (history_size (history (set_focus cl (focus cl + 1)))))
      as [E|E].
    + cbn [obind] in Hg. destruct (current_len _) as [n|]; [|discriminate].
      injection Hg as _ <-. unfold view_ok. cbn in *. exact E.
    + destruct (ll_history_index _ _) as [i|] eqn:Hi; [|discriminate].
      cbn [obind] in Hg. destruct (current_len _) as [n|]; [|discriminate].
      injection Hg as _ <-. apply history_index_inv in Hi.
      unfold view_ok. cbn in *. exact Hi.
  - unfold ll_beginning_of_history in Hg. cbv zeta in Hg.
    destruct (ll_history_index _ _) as [i|] eqn:Hi; [|discriminate].
    cbn [obind] in Hg. destruct (current_len _) as [n|]; [|discriminate].
    injection Hg as _ <-. apply history_index_inv in Hi.
    unfold view_ok. cbn in *. exact Hi.
  - unfold ll_end_of_history in Hg. cbv zeta in Hg.
    destruct (current_len _) as [n|]; [|discriminate].
    injection Hg as _ <-. reflexivity.
Qed.

Lemma reprint_frame {tgt : Target} (cl cl' : ll_context)
      (input input' : list byte) (out : list event) :
  reprint cl input = Ret tt cl' input' out ->
  (exists fc fl, cl' = set_fmt cl fc fl) /\ input' = input.
Proof.
  unfold reprint. rewrite reprint_line_eq.
  destruct (current_str cl) as [s|]; [|discriminate]. cbn [obind].
  destruct (reprint_loop _ _ _ _ _) as [[clL body]|]; [|discriminate].
  cbn [obind]. destruct (fmt_len cl <? 0); [discriminate|]. cbv zeta.
  intros [= <- <- _]. split; [eauto|reflexivity].
Qed.

(** Every command but accept-line: where a call ends (it returns, leaves
    the process, or waits for a key), the history is the one it started
    with, and a consistent view stays consistent. *)
Lemma command_footprint {tgt : Target}
      (f : Fn.t) (cl cl' : ll_context) (input : list byte) :
  f <> Fn.ll_accept_line ->
  final_state (call f cl input) = Some cl' ->
  history cl' = history cl /\ (view_ok cl -> view_ok cl').
Proof.
  intros Hf Hfin.
  assert (Hedit : forall g,
             call f = pure g ->
             (forall r cl1, g cl = Some (r, cl1) -> edit_footprint cl cl1) ->
             history cl' = history cl /\ (view_ok cl -> view_ok cl')).
  { intros g Hg Hfoot. rewrite Hg in Hfin. unfold pure in Hfin.
    destruct (g cl) as [[r cl1]|] eqn:E; [|discriminate].
    injection Hfin as <-. specialize (Hfoot _ _ eq_refl).
    split; [apply Hfoot|]. apply edit_footprint_view, Hfoot. }
  assert (Hmotion : forall g,
             call f = pure g ->
             In g [ ll_backward_char; ll_forward_char; ll_backward_word;
                    ll_forward_word; ll_beginning_of_line; ll_end_of_line ] ->
             history cl' = history cl /\ (view_ok cl -> view_ok cl')).
  { intros g Hg Hin. apply (Hedit g Hg). intros r cl1 E.
    apply motion_sound in E; [|exact Hin]. destruct E as (c' & ->).
    apply edit_footprint_cursor. }
  assert (Hnav : forall g,
             call f = pure g ->
             In g [ ll_previous_history; ll_next_history;
                    ll_beginning_of_history; ll_end_of_history ] ->
             history cl' = history cl /\ (view_ok cl -> view_ok cl')).
  { intros g Hg Hin. rewrite Hg in Hfin. unfold pure in Hfin.
    destruct (g cl) as [[r cl1]|] eqn:E; [|discriminate].
    injection Hfin as <-. split.
    - apply history_nav_sound in E; [|exact Hin].
      destruct E as (fo & cur & c' & ->). reflexivity.
    - intros Hv. eapply history_nav_view; eauto. }
  destruct f; try contradiction;
    try (eapply Hmotion; [reflexivity|cbn [In]; tauto]);
    try (eapply Hnav; [reflexivity|cbn [In]; tauto]).
  - (* end of file *)
    cbn [call] in Hfin. unfold ll_end_of_file, mbind, pure in Hfin.
    destruct (current_len cl) as [n|]; [|discriminate]. cbn [obind] in Hfin.
    destruct (n =? 0).
    + rewrite terminate_exits in Hfin. injection Hfin as <-. auto.
    + destruct (ll_delete_char cl) as [[r cl1]|] eqn:E; [|discriminate].
      injection Hfin as <-. apply ll_delete_char_footprint in E.
      split; [apply E|]. apply edit_footprint_view, E.
  - eapply Hedit; [reflexivity|]. intros; eapply ll_delete_char_footprint; eauto.
  - eapply Hedit; [reflexivity|]. intros; eapply ll_backward_delete_char_footprint; eauto.
  - eapply Hedit; [reflexivity|]. intros; eapply kill_footprint; eauto.
  - eapply Hedit; [reflexivity|]. intros; eapply kill_footprint; eauto.
  - eapply Hedit; [reflexivity|]. intros; eapply kill_footprint; eauto.
  - eapply Hedit; [reflexivity|]. intros; eapply kill_footprint; eauto 6.
  - eapply Hedit; [reflexivity|]. intros; eapply ll_yank_footprint; eauto.
  - (* verbatim *)
    cbn [call] in Hfin. unfold ll_verbatim, mbind at 1 in Hfin.
    destruct (reprint cl input) as [[] cl1 input1 out1| | |] eqn:Hr;
      try discriminate;
      try (unfold reprint in Hr;
           destruct (reprint_line cl) as [[? ?]|]; discriminate).
    apply reprint_frame in Hr. destruct Hr as ((fc & fl & ->) & ->).
    unfold mbind at 1, keyboard_get in Hfin.
    destruct input as [|c input].
    { injection Hfin as <-. auto. }
    unfold mbind, pure in Hfin.
    destruct (insert_char (set_fmt cl fc fl) c) as [[r cl2]|] eqn:E;
      [|discriminate].
    injection Hfin as <-.
    change (insert_char (set_fmt cl fc fl) c)
      with (insert_str (set_fmt cl fc fl) [c]) in E.
    apply insert_str_footprint in E.
    split; [apply E|]. intros Hv. eapply edit_footprint_view; eauto.
  - rewrite terminate_exits in Hfin. injection Hfin as <-. auto.
Qed.

(** X3.  Only accept-line writes the history: wherever a call of any other
    command ends (it returns, leaves the process, or waits for a key), the
    history is the one the call started with. In particular editing a
    history line on display never changes the history. *)
Theorem history_written_only_by_accept_line {tgt : Target}
        (f : Fn.t) (cl cl' : ll_context) (input : list byte) :
  f <> Fn.ll_accept_line ->
  final_state (call f cl input) = Some cl' ->
  history cl' = history cl.
Proof. intros Hf Hfin. eapply command_footprint; eauto. Qed.

Lemma history_written_only_by_accept_line_witness :
  history (set_current
             (set_buffer
                (popped (set_cursor (viewing [bytes "abc"] 0 (bytes "x")) 2)
                        (bytes "abc"))
                (bytes "ab"))
             PtrBuffer) =
  history (set_cursor (viewing [bytes "abc"] 0 (bytes "x")) 2).
Proof.
  apply (history_written_only_by_accept_line
           (tgt := signed_char_target) Fn.ll_delete_char
           (set_cursor (viewing [bytes "abc"] 0 (bytes "x")) 2)
           (set_current
              (set_buffer
                 (popped (set_cursor (viewing [bytes "abc"] 0 (bytes "x")) 2)
                         (bytes "abc"))
                 (bytes "ab"))
              PtrBuffer) []).
  - discriminate.
  - vm_compute. reflexivity.
Defined.

(** X4.  The read loop's invariant. When [handle_character] returns 0, so
    that the loop goes on, a consistent view has stayed consistent (the
    edit buffer is on display exactly when [focus] is the history's size,
    otherwise line [focus] of the history is) and the history is
    unchanged. *)
Theorem handle_character_keeps_view {tgt : Target}
        (cl cl' : ll_context) (input input' : list byte)
        (out : list event) :
  view_ok cl ->
  handle_character cl input = Ret 0 cl' input' out ->
  view_ok cl' /\ history cl' = history cl.
Proof.
  intros Hv Hh. unfold handle_character in Hh.
  apply mbind_ret_inv in Hh.
  destruct Hh as ([retval buf] & cl1 & input1 & out1 & out2 & Hseq & Hh & _).
  apply read_sequence_frame in Hseq. destruct Hseq as (m & ->).
  assert (Hins : forall (cl2 : ll_context) (r : Z),
             insert_str (set_bindings cl m) buf = Some (r, cl2) ->
             view_ok (set_last_command cl2 None) /\
             history (set_last_command cl2 None) = history cl).
  { intros cl2 r E. apply insert_str_footprint in E. split.
    - apply (edit_footprint_view (set_bindings cl m)); [|exact Hv].
      exact E.
    - apply E. }
  destruct retval as [|func|].
  - apply mbind_ret_inv in Hh.
    destruct Hh as (? & cl2 & ? & ? & ? & Hp & Hh & _).
    apply pure_ret_inv in Hp. destruct Hp as (Hp & _ & _).
    apply mbind_ret_inv in Hh.
    destruct Hh as (? & cl3 & ? & ? & ? & Hm & Hh & _).
    injection Hm as _ <- _ _. injection Hh as <- _ _. eapply Hins; eauto.
  - apply mbind_ret_inv in Hh.
    destruct Hh as (rv & cl2 & input2 & out3 & out4 & Hcall & Hh & _).
    apply mbind_ret_inv in Hh.
    destruct Hh as (? & cl3 & ? & ? & ? & Hm & Hh & _).
    injection Hm as _ <- _ _.
    assert (Hrv : rv <= 0).
    { destruct (Z.ltb_spec rv 0); [lia|]. injection Hh as -> _ _ _. lia. }
    assert (Hf : func <> Fn.ll_accept_line).
    { intros ->. cbn [call] in Hcall. unfold ll_accept_line in Hcall.
      repeat (apply mbind_ret_inv in Hcall;
              destruct Hcall as (? & ? & ? & ? & ? & _ & Hcall & _)).
      injection Hcall as <-. lia. }
    destruct (command_footprint func (set_bindings cl m) cl2 input1 Hf)
      as (Hhist & Hview); [rewrite Hcall; reflexivity|].
    assert (cl' = set_last_command cl2 (Some func)).
    { destruct (rv <? 0).
      - apply mbind_ret_inv in Hh.
        destruct Hh as (? & ? & ? & ? & ? & Hp & Hh & _).
        injection Hp as _ <- _ _. injection Hh as <- _ _. reflexivity.
      - injection Hh as _ <- _ _. reflexivity. }
    subst cl'. split; [exact (Hview Hv)|exact Hhist].
  - apply mbind_ret_inv in Hh.
    destruct Hh as (? & cl2 & ? & ? & ? & Hp & Hh & _).
    apply pure_ret_inv in Hp. destruct Hp as (Hp & _ & _).
    apply mbind_ret_inv in Hh.
    destruct Hh as (? & cl3 & ? & ? & ? & Hm & Hh & _).
    injection Hm as _ <- _ _. injection Hh as <- _ _. eapply Hins; eauto.
Qed.

Lemma handle_character_keeps_view_witness :
  view_ok (set_last_command
             (set_cursor
                (set_current (set_buffer (typing [] 0) [x61]) PtrBuffer) 1)
             None) /\
  history (set_last_command
             (set_cursor
                (set_current (set_buffer (typing [] 0) [x61]) PtrBuffer) 1)
             None) = history (typing [] 0).
Proof.
  apply (handle_character_keeps_view
           (tgt := signed_char_target) (typing [] 0)
           (set_last_command
              (set_cursor
                 (set_current (set_buffer (typing [] 0) [x61]) PtrBuffer) 1)
              None)
           [x61] [] []).
  - vm_compute. reflexivity.
  - vm_compute. reflexivity.
Defined.

(** ** Up and Down *)

Lemma view_ok_focus (cl : ll_context) :
  view_ok cl -> 0 <= focus cl <= history_size (history cl).
Proof.
  unfold view_ok, history_size. destruct (current cl); lia.
Qed.

Lemma view_ok_line (cl : ll_context) (s : list byte) :
  view_ok cl -> current_str cl = Some s ->
  (focus cl = history_size (history cl) /\ current cl = PtrBuffer /\
   s = buffer cl) \/
  (focus cl < history_size (history cl) /\
   current cl = PtrHistory (Z.to_nat (focus cl)) /\
   nth_error (lines (history cl)) (Z.to_nat (focus cl)) = Some s).
Proof.
  unfold view_ok, current_str. destruct (current cl) as [|i].
  - intros Hf [= <-]. left. auto.
  - intros (Hf & Hlt) Hs. right. rewrite Hf, Nat2Z.id. auto.
Qed.

(** X5.  History navigation is a round trip on a consistent view: Up then
    Down (when there is a line above) and Down then Up (when there is one
    below) both return 0 and show the line they started from, with the
    cursor at its end and everything else as it was. *)
Theorem history_navigation_round_trip (cl : ll_context) (s : list byte) :
  view_ok cl ->
  current_str cl = Some s ->
  (0 < focus cl ->
   exists cl1,
     ll_previous_history cl = Some (0, cl1) /\
     ll_next_history cl1 = Some (0, set_cursor cl (strlen s))) /\
  (focus cl < history_size (history cl) ->
   exists cl1,
     ll_next_history cl = Some (0, cl1) /\
     ll_previous_history cl1 = Some (0, set_cursor cl (strlen s))).
Proof.
  intros Hv Hs. pose proof (view_ok_focus cl Hv) as Hf.
  assert (Hback : forall fo c cur,
             set_cursor
               (set_current (set_focus (set_cursor (set_current
                  (set_focus cl fo) cur) c) (focus cl)) (current cl))
               (strlen s) = set_cursor cl (strlen s))
    by (intros; destruct cl; reflexivity).
  split; intros Hb.
  - unfold ll_previous_history. cbv zeta. cbn [focus history set_focus].
    destruct (Z.eqb_spec (focus cl) 0); [lia|].
    destruct (history_index_line (history cl) (focus cl - 1))
      as (l & -> & Hl); [lia|].
    cbn [obind]. unfold current_len at 1, current_str at 1.
    cbn [current history set_current set_focus]. rewrite Hl. cbn [obind].
    eexists. split; [reflexivity|].
    unfold ll_next_history. cbv zeta.
    cbn [focus history set_focus set_current set_cursor].
    destruct (Z.eqb_spec (focus cl - 1) (history_size (history cl))); [lia|].
    replace (focus cl - 1 + 1) with (focus cl) by lia.
    destruct (view_ok_line cl s Hv Hs) as [(E & Hc & Hbuf)|(E & Hc & Hn)].
    + destruct (Z.eqb_spec (focus cl) (history_size (history cl))); [|lia].
      cbn [obind]. unfold current_len, current_str. cbn.
      rewrite <- Hbuf. f_equal. f_equal. rewrite <- Hc. apply Hback.
    + destruct (Z.eqb_spec (focus cl) (history_size (history cl))); [lia|].
      destruct (history_index_line (history cl) (focus cl))
        as (l' & -> & Hl'); [lia|].
      cbn [obind]. unfold current_len, current_str. cbn.
      rewrite Hn. cbn [obind]. f_equal. f_equal. rewrite <- Hc. apply Hback.
  - destruct (view_ok_line cl s Hv Hs) as [(E & Hc & Hbuf)|(E & Hc & Hn)];
      [lia|].
    unfold ll_next_history. cbv zeta. cbn [focus history set_focus].
    destruct (Z.eqb_spec (focus cl) (history_size (history cl))); [lia|].
    assert (Hnext : exists cl1 l,
               (if focus cl + 1 =? history_size (history cl)
                then Some (set_current (set_focus cl (focus cl + 1)) PtrBuffer)
                else i <- ll_history_index (history cl) (focus cl + 1) ;;
                     Some (set_current (set_focus cl (focus cl + 1))
                                       (PtrHistory i))) = Some cl1 /\
               current_str cl1 = Some l /\
               exists cur, cl1 = set_current (set_focus cl (focus cl + 1)) cur).
    { destruct (Z.eqb_spec (focus cl + 1) (history_size (history cl))).
      - eexists _, _. split; [reflexivity|]. split; [reflexivity|eauto].
      - destruct (history_index_line (history cl) (focus cl + 1))
          as (l & -> & Hl); [lia|].
        cbn [obind]. eexists _, l. split; [reflexivity|].
        split; [exact Hl|eauto]. }
    destruct Hnext as (cl1 & l & -> & Hl & cur & ->). cbn [obind].
    rewrite (current_len_str _ _ Hl). cbn [obind].
    eexists. split; [reflexivity|].
    unfold ll_previous_history. cbv zeta.
    cbn [focus history set_focus set_current set_cursor].
    destruct (Z.eqb_spec (focus cl + 1) 0); [lia|].
    replace (focus cl + 1 - 1) with (focus cl) by lia.
    destruct (history_index_line (history cl) (focus cl))
      as (l' & -> & Hl'); [lia|].
    cbn [obind]. unfold current_len, current_str. cbn.
    rewrite Hn. cbn [obind]. f_equal. f_equal. rewrite <- Hc. apply Hback.
Qed.

Lemma history_navigation_round_trip_witness :
  exists cl1,
    ll_previous_history
      (viewing [bytes "a"; bytes "b"; bytes "c"] 1 (bytes "x")) =
      Some (0, cl1) /\
    ll_next_history cl1 =
      Some (0, set_cursor
                 (viewing [bytes "a"; bytes "b"; bytes "c"] 1 (bytes "x"))
                 (strlen (bytes "b"))).
Proof.
  refine (proj1 (history_navigation_round_trip
                   (viewing [bytes "a"; bytes "b"; bytes "c"] 1 (bytes "x"))
                   (bytes "b") _ _) _).
  - vm_compute. split; reflexivity.
  - vm_compute. reflexivity.
  - vm_compute. reflexivity.
Defined.

(** ** Insertion *)

Lemma firstn_app_exact (s t : list byte) (c : Z) :
  0 <= c <= Z.of_nat (length s) ->
  firstn (Z.to_nat c) (firstn (Z.to_nat c) s ++ t) = firstn (Z.to_nat c) s.
Proof.
  intros Hc. rewrite firstn_app, length_firstn, firstn_firstn.
  replace (Z.to_nat c - Nat.min (Z.to_nat c) (length s))%nat with 0%nat
    by lia.
  rewrite Nat.min_id, firstn_O. apply app_nil_r.
Qed.

Lemma skipn_app_exact (s t : list byte) (c : Z) :
  0 <= c <= Z.of_nat (length s) ->
  skipn (Z.to_nat c) (firstn (Z.to_nat c) s ++ t) = t.
Proof.
  intros Hc. rewrite skipn_app, length_firstn.
  replace (Z.to_nat c - Nat.min (Z.to_nat c) (length s))%nat with 0%nat
    by lia.
  rewrite skipn_all2 by (rewrite length_firstn; lia). reflexivity.
Qed.

Lemma span_rebuild (s : list byte) (lo hi : Z) :
  0 <= lo <= hi ->
  firstn (Z.to_nat lo) s ++ span s lo hi ++ skipn (Z.to_nat hi) s = s.
Proof.
  intros Hlo. unfold span.
  replace (Z.to_nat hi) with (Z.to_nat (hi - lo) + Z.to_nat lo)%nat by lia.
  rewrite <- skipn_skipn, firstn_skipn. apply firstn_skipn.
Qed.

Lemma insert_str_at (cl : ll_context) (s ins : list byte) :
  current_str cl = Some s -> no_nul s ->
  0 <= cursor cl <= Z.of_nat (length s) ->
  insert_str cl ins =
    Some (0, set_cursor
               (set_current
                  (set_buffer (popped cl s)
                     (firstn (Z.to_nat (cursor cl)) s ++ ins
                        ++ skipn (Z.to_nat (cursor cl)) s))
                  PtrBuffer)
               (cursor cl + buf_len ins)).
Proof.
  intros Hs Hnn Hc. unfold insert_str.
  destruct (pop_line_popped cl s Hs Hnn) as [r ->].
  destruct (popped_facts cl s Hs) as (Hcur & Hbuf & Hs0 & Hc0 & Hclip & Hlast).
  cbn [obind]. rewrite Hbuf, Hc0. unfold ll_buf_insert, buf_len.
  destruct (Z.leb_spec 0 (cursor cl)); [|lia].
  destruct (Z.leb_spec (cursor cl) (Z.of_nat (length s))); [|lia].
  cbn [andb obind cursor set_current set_buffer]. rewrite Hc0. reflexivity.
Qed.

Lemma popped_history (cl : ll_context) (s : list byte) :
  history (popped cl s) = history cl.
Proof. unfold popped. destruct (current cl); reflexivity. Qed.

Lemma set_bindings_same (cl : ll_context) : set_bindings cl (bindings cl) = cl.
Proof. destruct cl; reflexivity. Qed.

Lemma mbind_ret {A B} (m : M A) (f : A -> M B)
      (cl cl1 : ll_context) (input input1 : list byte) (a : A)
      (out1 : list event) :
  m cl input = Ret a cl1 input1 out1 ->
  mbind m f cl input = after out1 (f a cl1 input1).
Proof. unfold mbind. intros ->. reflexivity. Qed.

Lemma handle_character_inserts {tgt : Target}
      (cl0 cl : ll_context) (input0 input : list byte)
      (retval : fsm_result) (buf s : list byte) :
  read_sequence [] cl0 input0 = Ret (retval, buf) cl input [] ->
  (forall f, retval <> LL_FSM_FINAL_STATE f) ->
  current_str cl = Some s ->
  no_nul s ->
  0 <= cursor cl <= Z.of_nat (length s) ->
  handle_character cl0 input0 =
    Ret 0 (set_last_command
             (set_cursor
                (set_current
                   (set_buffer (popped cl s)
                      (firstn (Z.to_nat (cursor cl)) s ++ buf
                         ++ skipn (Z.to_nat (cursor cl)) s))
                   PtrBuffer)
                (cursor cl + buf_len buf)) None) input [].
Proof.
  intros Hread Hnone Hs Hnn Hc.
  unfold handle_character, mbind. rewrite Hread.
  destruct retval as [|f|]; [| exfalso; eapply Hnone; reflexivity |];
    cbv beta iota; unfold pure;
    rewrite (insert_str_at cl s buf Hs Hnn Hc); reflexivity.
Qed.

(** X6.  A key sequence that ends in no binding is inserted as it was
    read: when the keyboard bytes [buf] run the binding automaton into its
    no-match state, [handle_character] returns 0 with [buf] inserted at
    the cursor of the current line (copied into the edit buffer first when
    a history line was on display), the cursor behind the inserted bytes,
    no previous command recorded, nothing written, and clipboard and
    history untouched. *)
Theorem unbound_bytes_are_inserted {tgt : Target}
        (cl0 cl : ll_context) (input0 input : list byte)
        (retval : fsm_result) (buf s : list byte) :
  read_sequence [] cl0 input0 = Ret (retval, buf) cl input [] ->
  (forall f, retval <> LL_FSM_FINAL_STATE f) ->
  current_str cl = Some s ->
  no_nul s ->
  0 <= cursor cl <= Z.of_nat (length s) ->
  exists cl',
    handle_character cl0 input0 = Ret 0 cl' input [] /\
    current cl' = PtrBuffer /\
    buffer cl' =
      firstn (Z.to_nat (cursor cl)) s ++ buf
      ++ skipn (Z.to_nat (cursor cl)) s /\
    cursor cl' = cursor cl + Z.of_nat (length buf) /\
    last_command cl' = None /\
    clipboard cl' = clipboard cl /\
    history cl' = history cl.
Proof.
  intros Hread Hnone Hs Hnn Hc.
  destruct (popped_facts cl s Hs) as (_ & _ & _ & _ & Hclip & _).
  pose proof (popped_history cl s) as Hhist.
  exists (set_last_command
            (set_cursor
               (set_current
                  (set_buffer (popped cl s)
                     (firstn (Z.to_nat (cursor cl)) s ++ buf
                        ++ skipn (Z.to_nat (cursor cl)) s))
                  PtrBuffer)
               (cursor cl + buf_len buf)) None).
  split.
  - apply (handle_character_inserts cl0 cl input0 input retval buf s); auto.
  - cbn. unfold buf_len. auto 10.
Qed.

Lemma unbound_bytes_are_inserted_witness :
  exists cl',
    handle_character (tgt := signed_char_target) (typing (bytes "ab") 1) [x63]
      = Ret 0 cl' [] [] /\
    current cl' = PtrBuffer /\
    buffer cl' =
      firstn (Z.to_nat (cursor (typing (bytes "ab") 1))) (bytes "ab") ++ [x63]
      ++ skipn (Z.to_nat (cursor (typing (bytes "ab") 1))) (bytes "ab") /\
    cursor cl' = cursor (typing (bytes "ab") 1) + Z.of_nat (length [x63]) /\
    last_command cl' = None /\
    clipboard cl' = clipboard (typing (bytes "ab") 1) /\
    history cl' = history (typing (bytes "ab") 1).
Proof.
  apply (unbound_bytes_are_inserted (tgt := signed_char_target)
           (typing (bytes "ab") 1) (typing (bytes "ab") 1) [x63] []
           LL_FSM_NONE [x63] (bytes "ab")).
  - vm_compute. reflexivity.
  - discriminate.
  - vm_compute. reflexivity.
  - repeat constructor; discriminate.
  - vm_compute. split; discriminate.
Defined.

Lemma yank_body (cl : ll_context) (s : list byte) :
  current_str cl = Some s -> no_nul s ->
  0 <= cursor cl <= Z.of_nat (length s) ->
  clipboard cl <> [] ->
  exists cl',
    ll_yank cl = Some (0, cl') /\
    current cl' = PtrBuffer /\
    buffer cl' =
      firstn (Z.to_nat (cursor cl)) s ++ clipboard cl
      ++ skipn (Z.to_nat (cursor cl)) s /\
    cursor cl' = cursor cl + Z.of_nat (length (clipboard cl)) /\
    clipboard cl' = clipboard cl.
Proof.
  intros Hs Hnn Hc Hclip.
  destruct (popped_facts cl s Hs) as (_ & _ & _ & _ & Hclip' & _).
  unfold ll_yank, buf_len.
  destruct (Z.eqb_spec (Z.of_nat (length (clipboard cl))) 0) as [E|E].
  - destruct (clipboard cl); [contradiction|discriminate].
  - cbn [negb]. rewrite (insert_str_at cl s _ Hs Hnn Hc). cbn [obind].
    eexists. split; [reflexivity|]. cbn. auto.
Qed.

(** X7.  Yank inserts the clipboard at the cursor: with a clipboard that
    is not empty, [ll_yank] returns 0, the edit buffer is the current line
    with the clipboard's bytes put in at the cursor, the cursor is behind
    them, and the clipboard and the history are as before. *)
Theorem yank_inserts_clipboard (cl : ll_context) (s : list byte) :
  current_str cl = Some s ->
  no_nul s ->
  0 <= cursor cl <= Z.of_nat (length s) ->
  clipboard cl <> [] ->
  exists cl',
    ll_yank cl = Some (0, cl') /\
    current cl' = PtrBuffer /\
    buffer cl' =
      firstn (Z.to_nat (cursor cl)) s ++ clipboard cl
      ++ skipn (Z.to_nat (cursor cl)) s /\
    cursor cl' = cursor cl + Z.of_nat (length (clipboard cl)) /\
    clipboard cl' = clipboard cl /\
    history cl' = history cl /\
    last_command cl' = last_command cl.
Proof.
  intros Hs Hnn Hc Hclip.
  destruct (popped_facts cl s Hs) as (_ & _ & _ & _ & Hclip' & Hlast).
  pose proof (popped_history cl s) as Hhist.
  unfold ll_yank, buf_len.
  destruct (Z.eqb_spec (Z.of_nat (length (clipboard cl))) 0) as [E|E].
  - destruct (clipboard cl); [contradiction|discriminate].
  - cbn [negb]. rewrite (insert_str_at cl s _ Hs Hnn Hc). cbn [obind].
    eexists. split; [reflexivity|]. cbn. auto 10.
Qed.

Lemma yank_inserts_clipboard_witness :
  exists cl',
    ll_yank after_kill_word = Some (0, cl') /\
    current cl' = PtrBuffer /\
    buffer cl' =
      firstn (Z.to_nat (cursor after_kill_word)) (bytes "foo bar ")
      ++ clipboard after_kill_word
      ++ skipn (Z.to_nat (cursor after_kill_word)) (bytes "foo bar ") /\
    cursor cl' =
      cursor after_kill_word
      + Z.of_nat (length (clipboard after_kill_word)) /\
    clipboard cl' = clipboard after_kill_word /\
    history cl' = history after_kill_word /\
    last_command cl' = last_command after_kill_word.
Proof.
  apply (yank_inserts_clipboard after_kill_word (bytes "foo bar ")).
  - reflexivity.
  - repeat constructor; discriminate.
  - vm_compute. split; discriminate.
  - discriminate.
Defined.

(** X8.  A kill followed by yank gives the line back. On a line [s]
    without NUL, with the cursor inside it and text to kill, when the
    previous command was not a kill-word (so the kill does not chain),
    each of the four kill commands followed by yank leaves the edit buffer
    equal to [s], with the cursor at the end of the span that had been
    killed: for the backward kills that is where it was before the kill. *)
Theorem kill_then_yank_restores_line {tgt : Target}
        (f : Fn.t) (cl : ll_context) (input : list byte) (s : list byte) :
  current_str cl = Some s ->
  no_nul s ->
  0 <= cursor cl <= Z.of_nat (length s) ->
  kill_has_text f (cursor cl) (Z.of_nat (length s)) ->
  last_command cl <> Some Fn.ll_forward_kill_word ->
  last_command cl <> Some Fn.ll_backward_kill_word ->
  exists cl1 cl2 lo hi,
    call f cl input = Ret 0 cl1 input [] /\
    call Fn.ll_yank cl1 input = Ret 0 cl2 input [] /\
    kill_span f (cursor cl) (Z.of_nat (length s)) lo hi /\
    current cl2 = PtrBuffer /\
    buffer cl2 = s /\
    cursor cl2 = hi /\
    clipboard cl2 = span s lo hi.
Proof.
  intros Hs Hnn Hc Htext Hnf Hnb.
  assert (Hk : exists g, call f = pure g /\ killed_state f cl s (g cl)).
  { destruct f; try contradiction; cbn [kill_has_text] in Htext;
      eexists; (split; [reflexivity|]).
    - apply ll_forward_kill_line_total; auto; lia.
    - apply ll_backward_kill_line_total; auto; lia.
    - apply ll_forward_kill_word_total; auto; lia.
    - apply ll_backward_kill_word_total; auto; lia. }
  destruct Hk as (g & Hcall & cl1 & lo & hi & Hg & Hlo & Hhi & Hspan & Hcur
                    & Hbuf & Hc1 & Hclip & _).
  assert (Hclip1 : clipboard cl1 = span s lo hi).
  { rewrite Hclip. destruct f; try contradiction;
      destruct (last_command cl) as [[]|]; try reflexivity; congruence. }
  assert (Hlen : length (span s lo hi) = Z.to_nat (hi - lo)).
  { unfold span. rewrite length_firstn, length_skipn. lia. }
  assert (Hs1 : current_str cl1 = Some (buffer cl1))
    by (unfold current_str; rewrite Hcur; reflexivity).
  assert (Hnn1 : no_nul (buffer cl1)).
  { rewrite Hbuf. apply no_nul_app; auto using no_nul_firstn, no_nul_skipn. }
  exists cl1. rewrite Hcall, (pure_some _ _ _ _ _ Hg).
  cbn [call]. unfold pure at 1.
  destruct (Z.eq_dec lo hi) as [E|E].
  - exists cl1, lo, hi. unfold ll_yank, buf_len.
    rewrite Hclip1, Hlen.
    destruct (Z.eqb_spec (Z.of_nat (Z.to_nat (hi - lo))) 0); [|lia].
    cbn [negb]. repeat (split; [solve [auto]|]).
    split; [|split; [lia|reflexivity]].
    rewrite Hbuf, E. apply firstn_skipn.
  - assert (Hc1' : 0 <= cursor cl1 <= Z.of_nat (length (buffer cl1))).
    { rewrite Hc1, Hbuf, length_app, length_firstn, length_skipn. lia. }
    assert (Hne : clipboard cl1 <> []).
    { intros Hnil. rewrite Hclip1 in Hnil.
      apply (f_equal (@length byte)) in Hnil. rewrite Hlen in Hnil.
      cbn in Hnil. lia. }
    destruct (yank_body cl1 (buffer cl1) Hs1 Hnn1 Hc1' Hne)
      as (cl2 & -> & Hcur2 & Hbuf2 & Hc2 & Hclip2).
    exists cl2, lo, hi.
    repeat (split; [solve [auto]|]).
    split; [|split; [rewrite Hc2, Hc1, Hclip1, Hlen; lia|congruence]].
    rewrite Hbuf2, Hc1, Hclip1, Hbuf.
    rewrite firstn_app_exact, skipn_app_exact by lia.
    apply span_rebuild. lia.
Qed.

Lemma kill_then_yank_restores_line_witness :
  exists cl1 cl2 lo hi,
    call (tgt := signed_char_target) Fn.ll_backward_kill_word
         (typing (bytes "foo bar") 7) [] = Ret 0 cl1 [] [] /\
    call (tgt := signed_char_target) Fn.ll_yank cl1 [] = Ret 0 cl2 [] [] /\
    kill_span Fn.ll_backward_kill_word (cursor (typing (bytes "foo bar") 7))
              (Z.of_nat (length (bytes "foo bar"))) lo hi /\
    current cl2 = PtrBuffer /\
    buffer cl2 = bytes "foo bar" /\
    cursor cl2 = hi /\
    clipboard cl2 = span (bytes "foo bar") lo hi.
Proof.
  apply (kill_then_yank_restores_line (tgt := signed_char_target)
           Fn.ll_backward_kill_word (typing (bytes "foo bar") 7) []
           (bytes "foo bar")).
  - reflexivity.
  - repeat constructor; discriminate.
  - vm_compute. split; discriminate.
  - vm_compute. reflexivity.
  - discriminate.
  - discriminate.
Defined.

(** ** Character motion *)

Lemma is_cont_nul : is_cont x00 = false.
Proof. reflexivity. Qed.

Lemma c_at_upto_strlen (s : list byte) (i : Z) :
  0 <= i <= strlen s -> exists b, c_at s i = Some b.
Proof.
  intros Hi. destruct (Z.eq_dec i (strlen s)) as [->|Hn].
  - exists x00. apply c_at_strlen.
  - destruct (c_at_before_strlen s i) as (b & Hb & _); [lia|eauto].
Qed.

(** Where the forward loop stops: at the first byte behind the cursor
    that is not a continuation byte. *)
Lemma forward_char_loop_scan (s : list byte) (fuel : nat) :
  forall cl : ll_context,
    current_str cl = Some s ->
    0 <= cursor cl < strlen s ->
    strlen s - cursor cl <= Z.of_nat fuel ->
    exists t,
      forward_char_loop fuel cl = Some (set_cursor cl t) /\
      cursor cl < t <= strlen s /\
      (exists b, c_at s t = Some b /\ is_cont b = false) /\
      forall i, cursor cl < i < t ->
                exists b, c_at s i = Some b /\ is_cont b = true.
Proof.
  induction fuel as [|fuel IH]; intros cl Hs Hc Hfuel; [lia|].
  cbn [forward_char_loop]. cbv zeta.
  rewrite (current_at_str _ s) by exact Hs. cbn [cursor set_cursor].
  destruct (c_at_upto_strlen s (cursor cl + 1)) as (b & Hb); [lia|].
  rewrite Hb. cbn [obind]. destruct (is_cont b) eqn:Eb.
  - assert (Hlt : cursor cl + 1 < strlen s).
    { destruct (Z.eq_dec (cursor cl + 1) (strlen s)) as [E|E]; [|lia].
      rewrite E, c_at_strlen in Hb. injection Hb as <-. discriminate. }
    destruct (IH (set_cursor cl (cursor cl + 1)))
      as (t & Hrun & Ht & Hstop & Hbetween);
      [exact Hs | cbn; lia | cbn; lia |].
    cbn [cursor set_cursor] in Ht, Hbetween.
    exists t. rewrite Hrun. split; [destruct cl; reflexivity|].
    split; [lia|]. split; [exact Hstop|].
    intros i Hi. destruct (Z.eq_dec i (cursor cl + 1)) as [->|Hn];
      [eauto | apply Hbetween; lia].
  - exists (cursor cl + 1). split; [reflexivity|]. split; [lia|].
    split; [eauto|]. intros i Hi. lia.
Qed.

(** The forward loop reaches a byte [t] that is not a continuation byte
    when only continuation bytes lie between the cursor and [t]. *)
Lemma forward_char_loop_exact (s : list byte) (fuel : nat) :
  forall (cl : ll_context) (t : Z),
    current_str cl = Some s ->
    cursor cl < t ->
    (exists b, c_at s t = Some b /\ is_cont b = false) ->
    (forall i, cursor cl < i < t ->
               exists b, c_at s i = Some b /\ is_cont b = true) ->
    t - cursor cl <= Z.of_nat fuel ->
    forward_char_loop fuel cl = Some (set_cursor cl t).
Proof.
  induction fuel as [|fuel IH]; intros cl t Hs Hlt Hstop Hbetween Hfuel;
    [lia|].
  cbn [forward_char_loop]. cbv zeta.
  rewrite (current_at_str _ s) by exact Hs. cbn [cursor set_cursor].
  destruct (Z.eq_dec (cursor cl + 1) t) as [<-|Hn].
  - destruct Hstop as (b & Hb & Hn). rewrite Hb. cbn [obind].
    rewrite Hn. reflexivity.
  - destruct (Hbetween (cursor cl + 1)) as (b & Hb & Hcont); [lia|].
    rewrite Hb. cbn [obind]. rewrite Hcont.
    assert (Hrun : forward_char_loop fuel (set_cursor cl (cursor cl + 1)) =
                   Some (set_cursor (set_cursor cl (cursor cl + 1)) t)).
    { apply IH; cbn [cursor set_cursor];
        [exact Hs | lia | exact Hstop
         | intros i Hi; apply Hbetween; lia | lia]. }
    rewrite Hrun. destruct cl; reflexivity.
Qed.

Lemma backward_char_loop_scan (s : list byte) (fuel : nat) :
  forall cl : ll_context,
    current_str cl = Some s ->
    (exists b0, c_at s 0 = Some b0 /\ is_cont b0 = false) ->
    0 < cursor cl <= strlen s ->
    cursor cl <= Z.of_nat fuel ->
    exists t,
      backward_char_loop fuel cl = Some (set_cursor cl t) /\
      0 <= t < cursor cl /\
      (exists b, c_at s t = Some b /\ is_cont b = false) /\
      forall i, t < i < cursor cl ->
                exists b, c_at s i = Some b /\ is_cont b = true.
Proof.
  induction fuel as [|fuel IH]; intros cl Hs H0 Hc Hfuel; [lia|].
  cbn [backward_char_loop]. cbv zeta.
  rewrite (current_at_str _ s) by exact Hs. cbn [cursor set_cursor].
  destruct (c_at_upto_strlen s (cursor cl - 1)) as (b & Hb); [lia|].
  rewrite Hb. cbn [obind]. destruct (is_cont b) eqn:Eb.
  - assert (Hgt : 0 < cursor cl - 1).
    { destruct (Z.eq_dec (cursor cl - 1) 0) as [E|E]; [|lia].
      rewrite E in Hb. destruct H0 as (b0 & Hb0 & Hn0). congruence. }
    destruct (IH (set_cursor cl (cursor cl - 1)))
      as (t & Hrun & Ht & Hstop & Hbetween);
      [exact Hs | exact H0 | cbn; lia | cbn; lia |].
    cbn [cursor set_cursor] in Ht, Hbetween.
    exists t. rewrite Hrun. split; [destruct cl; reflexivity|].
    split; [lia|]. split; [exact Hstop|].
    intros i Hi. destruct (Z.eq_dec i (cursor cl - 1)) as [->|Hn];
      [eauto | apply Hbetween; lia].
  - exists (cursor cl - 1). split; [reflexivity|]. split; [lia|].
    split; [eauto|]. intros i Hi. lia.
Qed.

Lemma backward_char_loop_exact (s : list byte) (fuel : nat) :
  forall (cl : ll_context) (t : Z),
    current_str cl = Some s ->
    t < cursor cl ->
    (exists b, c_at s t = Some b /\ is_cont b = false) ->
    (forall i, t < i < cursor cl ->
               exists b, c_at s i = Some b /\ is_cont b = true) ->
    cursor cl - t <= Z.of_nat fuel ->
    backward_char_loop fuel cl = Some (set_cursor cl t).
Proof.
  induction fuel as [|fuel IH]; intros cl t Hs Hlt Hstop Hbetween Hfuel;
    [lia|].
  cbn [backward_char_loop]. cbv zeta.
  rewrite (current_at_str _ s) by exact Hs. cbn [cursor set_cursor].
  destruct (Z.eq_dec (cursor cl - 1) t) as [<-|Hn].
  - destruct Hstop as (b & Hb & Hn). rewrite Hb. cbn [obind].
    rewrite Hn. reflexivity.
  - destruct (Hbetween (cursor cl - 1)) as (b & Hb & Hcont); [lia|].
    rewrite Hb. cbn [obind]. rewrite Hcont.
    assert (Hrun : backward_char_loop fuel (set_cursor cl (cursor cl - 1)) =
                   Some (set_cursor (set_cursor cl (cursor cl - 1)) t)).
    { apply IH; cbn [cursor set_cursor];
        [exact Hs | lia | exact Hstop
         | intros i Hi; apply Hbetween; lia | lia]. }
    rewrite Hrun. destruct cl; reflexivity.
Qed.

Lemma cursor_byte_not_cont (cl : ll_context) (s : list byte) :
  cursor_ok cl -> current_str cl = Some s ->
  0 <= cursor cl <= strlen s /\
  exists b, c_at s (cursor cl) = Some b /\ is_cont b = false.
Proof.
  intros (s' & Hs' & Hc & Hb) Hs. rewrite Hs in Hs'. injection Hs' as <-.
  split; [exact Hc|].
  destruct (Z.eq_dec (cursor cl) (strlen s)) as [E|E].
  - exists x00. rewrite E. split; [apply c_at_strlen|reflexivity].
  - apply Hb. lia.
Qed.

(** X9.  Forward-char and backward-char undo each other. From a cursor
    that is on the first byte of a character (or at the end of the line),
    forward-char followed by backward-char, when there is a character to
    move over, and backward-char followed by forward-char, when the cursor
    is not at the start and the line does not begin with a continuation
    byte, both return 0 twice and leave the editor exactly as it was. *)
Theorem char_motion_round_trip (cl : ll_context) (s : list byte) :
  current_str cl = Some s ->
  cursor_ok cl ->
  (cursor cl < strlen s ->
   exists cl1,
     ll_forward_char cl = Some (0, cl1) /\
     cursor cl < cursor cl1 /\
     ll_backward_char cl1 = Some (0, cl)) /\
  (0 < cursor cl ->
   (exists b0, c_at s 0 = Some b0 /\ is_cont b0 = false) ->
   exists cl1,
     ll_backward_char cl = Some (0, cl1) /\
     cursor cl1 < cursor cl /\
     ll_forward_char cl1 = Some (0, cl)).
Proof.
  intros Hs Hok.
  destruct (cursor_byte_not_cont cl s Hok Hs) as (Hc & Hhere).
  pose proof (strlen_bounds s) as Hlen.
  split.
  - intros Hlt.
    destruct (c_at_before_strlen s (cursor cl)) as (b & Hb & Hnz); [lia|].
    destruct (forward_char_loop_scan s (S (length s)) cl Hs)
      as (t & Hrun & Ht & Hstop & Hbetween); [lia|lia|].
    exists (set_cursor cl t). split; [|split; [cbn; lia|]].
    + unfold ll_forward_char. rewrite (current_at_str _ _ _ Hs), Hb.
      cbn [obind]. rewrite (byte_eqb_false _ _ Hnz), Hs. cbn [obind].
      rewrite Hrun. reflexivity.
    + unfold ll_backward_char. cbn [cursor set_cursor].
      destruct (Z.eqb_spec t 0); [lia|].
      rewrite (backward_char_loop_exact s _ (set_cursor cl t) (cursor cl));
        auto; cbn [cursor set_cursor]; try lia.
      cbn [obind]. do 2 f_equal. destruct cl; reflexivity.
  - intros Hgt H0.
    destruct (backward_char_loop_scan s (S (Z.to_nat (cursor cl))) cl Hs H0)
      as (t & Hrun & Ht & Hstop & Hbetween); [lia|lia|].
    exists (set_cursor cl t). split; [|split; [cbn; lia|]].
    + unfold ll_backward_char.
      destruct (Z.eqb_spec (cursor cl) 0); [lia|].
      rewrite Hrun. reflexivity.
    + destruct (c_at_before_strlen s t) as (b & Hb & Hnz); [lia|].
      unfold ll_forward_char. cbn [cursor set_cursor].
      rewrite (current_at_str _ s) by exact Hs. rewrite Hb.
      cbn [obind]. rewrite (byte_eqb_false _ _ Hnz).
      replace (current_str (set_cursor cl t)) with (Some s)
        by (symmetry; exact Hs).
      cbn [obind].
      rewrite (forward_char_loop_exact s _ (set_cursor cl t) (cursor cl));
        auto; cbn [cursor set_cursor]; try lia.
      cbn [obind]. do 2 f_equal. destruct cl; reflexivity.
Qed.

Lemma char_motion_round_trip_witness :
  exists cl1,
    ll_forward_char (typing [xc3; xa9; x61] 0) = Some (0, cl1) /\
    cursor (typing [xc3; xa9; x61] 0) < cursor cl1 /\
    ll_backward_char cl1 = Some (0, typing [xc3; xa9; x61] 0).
Proof.
  refine (proj1 (char_motion_round_trip
                   (typing [xc3; xa9; x61] 0) [xc3; xa9; x61] _ _) _).
  - reflexivity.
  - exists [xc3; xa9; x61]. split; [reflexivity|].
    split; [vm_compute; split; discriminate|].
    intros _. exists xc3. split; reflexivity.
  - vm_compute. reflexivity.
Defined.

(** ** Deleting one character *)

(** In a well-formed line the bytes that follow the first byte of a
    character, up to its announced length, are continuation bytes. *)
Lemma wf_line_char_tail (s : list byte) :
  wf_line s ->
  forall (i : Z) (b : byte),
    0 <= i < Z.of_nat (length s) ->
    c_at s i = Some b -> is_cont b = false ->
    forall j, i < j < i + seq_len b ->
              exists b', c_at s j = Some b' /\ is_cont b' = true.
Proof.
  induction 1 as [|b0 tail rest Hb0 Hlen Htail Hrest IH];
    intros i b Hi Hb Hcont j Hj; [cbn in Hi; lia|].
  change (b0 :: tail ++ rest) with ((b0 :: tail) ++ rest) in *.
  assert (Hl : Z.of_nat (length (b0 :: tail)) = seq_len b0)
    by (cbn [length]; lia).
  rewrite length_app, Nat2Z.inj_add, Hl in *.
  assert (Hin_tail : forall k, 0 < k < seq_len b0 ->
            exists b', c_at ((b0 :: tail) ++ rest) k = Some b' /\
                       is_cont b' = true).
  { intros k Hk. rewrite c_at_app_l by lia.
    replace k with ((k - 1) + 1) by lia. rewrite c_at_cons by lia.
    destruct (c_at_inside tail (k - 1)) as [Hnth (b' & Hb')]; [lia|].
    exists b'. split; [exact Hb'|].
    rewrite Hnth in Hb'. apply nth_error_In in Hb'.
    rewrite Forall_forall in Htail. apply Htail. exact Hb'. }
  destruct (Z.eq_dec i 0) as [->|Hi0].
  - injection Hb as <-. apply Hin_tail. lia.
  - destruct (Z.lt_ge_cases i (seq_len b0)) as [Hin|Hout].
    + exfalso. destruct (Hin_tail i) as (b' & Hb' & Hc'); [lia|]. congruence.
    + replace i with (Z.of_nat (length (b0 :: tail)) + (i - seq_len b0))
        in Hb by lia.
      rewrite c_at_app_r in Hb by lia.
      destruct (IH (i - seq_len b0) b ltac:(lia) Hb Hcont (j - seq_len b0))
        as (b' & Hb' & Hc'); [lia|].
      exists b'. split; [|exact Hc'].
      replace j with (Z.of_nat (length (b0 :: tail)) + (j - seq_len b0))
        by lia.
      rewrite c_at_app_r by lia. exact Hb'.
Qed.

(** X10.  Delete-char removes what forward-char steps over. On a
    well-formed line with the cursor on a character, forward-char moves
    the cursor by the length [n] the character's first byte announces, and
    delete-char returns 0 with exactly those [n] bytes gone from the edit
    buffer and the cursor where it was. *)
Theorem delete_char_removes_one_character (cl : ll_context) (s : list byte) :
  current_str cl = Some s ->
  wf_line s ->
  cursor_ok cl ->
  cursor cl < Z.of_nat (length s) ->
  exists b cl',
    c_at s (cursor cl) = Some b /\
    1 <= seq_len b /\
    ll_forward_char cl = Some (0, set_cursor cl (cursor cl + seq_len b)) /\
    ll_delete_char cl = Some (0, cl') /\
    current cl' = PtrBuffer /\
    cursor cl' = cursor cl /\
    buffer cl' =
      firstn (Z.to_nat (cursor cl)) s
      ++ skipn (Z.to_nat (cursor cl + seq_len b)) s.
Proof.
  intros Hs Hwf Hok Hlt.
  pose proof (wf_line_no_nul s Hwf) as Hnn.
  pose proof (no_nul_strlen s Hnn) as Hlen.
  destruct (cursor_byte_not_cont cl s Hok Hs) as (Hc & b & Hb & Hcont).
  destruct (c_at_no_nul s (cursor cl) Hnn) as (b' & Hb' & Hnz); [lia|].
  rewrite Hb in Hb'. injection Hb' as <-.
  destruct (wf_line_char_at s Hwf (cursor cl) b) as (Hn & Hfit & Hnext);
    auto; [lia|].
  pose proof (wf_line_char_tail s Hwf (cursor cl) b ltac:(lia) Hb Hcont)
    as Htail.
  destruct (delete_char_removes_sequence cl s b Hs Hnn Hb Hnz Hn Hfit)
    as (cl' & Hdel & Hcur & Hc' & Hbuf).
  exists b, cl'. repeat (split; [solve [auto]|]).
  split; [|auto].
  unfold ll_forward_char. rewrite (current_at_str _ _ _ Hs), Hb.
  cbn [obind]. rewrite (byte_eqb_false _ _ Hnz), Hs. cbn [obind].
  rewrite (forward_char_loop_exact s _ cl (cursor cl + seq_len b));
    auto; lia.
Qed.

Lemma delete_char_removes_one_character_witness :
  exists b cl',
    c_at [x68; xc3; xa9] (cursor (typing [x68; xc3; xa9] 1)) = Some b /\
    1 <= seq_len b /\
    ll_forward_char (typing [x68; xc3; xa9] 1) =
      Some (0, set_cursor (typing [x68; xc3; xa9] 1)
                          (cursor (typing [x68; xc3; xa9] 1) + seq_len b)) /\
    ll_delete_char (typing [x68; xc3; xa9] 1) = Some (0, cl') /\
    current cl' = PtrBuffer /\
    cursor cl' = cursor (typing [x68; xc3; xa9] 1) /\
    buffer cl' =
      firstn (Z.to_nat (cursor (typing [x68; xc3; xa9] 1))) [x68; xc3; xa9]
      ++ skipn (Z.to_nat (cursor (typing [x68; xc3; xa9] 1) + seq_len b))
               [x68; xc3; xa9].
Proof.
  apply (delete_char_removes_one_character
           (typing [x68; xc3; xa9] 1) [x68; xc3; xa9]).
  - reflexivity.
  - apply (wf_line_char x68 [] [xc3; xa9]);
      [discriminate|reflexivity|constructor|].
    apply (wf_line_char xc3 [xa9] []);
      [discriminate|reflexivity|repeat constructor|constructor].
  - exists [x68; xc3; xa9]. split; [reflexivity|].
    split; [vm_compute; split; discriminate|].
    intros _. exists xc3. split; reflexivity.
  - vm_compute. reflexivity.
Defined.

(** X11.  Backward-delete-char removes what backward-char steps over. On a
    well-formed line with the cursor on a character and not at the start,
    backward-char moves the cursor to the first byte [t] of the character
    before it, and backward-delete-char returns 0 with exactly the bytes
    from [t] to the old cursor gone from the edit buffer, which are that
    one character, and the cursor at [t]. *)
Theorem backward_delete_char_removes_previous_character
        (cl : ll_context) (s : list byte) :
  current_str cl = Some s ->
  wf_line s ->
  cursor_ok cl ->
  0 < cursor cl ->
  exists t b cl',
    0 <= t /\
    c_at s t = Some b /\
    t + seq_len b = cursor cl /\
    ll_backward_char cl = Some (0, set_cursor cl t) /\
    ll_backward_delete_char cl = Some (0, cl') /\
    current cl' = PtrBuffer /\
    cursor cl' = t /\
    buffer cl' = firstn (Z.to_nat t) s ++ skipn (Z.to_nat (cursor cl)) s.
Proof.
  intros Hs Hwf Hok Hgt.
  pose proof (wf_line_no_nul s Hwf) as Hnn.
  pose proof (no_nul_strlen s Hnn) as Hlen.
  destruct (cursor_byte_not_cont cl s Hok Hs) as (Hc & bc & Hbc & Hcontc).
  assert (H0 : exists b0, c_at s 0 = Some b0 /\ is_cont b0 = false).
  { destruct (c_at_upto_strlen s 0) as (b0 & Hb0); [lia|].
    exists b0. split; [exact Hb0|]. eapply wf_line_first; eauto. }
  destruct (backward_char_loop_scan s (S (Z.to_nat (cursor cl))) cl Hs H0)
    as (t & Hrun & Ht & (b & Hb & Hcont) & Hbetween); [lia|lia|].
  destruct (c_at_no_nul s t Hnn) as (b' & Hb' & Hnz); [lia|].
  rewrite Hb in Hb'. injection Hb' as <-.
  destruct (wf_line_char_at s Hwf t b)
    as (Hn & Hfit & bn & Hbn & Hcontn); auto; [lia|].
  pose proof (wf_line_char_tail s Hwf t b ltac:(lia) Hb Hcont) as Htail.
  assert (Hspan : t + seq_len b = cursor cl).
  { destruct (Z.lt_trichotomy (t + seq_len b) (cursor cl)) as [E|[E|E]];
      [|exact E|].
    - destruct (Hbetween (t + seq_len b)) as (x & Hx & Hcx); [lia|].
      congruence.
    - destruct (Htail (cursor cl)) as (x & Hx & Hcx); [lia|]. congruence. }
  assert (Hback : ll_backward_char cl = Some (0, set_cursor cl t)).
  { unfold ll_backward_char.
    destruct (Z.eqb_spec (cursor cl) 0); [lia|]. rewrite Hrun. reflexivity. }
  destruct (delete_char_removes_sequence (set_cursor cl t) s b
              Hs Hnn Hb Hnz Hn Hfit)
    as (cl' & Hdel & Hcur & Hc' & Hbuf).
  cbn [cursor set_cursor] in Hc', Hbuf.
  exists t, b, cl'. split; [lia|]. split; [exact Hb|].
  split; [exact Hspan|]. split; [exact Hback|].
  split; [|split; [exact Hcur|split; [exact Hc'|]]].
  - unfold ll_backward_delete_char. rewrite Hback. cbn [obind Z.eqb negb].
    rewrite Hdel. reflexivity.
  - rewrite Hbuf, Hspan. reflexivity.
Qed.

Lemma backward_delete_char_removes_previous_character_witness :
  exists t b cl',
    0 <= t /\
    c_at [x68; xc3; xa9] t = Some b /\
    t + seq_len b = cursor (typing [x68; xc3; xa9] 3) /\
    ll_backward_char (typing [x68; xc3; xa9] 3) =
      Some (0, set_cursor (typing [x68; xc3; xa9] 3) t) /\
    ll_backward_delete_char (typing [x68; xc3; xa9] 3) = Some (0, cl') /\
    current cl' = PtrBuffer /\
    cursor cl' = t /\
    buffer cl' =
      firstn (Z.to_nat t) [x68; xc3; xa9]
      ++ skipn (Z.to_nat (cursor (typing [x68; xc3; xa9] 3)))
               [x68; xc3; xa9].
Proof.
  apply (backward_delete_char_removes_previous_character
           (typing [x68; xc3; xa9] 3) [x68; xc3; xa9]).
  - reflexivity.
  - apply (wf_line_char x68 [] [xc3; xa9]);
      [discriminate|reflexivity|constructor|].
    apply (wf_line_char xc3 [xa9] []);
      [discriminate|reflexivity|repeat constructor|constructor].
  - exists [x68; xc3; xa9]. split; [reflexivity|].
    split; [vm_compute; split; discriminate|].
    intros Hlt. vm_compute in Hlt. discriminate.
  - vm_compute. reflexivity.
Defined.

(** ** What the renderer shows *)

Lemma reprint_bounded {tgt : Target} (cl : ll_context) (s : list byte)
      (input : list byte) :
  current_str cl = Some s -> 0 <= fmt_len cl ->
  exists fc fl out,
    reprint cl input = Ret tt (set_fmt cl fc fl) input (map EvWrite out) /\
    0 <= fc <= fl.
Proof.
  intros Hs Hfl. unfold reprint. rewrite reprint_line_eq, Hs. cbn [obind].
  destruct (reprint_loop_total s (S (length s)) 0 (set_fmt cl (-1) 0) [])
    as (clL & body & Hloop); [lia|lia|].
  rewrite Hloop. cbn [obind].
  destruct (reprint_loop_frame _ _ _ _ _ _ _ Hloop)
    as (a & b & body' & -> & Hb & Ha & _).
  autorewrite with ctx in Hb, Ha.
  destruct (Z.ltb_spec (fmt_len cl) 0); [lia|].
  cbv zeta. eexists _, _, _. split; [reflexivity|].
  fold (set_fmt (set_fmt cl (-1) 0) a b). autorewrite with ctx.
  destruct (Z.ltb_spec a 0); lia.
Qed.

(** X13.  The renderer accepts every line. For any bytes in the current
    line (control bytes, sequences cut short by the end of the line, bytes
    that start no sequence) and any cursor, a render with a width on
    record that is not negative returns; it takes nothing from the
    keyboard, changes nothing of the state but [fmt_cursor] and [fmt_len],
    and leaves [0 <= fmt_cursor <= fmt_len]. *)
Theorem reprint_accepts_every_line {tgt : Target}
        (cl : ll_context) (s : list byte) (input : list byte) :
  current_str cl = Some s ->
  0 <= fmt_len cl ->
  exists fc fl out,
    reprint cl input = Ret tt (set_fmt cl fc fl) input (map EvWrite out) /\
    0 <= fc <= fl.
Proof. intros Hs Hfl. apply (reprint_bounded cl s input Hs Hfl). Qed.

Lemma reprint_accepts_every_line_witness :
  exists fc fl out,
    reprint (tgt := signed_char_target) (typing [xc3] 0) [] =
      Ret tt (set_fmt (typing [xc3] 0) fc fl) [] (map EvWrite out) /\
    0 <= fc <= fl.
Proof.
  apply (reprint_accepts_every_line (tgt := signed_char_target)
           (typing [xc3] 0) [xc3] []).
  - reflexivity.
  - vm_compute. discriminate.
Defined.

(** ** A typed line *)

(** Under the default bindings a printable byte other than DEL starts no
    binding, and the line feed is bound to accept-line. *)
Lemma feed_typed_text (b : byte) :
  32 <= byte_val b < 127 ->
  ll_fsm_feed (ll_fsm_init LL_ANSI_KEY_BINDINGS) b =
    (ll_fsm_init LL_ANSI_KEY_BINDINGS, LL_FSM_NONE).
Proof.
  intros Hb.
  destruct b;
    try (exfalso; vm_compute in Hb; destruct Hb as [H1 H2];
         ((apply H1; reflexivity) || discriminate H2));
    vm_compute; reflexivity.
Qed.

Lemma feed_enter :
  ll_fsm_feed (ll_fsm_init LL_ANSI_KEY_BINDINGS) x0a =
    (ll_fsm_init LL_ANSI_KEY_BINDINGS,
     LL_FSM_FINAL_STATE Fn.ll_accept_line).
Proof. vm_compute. reflexivity. Qed.

Lemma typed_text_no_nul (s : list byte) : typed_text s -> no_nul s.
Proof.
  unfold typed_text, no_nul. apply Forall_impl.
  intros b Hb ->. destruct Hb as [H _]. apply H. reflexivity.
Qed.

Lemma handle_typed_byte {tgt : Target} (cl : ll_context) (b : byte)
      (input : list byte) :
  bindings cl = ll_fsm_init LL_ANSI_KEY_BINDINGS ->
  current cl = PtrBuffer ->
  no_nul (buffer cl) ->
  cursor cl = Z.of_nat (length (buffer cl)) ->
  32 <= byte_val b < 127 ->
  handle_character cl (b :: input) =
    Ret 0 (set_last_command
             (set_cursor (set_current (set_buffer cl (buffer cl ++ [b]))
                                      PtrBuffer)
                         (cursor cl + 1)) None) input [].
Proof.
  intros Hbind Hcur Hnn Hc Hb.
  assert (Hs : current_str cl = Some (buffer cl))
    by (unfold current_str; rewrite Hcur; reflexivity).
  rewrite (handle_character_inserts cl cl (b :: input) input LL_FSM_NONE
             [b] (buffer cl)); auto; try discriminate; try lia.
  - unfold popped. rewrite Hcur, Hc, Nat2Z.id, firstn_all, skipn_all.
    reflexivity.
  - cbn [read_sequence]. rewrite Hbind, (feed_typed_text b Hb).
    rewrite <- Hbind at 1. rewrite set_bindings_same. reflexivity.
Qed.

Lemma handle_enter {tgt : Target} (cl : ll_context) (rest : list byte) :
  bindings cl = ll_fsm_init LL_ANSI_KEY_BINDINGS ->
  current cl = PtrBuffer ->
  no_nul (buffer cl) ->
  exists out,
    handle_character cl (x0a :: rest) =
      Ret 1 (set_last_command
               (set_history cl (ll_history_push (history cl) (buffer cl)))
               (Some Fn.ll_accept_line)) rest out.
Proof.
  intros Hbind Hcur Hnn.
  assert (Hs : current_str cl = Some (buffer cl))
    by (unfold current_str; rewrite Hcur; reflexivity).
  assert (Hread : read_sequence [] cl (x0a :: rest) =
                  Ret (LL_FSM_FINAL_STATE Fn.ll_accept_line, [x0a]) cl rest []).
  { cbn [read_sequence]. rewrite Hbind, feed_enter.
    rewrite <- Hbind at 1. rewrite set_bindings_same. reflexivity. }
  unfold handle_character. rewrite (mbind_ret _ _ _ _ _ _ _ _ Hread).
  cbv beta iota. cbn [after app]. rewrite after_nil.
  cbn [call]. unfold ll_accept_line, mbind, pure, pop_line, push_line.
  rewrite Hcur, Hs, (c_slice_all _ Hnn).
  destruct (history_file cl) as [path|] eqn:Hfile;
    cbn; rewrite ?Hfile; eexists; reflexivity.
Qed.

Lemma read_loop_typed {tgt : Target} (rest : list byte) :
  forall (todo : list byte) (fuel : nat) (cl : ll_context),
    typed_text (buffer cl) -> typed_text todo ->
    bindings cl = ll_fsm_init LL_ANSI_KEY_BINDINGS ->
    current cl = PtrBuffer ->
    cursor cl = Z.of_nat (length (buffer cl)) ->
    0 <= fmt_len cl ->
    (length todo < fuel)%nat ->
    exists cl' out,
      read_loop fuel cl (todo ++ x0a :: rest) = Ret 1 cl' rest out /\
      buffer cl' = buffer cl ++ todo /\
      current cl' = PtrBuffer /\
      history cl' = ll_history_push (history cl) (buffer cl ++ todo) /\
      last_command cl' = Some Fn.ll_accept_line /\
      clipboard cl' = clipboard cl /\
      0 <= fmt_len cl'.
Proof.
  induction todo as [|b todo IH];
    intros fuel cl Hbuf Htodo Hbind Hcur Hc Hfl Hfuel;
    (destruct fuel as [|fuel]; [cbn in Hfuel; lia|]);
    assert (Hs : current_str cl = Some (buffer cl))
      by (unfold current_str; rewrite Hcur; reflexivity);
    cbn [read_loop app].
  - destruct (reprint_bounded cl (buffer cl) (x0a :: rest) Hs Hfl)
      as (fc0 & fl0 & out0 & Hr0 & Hb0).
    rewrite (mbind_ret _ _ _ _ _ _ _ _ Hr0).
    destruct (handle_enter (set_fmt cl fc0 fl0) rest) as (out & Hh);
      [exact Hbind | exact Hcur | apply typed_text_no_nul; exact Hbuf |].
    rewrite (mbind_ret _ _ _ _ _ _ _ _ Hh).
    cbn [Z.eqb after ret]. eexists _, _. split; [reflexivity|].
    cbn. rewrite app_nil_r. repeat split; auto; lia.
  - destruct (reprint_bounded cl (buffer cl) (b :: todo ++ x0a :: rest)
                              Hs Hfl)
      as (fc & fl & out1 & Hr & Hb).
    rewrite (mbind_ret _ _ _ _ _ _ _ _ Hr).
    inversion Htodo as [|? ? Hb_ok Htodo']; subst.
    rewrite (mbind_ret _ _ _ _ _ _ _ _
               (handle_typed_byte (set_fmt cl fc fl) b (todo ++ x0a :: rest)
                  Hbind Hcur (typed_text_no_nul _ Hbuf) Hc Hb_ok)).
    cbn [Z.eqb after app]. rewrite after_nil.
    destruct (IH fuel
                (set_last_command
                   (set_cursor
                      (set_current
                         (set_buffer (set_fmt cl fc fl)
                            (buffer (set_fmt cl fc fl) ++ [b]))
                         PtrBuffer)
                      (cursor (set_fmt cl fc fl) + 1)) None))
      as (cl' & out & Hrun & Hbuf' & Hcur' & Hhist' & Hlast' & Hclip' & Hfl');
      auto.
    + cbn. apply Forall_app. split; [exact Hbuf|]. constructor; auto.
    + cbn. rewrite length_app. cbn [length]. rewrite Hc. lia.
    + cbn. lia.
    + cbn [length] in Hfuel. lia.
    + rewrite Hrun. cbn [after]. eexists _, _. split; [reflexivity|].
      cbn in Hbuf', Hhist', Hclip'. rewrite <- app_assoc in Hbuf', Hhist'.
      auto 10.
Qed.

Lemma after_after {A} (a b : list event) (r : result A) :
  after a (after b r) = after (a ++ b) r.
Proof. destruct r; cbn [after]; rewrite ?app_assoc; reflexivity. Qed.

(** [ll_read] in one piece: the set-up, the prompt and a blank, then the
    loop from [read_start]. *)
Lemma ll_read_eq {tgt : Target} (prompt : list byte) (cl : ll_context)
      (input : list byte) :
  ll_read prompt cl input =
    after ((if initialized cl then [] else [EvKeyboardInit])
           ++ map EvWrite prompt ++ [EvWrite x20])
          ((retval <~ read_loop (S (length input)) ;;
            reprint ;;;
            write [x0a] ;;;
            if retval <? 0 then ret None
            else b <~ (fun cl input => Ret (buffer cl) cl input []) ;;
                 ret (Some b)) (read_start cl) input).
Proof.
  unfold ll_read, read_start.
  destruct (initialized cl) eqn:Hinit.
  - cbv beta iota delta [mbind modify write emit keyboard_init ret negb].
    rewrite ?Hinit. cbv beta iota.
    rewrite !after_nil, !after_after. reflexivity.
  - cbv beta iota delta [mbind modify write emit keyboard_init ret negb].
    rewrite ?Hinit. cbv beta iota. cbn [after app].
    rewrite !after_nil, !after_after. reflexivity.
Qed.

(** X14.  A typed line comes back. Under the default bindings, with the
    recognizer at its start, a line of printable ASCII bytes followed by
    the line feed makes [ll_read] return that line: the bytes behind the
    line feed stay in the keyboard, the edit buffer holds the line and the
    line has been pushed on the history. *)
Theorem typed_line_is_returned {tgt : Target}
        (prompt : list byte) (cl : ll_context) (line rest : list byte) :
  bindings cl = ll_fsm_init LL_ANSI_KEY_BINDINGS ->
  typed_text line ->
  exists cl' out,
    ll_read prompt cl (line ++ x0a :: rest) = Ret (Some line) cl' rest out /\
    buffer cl' = line /\
    history cl' = ll_history_push (history cl) line.
Proof.
  intros Hbind Hline. rewrite ll_read_eq.
  assert (Hstart : bindings (read_start cl) = ll_fsm_init LL_ANSI_KEY_BINDINGS
                   /\ buffer (read_start cl) = []
                   /\ current (read_start cl) = PtrBuffer
                   /\ cursor (read_start cl) = 0
                   /\ fmt_len (read_start cl) = 0
                   /\ history (read_start cl) = history cl
                   /\ initialized (read_start cl) = true).
  { unfold read_start. destruct (initialized cl) eqn:Hinit; cbn; auto 10. }
  destruct Hstart as (Hb & Hbuf & Hcur & Hc & Hfl & Hhist & Hini).
  destruct (read_loop_typed rest line (S (length (line ++ x0a :: rest)))
                            (read_start cl))
    as (cl1 & out1 & Hrun & Hbuf1 & Hcur1 & Hhist1 & _ & _ & Hfl1);
    auto; try (rewrite Hbuf; constructor); try lia.
  { rewrite length_app. lia. }
  rewrite Hbuf in Hbuf1, Hhist1. cbn [app] in Hbuf1, Hhist1.
  rewrite Hhist in Hhist1.
  assert (Hs1 : current_str cl1 = Some (buffer cl1))
    by (unfold current_str; rewrite Hcur1; reflexivity).
  destruct (reprint_bounded cl1 (buffer cl1) rest Hs1 Hfl1)
    as (fc & fl & out2 & Hr & _).
  rewrite (mbind_ret _ _ _ _ _ _ _ _ Hrun).
  cbv beta. rewrite (mbind_ret _ _ _ _ _ _ _ _ Hr).
  cbv beta iota delta [mbind write emit ret Z.ltb Z.compare].
  cbn [after]. eexists _, _. split.
  - rewrite <- Hbuf1. reflexivity.
  - split; [exact Hbuf1|exact Hhist1].
Qed.

Lemma typed_line_is_returned_witness :
  exists cl' out,
    ll_read (tgt := signed_char_target) (bytes ">") (cl_start 10)
            (bytes "hello" ++ x0a :: bytes "next") =
      Ret (Some (bytes "hello")) cl' (bytes "next") out /\
    buffer cl' = bytes "hello" /\
    history cl' = ll_history_push (history (cl_start 10)) (bytes "hello").
Proof.
  apply (typed_line_is_returned (tgt := signed_char_target)
           (bytes ">") (cl_start 10) (bytes "hello") (bytes "next")).
  - reflexivity.
  - repeat constructor; vm_compute; discriminate.
Defined.

Lemma written_after {A} (o : list event) (r : result A) (out : list event) :
  written (after o r) = Some out -> exists rest, out = o ++ rest.
Proof.
  destruct r; cbn [after written]; intros [= <-]; eauto.
Qed.

(** X15.  The prompt comes first. Whenever [ll_read] has a result (it
    returns, the process exits or the keyboard runs dry), what it wrote
    begins with the byte-wise copy of the prompt and one blank, preceded
    by the switch of the terminal to unbuffered input exactly when the
    editor had not been initialised before. *)
Theorem ll_read_writes_the_prompt_first {tgt : Target}
        (prompt : list byte) (cl : ll_context) (input : list byte)
        (out : list event) :
  written (ll_read prompt cl input) = Some out ->
  exists rest,
    out = (if initialized cl then [] else [EvKeyboardInit])
          ++ map EvWrite prompt ++ [EvWrite x20] ++ rest.
Proof.
  rewrite ll_read_eq. intros H.
  destruct (written_after _ _ _ H) as (rest & ->).
  exists rest. rewrite <- !app_assoc. reflexivity.
Qed.

Lemma ll_read_writes_the_prompt_first_witness :
  exists rest,
    [EvKeyboardInit; EvWrite x3e; EvWrite x20] =
      (if initialized (cl_start 10) then [] else [EvKeyboardInit])
      ++ map EvWrite [x3e] ++ [EvWrite x20] ++ rest.
Proof.
  apply (ll_read_writes_the_prompt_first (tgt := signed_char_target)
           [x3e] (cl_start 10) []).
  vm_compute. reflexivity.
Defined.

(** ** Word motion *)

(** X16.  Forward-word looks one byte ahead of the cursor before anything
    else. On the last byte of a line it therefore refuses with -1 and
    moves nothing, although there is a byte to move over; and with the
    cursor at the end of the line the byte it looks at lies behind the
    terminating NUL, outside the string, so the call has no defined
    result. *)
Theorem forward_word_at_the_end_of_the_line
        (cl : ll_context) (s : list byte) :
  current_str cl = Some s ->
  (cursor cl + 1 = Z.of_nat (length s) ->
   ll_forward_word cl = Some (-1, cl)) /\
  (cursor cl = Z.of_nat (length s) ->
   c_at s (cursor cl + 1) = None /\ ll_forward_word cl = None).
Proof.
  intros Hs. split; intros Hc; unfold ll_forward_word;
    rewrite (current_at_str _ _ _ Hs).
  - rewrite Hc, c_at_end. reflexivity.
  - assert (Hout : c_at s (cursor cl + 1) = None).
    { destruct (c_at s (cursor cl + 1)) as [b|] eqn:E; [|reflexivity].
      apply c_at_in_range in E. lia. }
    rewrite Hout. split; reflexivity.
Qed.

Lemma forward_word_at_the_end_of_the_line_witness :
  ll_forward_word (typing (bytes "ab") 1) = Some (-1, typing (bytes "ab") 1).
Proof.
  refine (proj1 (forward_word_at_the_end_of_the_line
                   (typing (bytes "ab") 1) (bytes "ab") _) _).
  - reflexivity.
  - reflexivity.
Defined.



(** ** Verbatim and accept-line *)

Lemma insert_char_at (cl : ll_context) (s : list byte) (b : byte) :
  current_str cl = Some s -> no_nul s ->
  0 <= cursor cl <= Z.of_nat (length s) ->
  insert_char cl b =
    Some (0, set_cursor
               (set_current
                  (set_buffer (popped cl s)
                     (firstn (Z.to_nat (cursor cl)) s ++ [b]
                        ++ skipn (Z.to_nat (cursor cl)) s))
                  PtrBuffer)
               (cursor cl + 1)).
Proof.
  intros Hs Hnn Hc. unfold insert_char.
  destruct (pop_line_popped cl s Hs Hnn) as [r ->].
  destruct (popped_facts cl s Hs) as (Hcur & Hbuf & Hs0 & Hc0 & Hclip & Hlast).
  cbn [obind]. rewrite Hbuf, Hc0. unfold ll_buf_insert_char, ll_buf_insert.
  unfold buf_len.
  destruct (Z.leb_spec 0 (cursor cl)); [|lia].
  destruct (Z.leb_spec (cursor cl) (Z.of_nat (length s))); [|lia].
  cbn [andb obind cursor set_current set_buffer]. rewrite Hc0. reflexivity.
Qed.

Lemma popped_bindings (cl : ll_context) (s : list byte) :
  bindings (popped cl s) = bindings cl.
Proof. unfold popped. destruct (current cl); reflexivity. Qed.

Lemma feed_verbatim :
  ll_fsm_feed (ll_fsm_init LL_ANSI_KEY_BINDINGS) x16 =
    (ll_fsm_init LL_ANSI_KEY_BINDINGS, LL_FSM_FINAL_STATE Fn.ll_verbatim).
Proof. vm_compute. reflexivity. Qed.

(** X18.  C-v takes the next byte as text. Under the default bindings,
    with the recognizer at its start, the byte 0x16 followed by any byte
    [b] (a control byte that is bound to a command, or NUL, as well) makes
    [handle_character] return 0 with [b] inserted at the cursor and the
    cursor behind it; [b] never reaches the recognizer, which stays at its
    start. *)
Theorem verbatim_inserts_any_byte {tgt : Target}
        (cl : ll_context) (s : list byte) (b : byte) (input : list byte) :
  bindings cl = ll_fsm_init LL_ANSI_KEY_BINDINGS ->
  current_str cl = Some s ->
  no_nul s ->
  0 <= cursor cl <= Z.of_nat (length s) ->
  0 <= fmt_len cl ->
  exists cl' out,
    handle_character cl (x16 :: b :: input) = Ret 0 cl' input out /\
    current cl' = PtrBuffer /\
    buffer cl' =
      firstn (Z.to_nat (cursor cl)) s ++ [b]
      ++ skipn (Z.to_nat (cursor cl)) s /\
    cursor cl' = cursor cl + 1 /\
    last_command cl' = Some Fn.ll_verbatim /\
    bindings cl' = bindings cl.
Proof.
  intros Hbind Hs Hnn Hc Hfl.
  assert (Hread : read_sequence [] cl (x16 :: b :: input) =
                  Ret (LL_FSM_FINAL_STATE Fn.ll_verbatim, [x16]) cl
                      (b :: input) []).
  { cbn [read_sequence]. rewrite Hbind, feed_verbatim.
    rewrite <- Hbind at 1. rewrite set_bindings_same. reflexivity. }
  destruct (reprint_bounded cl s (b :: input) Hs Hfl)
    as (fc & fl & out1 & Hr & _).
  unfold handle_character. rewrite (mbind_ret _ _ _ _ _ _ _ _ Hread).
  cbv beta iota. cbn [call]. unfold ll_verbatim at 1.
  unfold mbind at 1. unfold mbind at 1.
  rewrite Hr. unfold mbind, keyboard_get, pure.
  rewrite (insert_char_at (set_fmt cl fc fl) s b Hs Hnn Hc).
  cbn [after modify ret Z.ltb Z.compare app].
  eexists _, _. split; [reflexivity|]. cbn -[popped].
  rewrite popped_bindings. auto 10.
Qed.

Lemma verbatim_inserts_any_byte_witness :
  exists cl' out,
    handle_character (tgt := signed_char_target) (typing (bytes "ab") 1)
                     [x16; x01] = Ret 0 cl' [] out /\
    current cl' = PtrBuffer /\
    buffer cl' =
      firstn (Z.to_nat (cursor (typing (bytes "ab") 1))) (bytes "ab")
      ++ [x01]
      ++ skipn (Z.to_nat (cursor (typing (bytes "ab") 1))) (bytes "ab") /\
    cursor cl' = cursor (typing (bytes "ab") 1) + 1 /\
    last_command cl' = Some Fn.ll_verbatim /\
    bindings cl' = bindings (typing (bytes "ab") 1).
Proof.
  apply (verbatim_inserts_any_byte (tgt := signed_char_target)
           (typing (bytes "ab") 1) (bytes "ab") x01 []).
  - reflexivity.
  - reflexivity.
  - repeat constructor; discriminate.
  - vm_compute. split; discriminate.
  - vm_compute. discriminate.
Defined.

Lemma popped_history_file (cl : ll_context) (s : list byte) :
  history_file (popped cl s) = history_file cl.
Proof. unfold popped. destruct (current cl); reflexivity. Qed.

(** X19.  Accept-line takes the line on display. Whether the edit buffer
    or a history line is shown, accept-line returns 1 with that line in
    the edit buffer and pushed on the history; it writes the history file
    when one is set, with the history as it is after the push, and nothing
    otherwise. *)
Theorem accept_line_takes_the_displayed_line {tgt : Target}
        (cl : ll_context) (s : list byte) (input : list byte) :
  current_str cl = Some s ->
  no_nul s ->
  exists cl',
    call Fn.ll_accept_line cl input =
      Ret 1 cl' input
          match history_file cl with
          | Some path => [EvHistoryWrite path (lines (history cl'))]
          | None => []
          end /\
    current cl' = PtrBuffer /\
    buffer cl' = s /\
    history cl' = ll_history_push (history cl) s /\
    cursor cl' = cursor cl /\
    clipboard cl' = clipboard cl.
Proof.
  intros Hs Hnn.
  destruct (pop_line_popped cl s Hs Hnn) as [r Hpop].
  destruct (popped_facts cl s Hs) as (Hcur & Hbuf & Hs0 & Hc0 & Hclip & _).
  pose proof (popped_history cl s) as Hhist.
  pose proof (popped_history_file cl s) as Hfile.
  cbn [call]. unfold ll_accept_line, mbind, pure. rewrite Hpop.
  unfold push_line. rewrite Hs0, (c_slice_all _ Hnn), Hhist.
  change (history_file
            (set_history (popped cl s) (ll_history_push (history cl) s)))
    with (history_file (popped cl s)).
  rewrite Hfile.
  exists (set_history (popped cl s) (ll_history_push (history cl) s)).
  split; [|cbn; auto 10].
  destruct (history_file cl); reflexivity.
Qed.

Lemma accept_line_takes_the_displayed_line_witness :
  exists cl',
    call (tgt := signed_char_target) Fn.ll_accept_line
         (viewing [bytes "a"; bytes "b"; bytes "c"] 1 (bytes "x")) [] =
      Ret 1 cl' []
          match history_file
                  (viewing [bytes "a"; bytes "b"; bytes "c"] 1 (bytes "x"))
          with
          | Some path => [EvHistoryWrite path (lines (history cl'))]
          | None => []
          end /\
    current cl' = PtrBuffer /\
    buffer cl' = bytes "b" /\
    history cl' =
      ll_history_push
        (history (viewing [bytes "a"; bytes "b"; bytes "c"] 1 (bytes "x")))
        (bytes "b") /\
    cursor cl' =
      cursor (viewing [bytes "a"; bytes "b"; bytes "c"] 1 (bytes "x")) /\
    clipboard cl' =
      clipboard (viewing [bytes "a"; bytes "b"; bytes "c"] 1 (bytes "x")).
Proof.
  apply (accept_line_takes_the_displayed_line (tgt := signed_char_target)
           (viewing [bytes "a"; bytes "b"; bytes "c"] 1 (bytes "x"))
           (bytes "b") []).
  - reflexivity.
  - repeat constructor; discriminate.
Defined.

(** ** Forward-word and forward-kill-word *)





(** X21.  Forward-kill-word on the last byte of the line removes nothing
    and empties the clipboard. The command's own test sees a byte to kill,
    but forward-word refuses there and leaves the cursor, so the span is
    empty: the call returns 0, the line and the cursor are as before, and
    the clipboard, unless the previous command was forward-kill-word, is
    replaced by the empty text. *)
Theorem forward_kill_word_on_the_last_byte
        (cl : ll_context) (s : list byte) :
  current_str cl = Some s ->
  no_nul s ->
  0 <= cursor cl ->
  cursor cl + 1 = Z.of_nat (length s) ->
  last_command cl <> Some Fn.ll_forward_kill_word ->
  exists cl',
    ll_forward_kill_word cl = Some (0, cl') /\
    current cl' = PtrBuffer /\
    buffer cl' = s /\
    cursor cl' = cursor cl /\
    clipboard cl' = [].
Proof.
  intros Hs Hnn Hc0 Hc Hlast.
  unfold ll_forward_kill_word. rewrite (current_at_str _ _ _ Hs).
  destruct (c_at_no_nul s (cursor cl) Hnn) as (b & Hb & Hnz); [lia|].
  rewrite Hb. cbn [obind]. rewrite (byte_eqb_false _ _ Hnz).
  destruct (pop_line_popped cl s Hs Hnn) as [r ->].
  destruct (popped_facts cl s Hs) as (Hcur & Hbuf & Hs0 & Hc1 & Hclip & Hl).
  cbn [obind]. cbv zeta.
  assert (Hfw : ll_forward_word (popped cl s) = Some (-1, popped cl s)).
  { unfold ll_forward_word. rewrite (current_at_str _ _ _ Hs0), Hc1, Hc.
    rewrite c_at_end. reflexivity. }
  rewrite Hfw. cbn [obind]. rewrite Hbuf, Hc1, Z.sub_diag.
  pose proof (c_slice_span s (cursor cl) (cursor cl)) as Hsl.
  rewrite Z.sub_diag in Hsl. rewrite Hsl by lia. cbn [obind].
  pose proof (ll_buf_erase_span s (cursor cl) (cursor cl)) as Her.
  rewrite Z.sub_diag in Her.
  assert (Hsame : forall clip : ll_buf,
             buffer (set_clipboard (popped cl s) clip) = s)
    by (intros; exact Hbuf).
  assert (Hclip' : clipboard
             match last_command (popped cl s) with
             | Some Fn.ll_forward_kill_word =>
                 set_clipboard (popped cl s)
                   (ll_buf_append (clipboard (popped cl s))
                                  (span s (cursor cl) (cursor cl)))
             | _ => set_clipboard (popped cl s)
                      (ll_buf_assign (span s (cursor cl) (cursor cl)))
             end = [] /\
           buffer
             match last_command (popped cl s) with
             | Some Fn.ll_forward_kill_word =>
                 set_clipboard (popped cl s)
                   (ll_buf_append (clipboard (popped cl s))
                                  (span s (cursor cl) (cursor cl)))
             | _ => set_clipboard (popped cl s)
                      (ll_buf_assign (span s (cursor cl) (cursor cl)))
             end = s).
  { rewrite Hl. unfold span. rewrite Z.sub_diag.
    destruct (last_command cl) as [[]|]; try contradiction;
      split; (exact Hbuf || reflexivity || congruence). }
  destruct Hclip' as (Hclip' & Hbuf').
  rewrite Hbuf', Her by lia. cbn [obind].
  eexists. split; [reflexivity|].
  cbn [current buffer cursor clipboard set_cursor set_current set_buffer].
  rewrite firstn_skipn. auto.
Qed.

Lemma forward_kill_word_on_the_last_byte_witness :
  exists cl',
    ll_forward_kill_word
      (set_clipboard (typing (bytes "ab") 1) (bytes "kept")) =
      Some (0, cl') /\
    current cl' = PtrBuffer /\
    buffer cl' = bytes "ab" /\
    cursor cl' =
      cursor (set_clipboard (typing (bytes "ab") 1) (bytes "kept")) /\
    clipboard cl' = [].
Proof.
  apply (forward_kill_word_on_the_last_byte
           (set_clipboard (typing (bytes "ab") 1) (bytes "kept"))
           (bytes "ab")).
  - reflexivity.
  - repeat constructor; discriminate.
  - vm_compute. discriminate.
  - vm_compute. reflexivity.
  - discriminate.
Defined.

(** ** The sequence buffer *)

Lemma read_sequence_overflow (c : byte) (rest : list byte) :
  forall (pre buf : list byte) (cl : ll_context),
    inner_run (bindings cl) pre = true ->
    (length buf + length pre = 8)%nat ->
    read_sequence buf cl (pre ++ c :: rest) = Undefined.
Proof.
  induction pre as [|b pre IH]; intros buf cl Hrun Hlen.
  - cbn [app read_sequence]. unfold buf_len.
    destruct (Z.leb_spec 8 (Z.of_nat (length buf))); [reflexivity|].
    cbn [length] in Hlen. lia.
  - cbn [app read_sequence]. unfold buf_len.
    destruct (Z.leb_spec 8 (Z.of_nat (length buf)));
      [cbn [length] in Hlen; lia|].
    cbn [inner_run] in Hrun.
    destruct (ll_fsm_feed (bindings cl) b) as [m' [|f|]];
      try discriminate.
    apply IH; [exact Hrun|].
    rewrite length_app. cbn [length] in *. lia.
Qed.

(** X22.  The sequence buffer has no bound check. [handle_character]
    stores every byte it reads in [char buf[8]] before it asks the
    recognizer; when the recognizer answers [LL_FSM_INNER_STATE] to eight
    bytes in a row, which a binding of nine bytes or more makes possible,
    the ninth byte is stored into [buf[8]], behind the array: the call has
    no defined result. *)
Theorem handle_character_overruns_the_sequence_buffer {tgt : Target}
        (cl : ll_context) (pre : list byte) (c : byte) (rest : list byte) :
  length pre = 8%nat ->
  inner_run (bindings cl) pre = true ->
  handle_character cl (pre ++ c :: rest) = Undefined.
Proof.
  intros Hlen Hrun. unfold handle_character, mbind.
  rewrite (read_sequence_overflow c rest pre [] cl Hrun);
    [reflexivity|cbn [length]; lia].
Qed.

Lemma handle_character_overruns_the_sequence_buffer_witness :
  handle_character (tgt := signed_char_target) cl_nine
    ([x1b; x5b; x31; x3b; x35; x3b; x32; x3b] ++ x41 :: []) = Undefined.
Proof.
  apply (handle_character_overruns_the_sequence_buffer
           (tgt := signed_char_target) cl_nine
           [x1b; x5b; x31; x3b; x35; x3b; x32; x3b] x41 []).
  - reflexivity.
  - vm_compute. reflexivity.
Defined.

(** ** Columns and characters *)

Lemma chars_app (a b : list byte) : chars (a ++ b) = chars a + chars b.
Proof. unfold chars. rewrite filter_app, length_app. lia. Qed.

Lemma chars_tail (tail : list byte) :
  Forall (fun c => is_cont c = true) tail -> chars tail = 0.
Proof.
  induction 1 as [|c tail Hc _ IH]; [reflexivity|].
  unfold chars in *. cbn [filter]. rewrite Hc. exact IH.
Qed.

Lemma chars_char (b : byte) (tail : list byte) :
  is_cont b = false -> Forall (fun c => is_cont c = true) tail ->
  chars (b :: tail) = 1.
Proof.
  intros Hb Htail. change (b :: tail) with ([b] ++ tail).
  rewrite chars_app, (chars_tail tail Htail).
  unfold chars. cbn [filter]. rewrite Hb. reflexivity.
Qed.

Lemma chars_nonneg (s : list byte) : 0 <= chars s.
Proof. unfold chars. lia. Qed.

Lemma chars_le_length (s : list byte) : chars s <= Z.of_nat (length s).
Proof.
  unfold chars.
  pose proof (filter_length_le (fun b => negb (is_cont b)) s). lia.
Qed.

Lemma columns_app (a b : list byte) :
  columns (a ++ b) = columns a + columns b.
Proof.
  induction a as [|x a IH]; [reflexivity|].
  cbn [app]. unfold columns in *. cbn [fold_right]. rewrite IH. lia.
Qed.

Lemma byte_columns_nonneg (b : byte) : 0 <= byte_columns b.
Proof.
  unfold byte_columns.
  destruct (is_cont b); [|destruct (byte_val b <? 32)]; lia.
Qed.

Lemma columns_nonneg (s : list byte) : 0 <= columns s.
Proof.
  induction s as [|x s IH]; [unfold columns; cbn [fold_right]; lia|].
  pose proof (byte_columns_nonneg x).
  unfold columns in *. cbn [fold_right]. lia.
Qed.

Lemma display_app (a b : list byte) :
  display (a ++ b) = display a ++ display b.
Proof. apply flat_map_app. Qed.

Lemma columns_cons (b : byte) (s : list byte) :
  columns (b :: s) = byte_columns b + columns s.
Proof. reflexivity. Qed.

Lemma display_cons (b : byte) (s : list byte) :
  display (b :: s) = byte_display b ++ display s.
Proof. reflexivity. Qed.

Lemma cont_not_control (c : byte) :
  is_cont c = true -> (byte_val c <? 32) = false.
Proof. destruct c; try reflexivity; discriminate. Qed.

Lemma control_is_ascii (b : byte) :
  byte_val b < 32 -> (Z.land (byte_val b) 0x80 =? 0) = true.
Proof.
  intros Hb. destruct b; try reflexivity; exfalso; vm_compute in Hb;
    discriminate Hb.
Qed.

(** Continuation bytes take no column of their own and are sent as they
    are. *)
Lemma tail_shown (tail : list byte) :
  Forall (fun c => is_cont c = true) tail ->
  columns tail = 0 /\ display tail = tail.
Proof.
  induction 1 as [|c tail Hc _ [IHc IHd]]; [split; reflexivity|].
  rewrite columns_cons, display_cons, IHc, IHd.
  unfold byte_columns, byte_display.
  rewrite Hc, (cont_not_control c Hc). split; reflexivity.
Qed.

Lemma char_shown (b : byte) (tail : list byte) :
  is_cont b = false -> Forall (fun c => is_cont c = true) tail ->
  columns (b :: tail) = byte_columns b /\
  display (b :: tail) = byte_display b ++ tail.
Proof.
  intros Hb Htail. destruct (tail_shown tail Htail) as (Hc & Hd).
  rewrite columns_cons, display_cons, Hc, Hd. split; [lia|reflexivity].
Qed.

Lemma c_slice_middle (pre mid post : list byte) :
  c_slice (pre ++ mid ++ post) (Z.of_nat (length pre))
          (Z.of_nat (length mid)) = Some mid.
Proof.
  unfold c_slice. rewrite !length_app.
  destruct (Z.leb_spec 0 (Z.of_nat (length pre))); [|lia].
  destruct (Z.leb_spec 0 (Z.of_nat (length mid))); [|lia].
  destruct (Z.leb_spec (Z.of_nat (length pre) + Z.of_nat (length mid))
              (Z.of_nat (length pre + (length mid + length post))));
    [|lia].
  cbn [andb]. rewrite !Nat2Z.id.
  rewrite skipn_app, skipn_all, Nat.sub_diag. cbn [skipn app].
  rewrite firstn_app, firstn_all, Nat.sub_diag. cbn [firstn].
  rewrite app_nil_r. reflexivity.
Qed.

(** One turn of the loop over a whole character: a control byte is sent
    as a caret and a letter and counts for two columns, any other
    character is sent as it is and counts for one. *)
Lemma reprint_loop_step {tgt : Target}
      (pre tail post : list byte) (b : byte) (fuel : nat)
      (cl : ll_context) (out : list byte) :
  no_nul (pre ++ (b :: tail) ++ post) ->
  seq_len b = 1 + Z.of_nat (length tail) ->
  Forall (fun c => is_cont c = true) tail ->
  reprint_loop (S fuel) (pre ++ (b :: tail) ++ post)
               (Z.of_nat (length pre)) cl out =
    let cl1 := if Z.of_nat (length pre) =? cursor cl
               then set_fmt_cursor cl (fmt_len cl) else cl in
    reprint_loop fuel (pre ++ (b :: tail) ++ post)
                 (Z.of_nat (length pre) + seq_len b)
                 (set_fmt_len cl1 (fmt_len cl1 + columns (b :: tail)))
                 (out ++ display (b :: tail)).
Proof.
  intros Hnn Hlen Htail.
  assert (Hnz : b <> x00).
  { apply no_nul_skipn with (n := length pre) in Hnn.
    rewrite skipn_app, skipn_all, Nat.sub_diag in Hnn. cbn in Hnn.
    inversion Hnn. assumption. }
  pose proof (seq_len_lead b ltac:(lia)) as Hlead.
  destruct (char_shown b tail Hlead Htail) as (Hcol & Hdis).
  rewrite Hcol, Hdis. unfold byte_columns, byte_display. rewrite Hlead.
  pose proof (no_nul_strlen _ Hnn) as Hstr.
  pose proof (c_slice_middle pre (b :: tail) post) as Hsl.
  cbn [reprint_loop].
  replace (Z.of_nat (length pre)) with (Z.of_nat (length pre) + 0) at 1
    by lia.
  rewrite c_at_app_r by lia.
  change (c_at ((b :: tail) ++ post) 0) with (Some b).
  cbn [obind]. rewrite (byte_eqb_false _ _ Hnz). cbv zeta.
  rewrite Hstr, !length_app. cbn [length] in Hsl |- *.
  unfold seq_len in Hlen |- *. cbv zeta in Hlen |- *.
  destruct (Z.ltb_spec (byte_val b) 32) as [Hctl|Hctl].
  { rewrite (control_is_ascii b Hctl) in Hlen |- *.
    assert (tail = [])
      by (destruct tail; [reflexivity|cbn [length] in Hlen; lia]).
    subst tail. reflexivity. }
  destruct (Z.land (byte_val b) 128 =? 0) eqn:E1.
  { assert (tail = [])
      by (destruct tail; [reflexivity|cbn [length] in Hlen; lia]).
    subst tail. reflexivity. }
  destruct (Z.land (byte_val b) 224 =? 192) eqn:E2;
    [|destruct (Z.land (byte_val b) 240 =? 224) eqn:E3;
      [|destruct (Z.land (byte_val b) 248 =? 240) eqn:E4;
        [|destruct (Z.land (byte_val b) 252 =? 248) eqn:E5; [|lia]]]];
    match goal with
    | |- context [?a <? ?n] => destruct (Z.ltb_spec a n); [lia|]
    end;
    replace (Z.of_nat (S (length tail)))
      with (1 + Z.of_nat (length tail)) in Hsl by lia;
    rewrite <- Hlen in Hsl; rewrite Hsl; reflexivity.
Qed.

Ltac split_tests :=
  repeat match goal with
         | |- context [?a <=? ?b] => destruct (Z.leb_spec a b)
         | |- context [?a <? ?b] => destruct (Z.ltb_spec a b)
         | |- context [?a =? ?b] => destruct (Z.eqb_spec a b)
         end;
  try lia; cbn [andb].

(** Over a well-formed stretch [rest] of the line, the loop sends the
    stretch as [display] has it, counts the columns as [columns] has
    them, notes the cursor's column when the cursor is on one of its
    characters, and goes on behind it. *)
Lemma reprint_loop_run {tgt : Target} (rest : list byte) :
  wf_line rest ->
  forall (pre post : list byte) (fuel : nat) (cl : ll_context)
         (out : list byte),
    no_nul (pre ++ rest ++ post) ->
    (forall b, c_at rest (cursor cl - Z.of_nat (length pre)) = Some b ->
               is_cont b = false) ->
    reprint_loop (Z.to_nat (chars rest) + fuel) (pre ++ rest ++ post)
                 (Z.of_nat (length pre)) cl out =
      reprint_loop fuel (pre ++ rest ++ post)
        (Z.of_nat (length pre) + Z.of_nat (length rest))
        (set_fmt cl
           (if (Z.of_nat (length pre) <=? cursor cl)
               && (cursor cl <? Z.of_nat (length pre)
                                + Z.of_nat (length rest))
            then fmt_len cl
                 + columns (firstn (Z.to_nat (cursor cl
                                              - Z.of_nat (length pre)))
                                   rest)
            else fmt_cursor cl)
           (fmt_len cl + columns rest))
        (out ++ display rest).
Proof.
  induction 1 as [|b tail rest Hb Hlen Htail Hwf IH];
    intros pre post fuel cl out Hnn Hcur.
  - cbn [app length Z.of_nat]. rewrite ?app_nil_r, ?Z.add_0_r.
    replace (Z.to_nat (chars []) + fuel)%nat with fuel by reflexivity.
    change (display []) with (@nil byte). rewrite ?app_nil_r.
    f_equal. split_tests;
      destruct cl; unfold set_fmt, set_fmt_len, set_fmt_cursor, columns;
      cbn; f_equal; lia.
  - change (b :: tail ++ rest) with ((b :: tail) ++ rest) in *.
    pose proof (seq_len_lead b ltac:(lia)) as Hlead.
    assert (Hl : Z.of_nat (length (b :: tail)) = seq_len b)
      by (cbn [length]; lia).
    assert (Hch : chars ((b :: tail) ++ rest) = 1 + chars rest)
      by (rewrite chars_app, (chars_char b tail Hlead Htail); reflexivity).
    pose proof (chars_nonneg rest) as Hch0.
    replace (Z.to_nat (chars ((b :: tail) ++ rest)) + fuel)%nat
      with (S (Z.to_nat (chars rest) + fuel)) by lia.
    set (s := pre ++ ((b :: tail) ++ rest) ++ post) in *.
    assert (Hs1 : pre ++ (b :: tail) ++ (rest ++ post) = s)
      by (unfold s; rewrite <- app_assoc; reflexivity).
    assert (Hs2 : (pre ++ b :: tail) ++ rest ++ post = s)
      by (unfold s; rewrite <- !app_assoc; reflexivity).
    pose proof (reprint_loop_step pre tail (rest ++ post) b
                  (Z.to_nat (chars rest) + fuel) cl out) as Hstep.
    rewrite Hs1 in Hstep. rewrite (Hstep Hnn Hlen Htail). clear Hstep.
    cbv zeta.
    set (w := columns (b :: tail)).
    set (cl1 := if Z.of_nat (length pre) =? cursor cl
                then set_fmt_cursor cl (fmt_len cl) else cl).
    assert (Hc1 : cursor cl1 = cursor cl)
      by (unfold cl1; destruct (_ =? _); reflexivity).
    assert (Hfl1 : fmt_len cl1 = fmt_len cl)
      by (unfold cl1; destruct (_ =? _); reflexivity).
    assert (Hfc1 : fmt_cursor cl1 =
                   if Z.of_nat (length pre) =? cursor cl
                   then fmt_len cl else fmt_cursor cl)
      by (unfold cl1; destruct (_ =? _); reflexivity).
    assert (Hinside : forall j, 0 < j < seq_len b ->
              exists t, c_at ((b :: tail) ++ rest) j = Some t /\
                        is_cont t = true).
    { intros j Hj. rewrite c_at_app_l by lia.
      replace j with ((j - 1) + 1) by lia. rewrite c_at_cons by lia.
      destruct (c_at_inside tail (j - 1)) as [Hnth (t & Ht)];
        [cbn [length] in Hl; lia|].
      exists t. split; [exact Ht|]. rewrite Hnth in Ht.
      apply nth_error_In in Ht. rewrite Forall_forall in Htail.
      apply Htail. exact Ht. }
    pose proof (IH (pre ++ b :: tail) post fuel
                  (set_fmt_len cl1 (fmt_len cl1 + w))
                  (out ++ display (b :: tail)))
      as HIH.
    rewrite Hs2 in HIH. rewrite length_app in HIH.
    replace (Z.of_nat (length pre) + seq_len b)
      with (Z.of_nat (length pre + length (b :: tail))) by lia.
    rewrite HIH; clear HIH.
    + rewrite length_app.
      replace (Z.of_nat (length pre + length (b :: tail))
               + Z.of_nat (length rest))
        with (Z.of_nat (length pre)
              + Z.of_nat (length (b :: tail) + length rest)) by lia.
      replace ((out ++ display (b :: tail)) ++ display rest)
        with (out ++ display ((b :: tail) ++ rest))
        by (rewrite display_app, <- app_assoc; reflexivity).
      f_equal.
      cbn [set_fmt_len cursor fmt_len fmt_cursor].
      rewrite Hc1, Hfl1, columns_app. fold w.
      assert (Hset : forall a a' n n', a = a' -> n = n' ->
                set_fmt (set_fmt_len cl1 (fmt_len cl + w)) a n =
                set_fmt cl a' n').
      { intros a a' n n' -> ->. unfold cl1.
        destruct (_ =? _); destruct cl; reflexivity. }
      apply Hset; [|lia].
      change (fmt_cursor (set_fmt_len cl1 (fmt_len cl + w)))
        with (fmt_cursor cl1).
      change (fmt_len (set_fmt_len cl1 (fmt_len cl + w)))
        with (fmt_len cl + w).
      rewrite Hfc1.
      destruct (Z.lt_trichotomy (cursor cl) (Z.of_nat (length pre)))
        as [Hlt|[Heq|Hgt]].
      * split_tests. reflexivity.
      * split_tests.
        rewrite <- Heq, Z.sub_diag. cbn [Z.to_nat firstn].
        unfold columns. cbn [fold_right]. lia.
      * assert (Hout : Z.of_nat (length pre) + seq_len b <= cursor cl).
        { destruct (Z.lt_ge_cases (cursor cl)
                      (Z.of_nat (length pre) + seq_len b)) as [Hin|Hout];
            [exfalso|exact Hout].
          destruct (Hinside (cursor cl - Z.of_nat (length pre)))
            as (t & Ht & Hcont); [lia|].
          rewrite (Hcur t Ht) in Hcont. discriminate. }
        split_tests; try reflexivity.
        rewrite firstn_app.
        rewrite (@firstn_all2 _ _ (b :: tail)) by lia.
        rewrite columns_app. fold w.
        replace (Z.to_nat (cursor cl - Z.of_nat (length pre))
                 - length (b :: tail))%nat
          with (Z.to_nat (cursor cl
                          - Z.of_nat (length pre + length (b :: tail))))
          by lia.
        lia.
    + exact Hnn.
    + intros t Ht. cbn [cursor set_fmt_len] in Ht. rewrite Hc1 in Ht.
      destruct (Z.lt_ge_cases (cursor cl - Z.of_nat (length pre)
                               - Z.of_nat (length (b :: tail))) 0) as [Hneg|Hpos].
      * apply c_at_in_range in Ht. lia.
      * apply Hcur.
        replace (cursor cl - Z.of_nat (length pre))
          with (Z.of_nat (length (b :: tail))
                + (cursor cl - Z.of_nat (length pre)
                   - Z.of_nat (length (b :: tail)))) by lia.
        rewrite c_at_app_r by lia.
        replace (cursor cl - Z.of_nat (length pre)
                 - Z.of_nat (length (b :: tail)))
          with (cursor cl - Z.of_nat (length pre + length (b :: tail)))
          by lia.
        exact Ht.
Qed.

Lemma reprint_loop_at_end {tgt : Target} (s : list byte) (fuel : nat)
      (cl : ll_context) (out : list byte) :
  reprint_loop (S fuel) s (Z.of_nat (length s)) cl out = Some (cl, out).
Proof. cbn [reprint_loop]. rewrite c_at_end. reflexivity. Qed.

(** X12.  What the renderer shows of a well-formed line. For a line made
    of whole characters and a cursor on one of them (or at the end),
    [reprint_line] sends [fmt_cursor] backspaces, then the line with each
    control byte as a caret and the byte 64 above it and every other byte
    as it is, then the blanks that clear a wider old line and the
    backspaces to the cursor. Afterwards [fmt_len] is the line's width,
    two columns for a control byte and one for any other character however
    many bytes it takes, and [fmt_cursor] the width of the part before the
    cursor. *)
Theorem reprint_line_shows_the_line {tgt : Target}
        (cl : ll_context) (s : list byte) :
  current_str cl = Some s ->
  wf_line s ->
  cursor_ok cl ->
  0 <= fmt_len cl ->
  reprint_line cl =
    Some (set_fmt cl (columns (firstn (Z.to_nat (cursor cl)) s))
                  (columns s),
          repeat x08 (Z.to_nat (fmt_cursor cl)) ++ display s
          ++ repeat x20 (Z.to_nat (fmt_len cl - columns s))
          ++ repeat x08
               (Z.to_nat (Z.max (columns s) (fmt_len cl)
                          - columns (firstn (Z.to_nat (cursor cl)) s)))).
Proof.
  intros Hs Hwf Hok Hfl.
  pose proof (wf_line_no_nul s Hwf) as Hnn.
  pose proof (no_nul_strlen s Hnn) as Hlen.
  destruct (cursor_byte_not_cont cl s Hok Hs) as (Hc & b0 & Hb0 & Hcont0).
  rewrite reprint_line_eq, Hs. cbn [obind].
  pose proof (chars_le_length s) as Hle.
  pose proof (chars_nonneg s) as Hge.
  pose proof (reprint_loop_run s Hwf [] []
                (S (length s - Z.to_nat (chars s)))
                (set_fmt cl (-1) 0) []) as Hloop.
  cbn [app length Z.of_nat] in Hloop. rewrite app_nil_r in Hloop.
  change (cursor (set_fmt cl (-1) 0)) with (cursor cl) in Hloop.
  rewrite Z.sub_0_r, !Z.add_0_l in Hloop.
  replace (Z.to_nat (chars s) + S (length s - Z.to_nat (chars s)))%nat
    with (S (length s)) in Hloop by lia.
  rewrite Hloop; [|exact Hnn|intros b Hb; congruence].
  rewrite reprint_loop_at_end.
  cbn [obind]. destruct (Z.ltb_spec (fmt_len cl) 0); [lia|].
  cbv zeta. autorewrite with ctx. rewrite ?Z.add_0_l.
  pose proof (columns_nonneg (firstn (Z.to_nat (cursor cl)) s)) as Hnonneg.
  destruct (Z.leb_spec 0 (cursor cl)); [|lia].
  destruct (Z.ltb_spec (cursor cl) (Z.of_nat (length s))); cbn [andb].
  - destruct (Z.ltb_spec (columns (firstn (Z.to_nat (cursor cl)) s)) 0);
      [lia|]. reflexivity.
  - destruct (Z.ltb_spec (-1) 0); [|lia].
    rewrite firstn_all2 by lia. reflexivity.
Qed.

Lemma reprint_line_shows_the_line_witness :
  reprint_line (tgt := signed_char_target) (typing [x01; xc3; xa9] 1) =
    Some (set_fmt (typing [x01; xc3; xa9] 1)
            (columns (firstn (Z.to_nat (cursor (typing [x01; xc3; xa9] 1)))
                             [x01; xc3; xa9]))
            (columns [x01; xc3; xa9]),
          repeat x08 (Z.to_nat (fmt_cursor (typing [x01; xc3; xa9] 1)))
          ++ display [x01; xc3; xa9]
          ++ repeat x20
               (Z.to_nat (fmt_len (typing [x01; xc3; xa9] 1)
                          - columns [x01; xc3; xa9]))
          ++ repeat x08
               (Z.to_nat
                  (Z.max (columns [x01; xc3; xa9])
                         (fmt_len (typing [x01; xc3; xa9] 1))
                   - columns (firstn
                                (Z.to_nat (cursor (typing [x01; xc3; xa9] 1)))
                                [x01; xc3; xa9])))).
Proof.
  apply (reprint_line_shows_the_line (tgt := signed_char_target)
           (typing [x01; xc3; xa9] 1) [x01; xc3; xa9]).
  - reflexivity.
  - apply (wf_line_char x01 [] [xc3; xa9]);
      [discriminate|reflexivity|constructor|].
    apply (wf_line_char xc3 [xa9] []);
      [discriminate|reflexivity|repeat constructor|constructor].
  - exists [x01; xc3; xa9]. split; [reflexivity|].
    split; [vm_compute; split; discriminate|].
    intros _. exists xc3. split; reflexivity.
  - vm_compute. discriminate.
Defined.

Lemma lead_byte_not_control (b : byte) :
  2 <= seq_len b ->
  (byte_val b <? 32) = false /\ (Z.land (byte_val b) 0x80 =? 0) = false.
Proof.
  intros Hb.
  destruct b; try (split; reflexivity);
    exfalso; vm_compute in Hb; apply Hb; reflexivity.
Qed.

(** At a lead byte that announces more bytes than the line still has, the
    loop stops and writes nothing more. *)
Lemma reprint_loop_truncated {tgt : Target}
      (pre tail : list byte) (b : byte) (fuel : nat)
      (cl : ll_context) (out : list byte) :
  no_nul (pre ++ b :: tail) ->
  2 <= seq_len b ->
  1 + Z.of_nat (length tail) < seq_len b ->
  reprint_loop (S fuel) (pre ++ b :: tail) (Z.of_nat (length pre)) cl out =
    Some (if Z.of_nat (length pre) =? cursor cl
          then set_fmt_cursor cl (fmt_len cl) else cl, out).
Proof.
  intros Hnn Hb Hshort.
  assert (Hnz : b <> x00).
  { apply no_nul_skipn with (n := length pre) in Hnn.
    rewrite skipn_app, skipn_all, Nat.sub_diag in Hnn. cbn in Hnn.
    inversion Hnn. assumption. }
  pose proof (no_nul_strlen _ Hnn) as Hstr.
  destruct (lead_byte_not_control b Hb) as (H32 & Hhigh).
  cbn [reprint_loop].
  replace (Z.of_nat (length pre)) with (Z.of_nat (length pre) + 0) at 1
    by lia.
  rewrite c_at_app_r by lia.
  change (c_at (b :: tail) 0) with (Some b).
  cbn [obind]. rewrite (byte_eqb_false _ _ Hnz). cbv zeta.
  rewrite H32, Hhigh, Hstr, length_app. cbn [length].
  unfold seq_len in Hb, Hshort. cbv zeta in Hb, Hshort.
  rewrite Hhigh in Hb, Hshort.
  destruct (Z.land (byte_val b) 224 =? 192);
    [|destruct (Z.land (byte_val b) 240 =? 224);
      [|destruct (Z.land (byte_val b) 248 =? 240);
        [|destruct (Z.land (byte_val b) 252 =? 248); [|lia]]]];
    match goal with
    | |- context [?a <? ?n] => destruct (Z.ltb_spec a n); [reflexivity|lia]
    end.
Qed.

(** X23.  A character that is not complete yet is not displayed. When the
    line is a well-formed stretch [body] followed by a lead byte with
    fewer bytes behind it than it announces (as while the bytes of a
    character arrive one by one), [reprint_line] shows [body] and nothing
    of the unfinished character; [fmt_len] is the width of [body] and
    [fmt_cursor] the width of the part of [body] before the cursor. *)
Theorem incomplete_character_is_not_displayed {tgt : Target}
        (cl : ll_context) (body tail : list byte) (b : byte) :
  current_str cl = Some (body ++ b :: tail) ->
  wf_line body ->
  no_nul (b :: tail) ->
  2 <= seq_len b ->
  1 + Z.of_nat (length tail) < seq_len b ->
  0 <= cursor cl ->
  (forall t, c_at body (cursor cl) = Some t -> is_cont t = false) ->
  0 <= fmt_len cl ->
  reprint_line cl =
    Some (set_fmt cl (columns (firstn (Z.to_nat (cursor cl)) body))
                  (columns body),
          repeat x08 (Z.to_nat (fmt_cursor cl)) ++ display body
          ++ repeat x20 (Z.to_nat (fmt_len cl - columns body))
          ++ repeat x08
               (Z.to_nat (Z.max (columns body) (fmt_len cl)
                          - columns (firstn (Z.to_nat (cursor cl)) body)))).
Proof.
  intros Hs Hwf Hrest Hb Hshort Hc Hcur Hfl.
  assert (Hnn : no_nul (body ++ b :: tail))
    by (apply no_nul_app; [apply wf_line_no_nul; exact Hwf|exact Hrest]).
  pose proof (chars_le_length body) as Hle.
  pose proof (chars_nonneg body) as Hge.
  pose proof (columns_nonneg body) as Hcol.
  pose proof (columns_nonneg (firstn (Z.to_nat (cursor cl)) body)) as Hge'.
  rewrite reprint_line_eq, Hs. cbn [obind].
  pose proof (reprint_loop_run body Hwf [] (b :: tail)
                (S (length (body ++ b :: tail) - Z.to_nat (chars body)))
                (set_fmt cl (-1) 0) []) as Hloop.
  cbn [app length Z.of_nat] in Hloop.
  change (cursor (set_fmt cl (-1) 0)) with (cursor cl) in Hloop.
  rewrite Z.sub_0_r, !Z.add_0_l in Hloop.
  replace (Z.to_nat (chars body)
           + S (length (body ++ b :: tail) - Z.to_nat (chars body)))%nat
    with (S (length (body ++ b :: tail))) in Hloop
    by (rewrite length_app; lia).
  rewrite Hloop; [|exact Hnn|intros t Ht; auto].
  rewrite (reprint_loop_truncated body tail b _ _ _ Hnn Hb Hshort).
  cbn [obind]. destruct (Z.ltb_spec (fmt_len cl) 0); [lia|].
  cbv zeta.
  change (cursor (set_fmt (set_fmt cl (-1) 0) ?a ?n)) with (cursor cl).
  destruct (Z.leb_spec 0 (cursor cl)); [|lia].
  destruct (Z.lt_trichotomy (cursor cl) (Z.of_nat (length body)))
    as [Hlt|[Heq|Hgt]].
  - destruct (Z.ltb_spec (cursor cl) (Z.of_nat (length body))); [|lia].
    destruct (Z.eqb_spec (Z.of_nat (length body)) (cursor cl)); [lia|].
    cbn [andb]. autorewrite with ctx.
    destruct (Z.ltb_spec (columns (firstn (Z.to_nat (cursor cl)) body)) 0);
      [lia|]. reflexivity.
  - destruct (Z.ltb_spec (cursor cl) (Z.of_nat (length body))); [lia|].
    destruct (Z.eqb_spec (Z.of_nat (length body)) (cursor cl)); [|lia].
    cbn [andb].
    change (fmt_len (set_fmt_cursor ?x ?y)) with (fmt_len x).
    change (fmt_cursor (set_fmt_cursor ?x ?y)) with y.
    autorewrite with ctx.
    destruct (Z.ltb_spec (columns body) 0); [lia|].
    rewrite firstn_all2 by lia. reflexivity.
  - destruct (Z.ltb_spec (cursor cl) (Z.of_nat (length body))); [lia|].
    destruct (Z.eqb_spec (Z.of_nat (length body)) (cursor cl)); [lia|].
    cbn [andb]. autorewrite with ctx.
    destruct (Z.ltb_spec (-1) 0); [|lia].
    rewrite firstn_all2 by lia. reflexivity.
Qed.

Lemma incomplete_character_is_not_displayed_witness :
  reprint_line (tgt := signed_char_target) (typing [x68; xc3] 2) =
    Some (set_fmt (typing [x68; xc3] 2)
            (columns (firstn (Z.to_nat (cursor (typing [x68; xc3] 2)))
                             [x68]))
            (columns [x68]),
          repeat x08 (Z.to_nat (fmt_cursor (typing [x68; xc3] 2)))
          ++ display [x68]
          ++ repeat x20
               (Z.to_nat (fmt_len (typing [x68; xc3] 2) - columns [x68]))
          ++ repeat x08
               (Z.to_nat
                  (Z.max (columns [x68]) (fmt_len (typing [x68; xc3] 2))
                   - columns (firstn
                                (Z.to_nat (cursor (typing [x68; xc3] 2)))
                                [x68])))).
Proof.
  apply (incomplete_character_is_not_displayed (tgt := signed_char_target)
           (typing [x68; xc3] 2) [x68] [] xc3).
  - reflexivity.
  - apply (wf_line_char x68 [] []);
      [discriminate|reflexivity|constructor|constructor].
  - repeat constructor; discriminate.
  - vm_compute. discriminate.
  - vm_compute. reflexivity.
  - vm_compute. discriminate.
  - intros t Ht. vm_compute in Ht. discriminate.
  - vm_compute. discriminate.
Defined.

(** ** The keyboard bounds the loop *)

Lemma read_sequence_consumes (buf : list byte) :
  forall (input : list byte) (cl cl1 : ll_context) (input1 : list byte)
         (rv : fsm_result) (buf1 : list byte) (out : list event),
    read_sequence buf cl input = Ret (rv, buf1) cl1 input1 out ->
    (length input1 < length input)%nat.
Proof.
  intros input. revert buf.
  induction input as [|c input IH]; intros buf cl cl1 input1 rv buf1 out Hs;
    [discriminate|].
  cbn [read_sequence] in Hs.
  destruct (8 <=? buf_len buf); [discriminate|].
  destruct (ll_fsm_feed (bindings cl) c) as [m retval].
  destruct retval.
  - apply IH in Hs. cbn [length]. lia.
  - injection Hs as _ _ _ <- _. cbn [length]. lia.
  - injection Hs as _ _ _ <- _. cbn [length]. lia.
Qed.

Lemma call_consumes {tgt : Target} (f : Fn.t) (cl cl' : ll_context)
      (input input' : list byte) (r : Z) (out : list event) :
  call f cl input = Ret r cl' input' out ->
  (length input' <= length input)%nat.
Proof.
  intros Hcall.
  assert (Hpure : forall g, call f = pure g ->
                            (length input' <= length input)%nat).
  { intros g Hg. rewrite Hg in Hcall. apply pure_ret_inv in Hcall.
    destruct Hcall as (_ & -> & _). lia. }
  destruct f; try (eapply Hpure; reflexivity); cbn [call] in Hcall.
  - (* end of file *)
    unfold ll_end_of_file in Hcall. apply mbind_ret_inv in Hcall.
    destruct Hcall as (n & cl1 & input1 & o1 & o2 & Hn & Hcall & _).
    apply pure_ret_inv in Hn. destruct Hn as (_ & -> & _).
    destruct (n =? 0).
    + rewrite terminate_exits in Hcall. discriminate.
    + apply pure_ret_inv in Hcall. destruct Hcall as (_ & -> & _). lia.
  - (* verbatim *)
    unfold ll_verbatim in Hcall. apply mbind_ret_inv in Hcall.
    destruct Hcall as ([] & cl1 & input1 & o1 & o2 & Hr & Hcall & _).
    apply reprint_frame in Hr. destruct Hr as (_ & ->).
    apply mbind_ret_inv in Hcall.
    destruct Hcall as (c & cl2 & input2 & o3 & o4 & Hk & Hcall & _).
    apply mbind_ret_inv in Hcall.
    destruct Hcall as (? & cl3 & input3 & o5 & o6 & Hi & Hcall & _).
    apply pure_ret_inv in Hi. destruct Hi as (_ & -> & _).
    injection Hcall as _ _ <- _.
    unfold keyboard_get in Hk. destruct input as [|c0 input0];
      [discriminate|]. injection Hk as _ _ <- _. cbn [length]. lia.
  - (* accept line *)
    unfold ll_accept_line in Hcall. apply mbind_ret_inv in Hcall.
    destruct Hcall as (? & cl1 & input1 & o1 & o2 & Hp & Hcall & _).
    apply pure_ret_inv in Hp. destruct Hp as (_ & -> & _).
    apply mbind_ret_inv in Hcall.
    destruct Hcall as (? & cl2 & input2 & o3 & o4 & Hpush & Hcall & _).
    injection Hcall as _ _ <- _.
    unfold push_line in Hpush.
    destruct (current_str cl1) as [s|]; [|discriminate].
    destruct (c_slice s 0 (strlen s)); [|discriminate].
    cbn [history_file set_history] in Hpush.
    destruct (history_file cl1); injection Hpush as _ _ <- _; lia.
  - (* terminate *)
    rewrite terminate_exits in Hcall. discriminate.
Qed.

Lemma handle_character_consumes {tgt : Target}
      (cl cl' : ll_context) (input input' : list byte) (r : Z)
      (out : list event) :
  handle_character cl input = Ret r cl' input' out ->
  (length input' < length input)%nat.
Proof.
  unfold handle_character. intros Hh.
  apply mbind_ret_inv in Hh.
  destruct Hh as ([retval buf] & cl1 & input1 & out1 & out2 & Hs & Hh & _).
  apply read_sequence_consumes in Hs.
  assert (Hins :
            (pure (fun cl => insert_str cl buf) ;;;
             modify (fun cl => set_last_command cl None) ;;;
             ret 0) cl1 input1 = Ret r cl' input' out2 ->
            input' = input1).
  { intros H. apply mbind_ret_inv in H.
    destruct H as (? & cl2 & input2 & o1 & o2 & Hp & H & _).
    apply pure_ret_inv in Hp. destruct Hp as (_ & -> & _).
    apply mbind_ret_inv in H.
    destruct H as (? & cl3 & input3 & o3 & o4 & Hm & H & _).
    injection Hm as _ _ <- _. injection H as _ _ <- _. reflexivity. }
  destruct retval as [|func|].
  - apply Hins in Hh. subst. exact Hs.
  - apply mbind_ret_inv in Hh.
    destruct Hh as (rv & cl2 & input2 & out3 & out4 & Hc & Hh & _).
    apply call_consumes in Hc.
    apply mbind_ret_inv in Hh.
    destruct Hh as (? & cl3 & input3 & out5 & out6 & Hm & Hh & _).
    injection Hm as _ _ <- _.
    destruct (rv <? 0).
    + apply mbind_ret_inv in Hh.
      destruct Hh as (? & cl4 & input4 & o7 & o8 & Hp & Hh & _).
      injection Hp as _ _ <- _. injection Hh as _ _ <- _. lia.
    + injection Hh as _ _ <- _. lia.
  - apply Hins in Hh. subst. exact Hs.
Qed.

Lemma read_loop_fuel {tgt : Target} :
  forall (fuel1 fuel2 : nat) (cl : ll_context) (input : list byte),
    (length input < fuel1)%nat -> (length input < fuel2)%nat ->
    read_loop fuel1 cl input = read_loop fuel2 cl input.
Proof.
  induction fuel1 as [|fuel1 IH]; intros fuel2 cl input H1 H2; [lia|].
  destruct fuel2 as [|fuel2]; [lia|].
  cbn [read_loop]. unfold mbind at 1. unfold mbind at 2.
  destruct (reprint cl input) as [[] cl1 input1 out1| | |] eqn:Hr;
    try reflexivity.
  apply reprint_frame in Hr. destruct Hr as (_ & ->).
  f_equal. unfold mbind.
  destruct (handle_character cl1 input) as [rv cl2 input2 out2| | |] eqn:Hh;
    try reflexivity.
  apply handle_character_consumes in Hh. f_equal.
  destruct (rv =? 0); [|reflexivity].
  apply IH; lia.
Qed.

(** X24.  Every turn of the loop takes a byte. When [handle_character]
    returns, the keyboard holds strictly fewer bytes than before; so the
    loop of [ll_read] makes at most as many turns as the keyboard has
    bytes before it returns, exits or waits, and the bound of one more
    than that number, with which the loop is modelled, is never used up:
    any larger bound gives the same result. *)
Theorem read_loop_takes_a_byte_each_turn {tgt : Target}
        (cl : ll_context) (input : list byte) :
  (forall r cl' input' out,
      handle_character cl input = Ret r cl' input' out ->
      (length input' < length input)%nat) /\
  (forall fuel,
      (length input < fuel)%nat ->
      read_loop fuel cl input = read_loop (S (length input)) cl input).
Proof.
  split.
  - intros r cl' input' out. apply handle_character_consumes.
  - intros fuel Hfuel. apply read_loop_fuel; lia.
Qed.
